(** * dw-download: a month-by-month journal exporter

    A shallow embedding of [dw-downloader.py] (one month's export) and
    [dw-batch-export.py] (the batch driver), and the properties of the
    design document checked against them.

    Conventions.
    - A Python [str] is a [string]; every character is one [ascii].  The
      text functions below ([lower], [isdigit], [strip]) are Python's
      restricted to that character range.
    - A Python [int] is a [Z]; a [float] that is only configured and
      compared is the rational number it stands for, a [Q].
    - A [dict] from names to values is a [gmap string string].
    - An attribute that may be absent ([tag.get("name")]) is an [option].
    - What the scripts do to the outside world (requests sent, sleeps,
      files, log of the subprocesses launched) is threaded as an explicit
      state.
    - A sleep is modelled where [time.sleep] returns, and [int(s)] where
      it returns; the statements that depend on it say so in a
      hypothesis ([can_pause], [backs_off], [sleepable],
      [plain_labels]). *)

From Stdlib Require Import ZArith NArith QArith String Ascii List Bool Lia.
From Stdlib Require Import Decimal DecimalString DecimalN DecimalZ Sorted.
From stdpp Require Import base option list gmap strings.

Local Open Scope string_scope.
Local Open Scope Z_scope.

(* ===================================================================== *)
(** * Python text primitives *)
(* ===================================================================== *)

Module Text.

(** [c.lower()] on one character. *)
Definition lower_ascii (c : ascii) : ascii :=
  let n := nat_of_ascii c in
  if ((65 <=? n) && (n <=? 90))%nat then ascii_of_nat (n + 32) else c.

(** [s.lower()] *)
Fixpoint lower (s : string) : string :=
  match s with
  | EmptyString => EmptyString
  | String c r => String (lower_ascii c) (lower r)
  end.

(** [s.startswith(p)] *)
Fixpoint startswith (p s : string) : bool :=
  match p, s with
  | EmptyString, _ => true
  | String a p', String b s' => Ascii.eqb a b && startswith p' s'
  | String _ _, EmptyString => false
  end.

(** [needle in hay] *)
Fixpoint contains (needle hay : string) : bool :=
  startswith needle hay ||
  match hay with
  | EmptyString => false
  | String _ r => contains needle r
  end.

(** [s.split(sep)] for a one-character separator. *)
Fixpoint split (sep : ascii) (s : string) : list string :=
  match s with
  | EmptyString => [EmptyString]
  | String c r =>
      if Ascii.eqb c sep then EmptyString :: split sep r
      else match split sep r with
           | f :: fs => String c f :: fs
           | [] => [String c EmptyString]
           end
  end.

(** [s.split(sep, 1)] when [sep in s]: the text before the first [sep]
    and the text after it. *)
Fixpoint split_once (sep : ascii) (s : string) : string * string :=
  match s with
  | EmptyString => (EmptyString, EmptyString)
  | String c r =>
      if Ascii.eqb c sep then (EmptyString, r)
      else let '(a, b) := split_once sep r in (String c a, b)
  end.

(** [c.isspace()] *)
Definition isspace (c : ascii) : bool :=
  let n := nat_of_ascii c in
  (((9 <=? n) && (n <=? 13)) || ((28 <=? n) && (n <=? 32))
   || (n =? 133) || (n =? 160))%nat.

Fixpoint lstrip (s : string) : string :=
  match s with
  | EmptyString => EmptyString
  | String c r => if isspace c then lstrip r else s
  end.

Fixpoint rstrip (s : string) : string :=
  match s with
  | EmptyString => EmptyString
  | String c r =>
      match rstrip r with
      | EmptyString => if isspace c then EmptyString else String c EmptyString
      | r' => String c r'
      end
  end.

(** [s.strip()] *)
Definition strip (s : string) : string := rstrip (lstrip s).

(** A decimal digit, [0] to [9]. *)
Definition is_digit (c : ascii) : bool :=
  let n := nat_of_ascii c in ((48 <=? n) && (n <=? 57))%nat.

Fixpoint all_digits (s : string) : bool :=
  match s with
  | EmptyString => true
  | String c r => is_digit c && all_digits r
  end.

(** Every character of [s] satisfies [P]. *)
Fixpoint forall_chars (P : ascii -> bool) (s : string) : bool :=
  match s with
  | EmptyString => true
  | String c r => P c && forall_chars P r
  end.

(** [c.isdigit()]: in this character range the decimal digits and the
    superscript digits U+00B2, U+00B3 and U+00B9. *)
Definition isdigit_char (c : ascii) : bool :=
  let n := nat_of_ascii c in
  (((48 <=? n) && (n <=? 57)) || (n =? 178) || (n =? 179) || (n =? 185))%nat.

(** [s.isdigit()]: at least one character, and all of them digits. *)
Definition isdigit (s : string) : bool :=
  match s with
  | EmptyString => false
  | _ => forall_chars isdigit_char s
  end.

(** [int(s)] on a string of digits with an optional minus sign; [None]
    stands for [ValueError]. *)
Definition int (s : string) : option Z :=
  option_map Z.of_int (NilZero.int_of_string s).

(** [str(n)] *)
Definition str (n : Z) : string := NilZero.string_of_int (Z.to_int n).

Fixpoint zeros (n : nat) : string :=
  match n with
  | O => EmptyString
  | S k => String "0" (zeros k)
  end.

(** [format(n, "0<w>d")]: sign-aware zero padding to width [w]. *)
Definition format_0d (w : nat) (n : Z) : string :=
  let digits := NilZero.string_of_uint (N.to_uint (Z.abs_N n)) in
  if (n <? 0)%Z
  then String "-" (zeros (w - 1 - String.length digits) +:+ digits)
  else zeros (w - String.length digits) +:+ digits.

(** A Python value used as a condition: [None] and [""] are false. *)
Definition truthy (o : option string) : bool :=
  match o with
  | Some (String _ _) => true
  | _ => false
  end.

(** [range(lo, hi)] *)
Definition range (lo hi : Z) : list Z :=
  map (fun i => lo + Z.of_nat i) (seq 0 (Z.to_nat (hi - lo))).

(** A character that is neither the field delimiter of the failure log
    nor its line terminator. *)
Definition field_char (a : ascii) : bool :=
  negb (Ascii.eqb a ",") && negb (Ascii.eqb a "010").

(** [needle] occurs in [hay]: the meaning of Python's [needle in hay]. *)
Definition occurs_in (needle hay : string) : Prop :=
  exists pre post, hay = pre +:+ needle +:+ post.

(** [time.sleep(d)] raises [ValueError] when [d] is negative and
    [OverflowError] when [d] is more than the platform can wait for; a
    delay from zero to [longest_sleep] seconds is slept on every
    platform. *)
Definition longest_sleep : Z := 4294967.

Definition sleepable (d : Q) : Prop :=
  (0 <= d)%Q /\ (d <= inject_Z longest_sleep)%Q.

End Text.

(* ===================================================================== *)
(** * dw-downloader.py: the export of one month *)
(* ===================================================================== *)

Module Downloader.
Import Text.

Inductive exn :=
| RuntimeError (msg : string)
| FileNotFoundError (msg : string).

(** ** The session and its requests *)

(** The [float] fields hold the number the float stands for. *)
Record RateLimitConfig := {
  min_delay_s : Q;
  max_delay_s : Q;
  max_retries : Z;
  backoff_base_s : Q
}.

(** The fields of [requests.Response] the script reads. *)
Record Response := {
  url : string;
  status_code : Z;
  content_type : option string;
  text : string
}.

(** What one [session.request] call does: it returns a response or raises
    [requests.RequestException]. *)
Inductive reply :=
| Replied (r : Response)
| RequestException (e : string).

Inductive effect :=
| Requested (method target : string)
| Backoff (attempt : Z).

(** The remote end answers the [n]-th request of the run with [remote n];
    [trace] is what the script has done so far, oldest first. *)
Record World := {
  remote : nat -> reply;
  sent : nat;
  trace : list effect
}.

Definition session_request (method target : string) (w : World)
  : reply * World :=
  (remote w (sent w),
   {| remote := remote w; sent := S (sent w);
      trace := trace w ++ [Requested method target] |}).

(** The delay [cfg.backoff_base_s ** attempt + random.uniform(0, 0.4)] of
    the attempts 1 to [n] is one that can be computed and slept, whatever
    the random part is. *)
Definition backs_off (cfg : RateLimitConfig) (n : Z) : Prop :=
  forall attempt, 1 <= attempt <= n ->
    sleepable (backoff_base_s cfg ^ attempt)
    /\ sleepable (backoff_base_s cfg ^ attempt + 0.4).

(** [time.sleep(cfg.backoff_base_s ** attempt + random.uniform(0, 0.4))],
    where the delay can be slept ([backs_off]); where it cannot, the
    statement raises and the exception leaves [request_with_retries]. *)
Definition backoff_sleep (attempt : Z) (w : World) : World :=
  {| remote := remote w; sent := sent w;
     trace := trace w ++ [Backoff attempt] |}.

Definition retry_status (code : Z) : bool :=
  (code =? 429) || (code =? 500) || (code =? 502) || (code =? 503)
  || (code =? 504).

(** The [for attempt in range(1, cfg.max_retries + 1)] loop; [None] when
    the loop runs off its end. *)
Fixpoint attempts (method target : string) (todo : list Z) (w : World)
  : option Response * World :=
  match todo with
  | [] => (None, w)
  | attempt :: rest =>
      match session_request method target w with
      | (Replied r, w1) =>
          if retry_status (status_code r)
          then attempts method target rest (backoff_sleep attempt w1)
          else (Some r, w1)
      | (RequestException _, w1) =>
          attempts method target rest (backoff_sleep attempt w1)
      end
  end.

Definition exhausted_message (cfg : RateLimitConfig) (method target : string)
  : string :=
  "Failed after " +:+ str (max_retries cfg) +:+ " attempts: "
  +:+ method +:+ " " +:+ target.

Definition request_with_retries (method target : string)
    (cfg : RateLimitConfig) (w : World) : (exn + Response) * World :=
  match attempts method target (range 1 (max_retries cfg + 1)) w with
  | (Some r, w') => (inr r, w')
  | (None, w') =>
      (inl (RuntimeError (exhausted_message cfg method target)), w')
  end.

(** ** The parsed export page *)

Record OptionTag := {
  option_value : option string;   (* the [value] attribute *)
  option_text : string            (* [o.get_text(strip=True)] *)
}.

Record SelectTag := {
  select_name : option string;
  select_options : list OptionTag
}.

Record InputTag := {
  input_name : option string;
  input_type : option string;
  input_value : option string
}.

(** One [<form>]: its text as [get_text(" ", strip=True)] gives it, and
    its [select] and [input] descendants in document order. *)
Record FormTag := {
  form_text : string;
  form_selects : list SelectTag;
  form_inputs : list InputTag
}.

(** [f.find("select", {"name": n})] as a condition. *)
Definition has_select_named (n : string) (f : FormTag) : bool :=
  existsb (fun s => bool_decide (select_name s = Some n)) (form_selects f).

Definition year_month_select (f : FormTag) : bool :=
  has_select_named "year" f || has_select_named "month" f.

Definition export_text (f : FormTag) : bool :=
  contains "export" (lower (form_text f)).

(** The [for f in forms] loop of [choose_export_form]; [None] when no
    iteration returns. *)
Fixpoint scan_forms (forms : list FormTag) : option FormTag :=
  match forms with
  | [] => None
  | f :: rest =>
      if year_month_select f then Some f
      else if export_text f then Some f
      else scan_forms rest
  end.

(** [forms] is [soup.find_all("form")]. *)
Definition choose_export_form (forms : list FormTag) : exn + FormTag :=
  match forms with
  | [] => inl (RuntimeError
                 "No <form> found on /export page. Are you logged in?")
  | first :: _ =>
      match scan_forms forms with
      | Some f => inr f
      | None => inr first
      end
  end.

(** The selection order of the design document (section 4.3), written
    from its words: (a) the first form with a [year] or [month] select,
    (b) else the first form whose text contains "export", (c) else the
    first form. *)
Definition three_tier_choice (forms : list FormTag) : option FormTag :=
  match List.find year_month_select forms with
  | Some f => Some f
  | None =>
      match List.find export_text forms with
      | Some f => Some f
      | None => head forms
      end
  end.

(** ** Field-name inference *)

Definition yearish (opts : list string) : Z :=
  Z.of_nat (length (List.filter
    (fun o => isdigit o && (String.length o =? 4)%nat) opts)).

(** [o.isdigit() and 1 <= int(o) <= 12], where [int(o)] returns: on a
    label that [isdigit] accepts and [int] does not (a superscript digit,
    or more digits than [int_max_str_digits]) the test raises
    [ValueError]; [plain_labels] below excludes such labels. *)
Definition month_numeral (o : string) : bool :=
  isdigit o &&
  match int o with
  | Some n => (1 <=? n) && (n <=? 12)
  | None => false
  end.

Definition monthish (opts : list string) : Z :=
  match opts with
  | [] => 0
  | _ => Z.of_nat (length (List.filter month_numeral opts))
  end.

(** The [for sel in form.find_all("select")] loop, with the two local
    variables it assigns. *)
Fixpoint guess_loop (sels : list SelectTag) (year_field month_field : string)
  : string * string :=
  match sels with
  | [] => (year_field, month_field)
  | sel :: rest =>
      match select_name sel with
      | Some (String _ _ as name) =>
          let opts := map option_text (select_options sel) in
          guess_loop rest
            (if 5 <=? yearish opts then name else year_field)
            (if 5 <=? monthish opts then name else month_field)
      | _ => guess_loop rest year_field month_field
      end
  end.

Definition guess_year_month_field_names (form : FormTag) : string * string :=
  guess_loop (form_selects form) "year" "month".

(** ** Output-format coercion *)

(** The pair [(value, label)] the inner loop appends to [opts]. *)
Definition value_label (o : OptionTag) : string * string :=
  (default "" (option_value o), option_text o).

Definition xml_option (vl : string * string) : bool :=
  contains "xml" (lower (fst vl)) || contains "xml" (lower (snd vl)).

(** What [payload[name]] is set to at a matching option. *)
Definition chosen (vl : string * string) : string :=
  if bool_decide (fst vl = "") then snd vl else fst vl.

(** The [for sel in form.find_all("select")] loop; [Some] is the payload
    at its [return True], [None] when the loop ends without returning. *)
Fixpoint scan_selects (sels : list SelectTag) (payload : gmap string string)
  : option (gmap string string) :=
  match sels with
  | [] => None
  | sel :: rest =>
      match select_name sel with
      | Some (String _ _ as name) =>
          match List.find xml_option (map value_label (select_options sel)) with
          | Some vl => Some (<[name := chosen vl]> payload)
          | None => scan_selects rest payload
          end
      | _ => scan_selects rest payload
      end
  end.

(** [radio_groups.setdefault(name, []).append(v)]; the dict keeps its keys
    in the order of their first insertion. *)
Fixpoint setdefault_append (name v : string)
    (groups : list (string * list string)) : list (string * list string) :=
  match groups with
  | [] => [(name, [v])]
  | (k, vs) :: rest =>
      if bool_decide (k = name) then (k, (vs ++ [v])%list) :: rest
      else (k, vs) :: setdefault_append name v rest
  end.

(** The loop over [form.find_all("input", {"type": "radio"})]. *)
Fixpoint collect_radios (inputs : list InputTag)
    (groups : list (string * list string)) : list (string * list string) :=
  match inputs with
  | [] => groups
  | inp :: rest =>
      if bool_decide (input_type inp = Some "radio") then
        match input_name inp with
        | Some (String _ _ as name) =>
            collect_radios rest
              (setdefault_append name (default "" (input_value inp)) groups)
        | _ => collect_radios rest groups
        end
      else collect_radios rest groups
  end.

Definition xml_value (v : string) : bool := contains "xml" (lower v).

(** The [for name, opts in radio_groups.items()] loop. *)
Fixpoint scan_radio_groups (groups : list (string * list string))
    (payload : gmap string string) : option (gmap string string) :=
  match groups with
  | [] => None
  | (name, vs) :: rest =>
      match List.find xml_value vs with
      | Some v => Some (<[name := v]> payload)
      | None => scan_radio_groups rest payload
      end
  end.

(** Returns the flag and the payload as the call leaves it. *)
Definition force_output_format_xml (form : FormTag)
    (payload : gmap string string) : bool * gmap string string :=
  match scan_selects (form_selects form) payload with
  | Some p => (true, p)
  | None =>
      match scan_radio_groups (collect_radios (form_inputs form) []) payload with
      | Some p => (true, p)
      | None => (false, payload)
      end
  end.

(** ** Response classification *)

(** The condition of [main] that sends it to "Not authenticated". *)
Definition login_redirect (r : Response) : bool :=
  contains "returnto=/export" (url r) || contains "login" (lower (url r)).

Definition is_authenticated (r : Response) : bool := negb (login_redirect r).

(** ** Session bootstrap *)

(** The cookie sources among the command-line arguments; an option that is
    not given is [None]. *)
Record Args := {
  month : Z;
  cookie_file : option string;
  cookie_header : option string
}.

(** The loop of [parse_cookie_header] over [header.split(";")]. *)
Fixpoint header_cookies (parts : list string) (cookies : gmap string string)
  : gmap string string :=
  match parts with
  | [] => cookies
  | part :: rest =>
      let part := strip part in
      if negb (truthy (Some part)) || negb (contains "=" part)
      then header_cookies rest cookies
      else let '(k, v) := split_once "=" part in
           header_cookies rest (<[strip k := strip v]> cookies)
  end.

Definition parse_cookie_header (header : string) : gmap string string :=
  header_cookies (split ";" header) ∅.

(** The loop of [load_netscape_cookie_file] over the lines of the file. *)
Fixpoint file_cookies (domain : string) (lines : list string)
    (cookies : gmap string string) : gmap string string :=
  match lines with
  | [] => cookies
  | line :: rest =>
      if negb (truthy (Some line)) || startswith "#" line
      then file_cookies domain rest cookies
      else
        let parts := split "009" line in
        match parts with
        | p0 :: _ :: _ :: _ :: _ :: p5 :: p6 :: _ =>
            if contains domain p0
            then file_cookies domain rest (<[p5 := p6]> cookies)
            else file_cookies domain rest cookies
        | _ => file_cookies domain rest cookies
        end
  end.

(** [files path] is [path.read_text(errors="ignore").splitlines()] when the
    file exists, [None] when it does not. *)
Definition load_netscape_cookie_file (files : string -> option (list string))
    (path : string) : exn + gmap string string :=
  match files path with
  | None => inl (FileNotFoundError ("Cookie file not found: " +:+ path))
  | Some lines =>
      let cookies := file_cookies "dreamwidth.org" lines ∅ in
      if bool_decide (cookies = ∅)
      then inl (RuntimeError
                  ("No cookies for domain containing 'dreamwidth.org' found in "
                   +:+ path))
      else inr cookies
  end.

Inductive bootstrap_result :=
| Exit (code : Z)                       (* [return code] from [main] *)
| Raised (e : exn)                      (* an exception leaves [main] *)
| Session (cookies : gmap string string).

(** [main] from the argument checks to the session with its cookies. *)
Definition bootstrap (files : string -> option (list string)) (args : Args)
  : bootstrap_result :=
  if negb ((1 <=? month args) && (month args <=? 12)) then Exit 2
  else if negb (truthy (cookie_file args)) && negb (truthy (cookie_header args))
  then Exit 2
  else if truthy (cookie_file args) then
    match load_netscape_cookie_file files (default "" (cookie_file args)) with
    | inl e => Raised e
    | inr cookies => Session cookies
    end
  else Session (parse_cookie_header (default "" (cookie_header args))).

(** ** Predicates used in the statements *)

(** A decimal digit. *)
Definition decimal (c : ascii) : Prop := (48 <= nat_of_ascii c <= 57)%nat.

(** A label of four decimal digits. *)
Definition four_digits (o : string) : Prop :=
  exists a b c d,
    o = String a (String b (String c (String d EmptyString)))
    /\ decimal a /\ decimal b /\ decimal c /\ decimal d.

(** A label that is a numeral, of decimal digits only, for a number from
    1 to 12. *)
Definition month_number (o : string) : Prop :=
  o <> EmptyString
  /\ (forall c, In c (list_ascii_of_string o) -> decimal c)
  /\ exists n, int o = Some n /\ 1 <= n <= 12.

(** At least [n] of the labels [l] satisfy [P]. *)
Definition at_least (n : nat) (P : string -> Prop) (l : list string) : Prop :=
  exists picked, sublist picked l /\ length picked = n /\ Forall P picked.

(** The thresholds of the field-name inference. *)
Definition lists_years (s : SelectTag) : Prop :=
  at_least 5 four_digits (map option_text (select_options s)).

Definition lists_months (s : SelectTag) : Prop :=
  at_least 5 month_number (map option_text (select_options s)).

(** The number of digits beyond which [int] refuses a string
    ([sys.int_info.default_max_str_digits]). *)
Definition int_max_str_digits : nat := Z.to_nat 4300.

(** A label on which [int(o)] returns whenever [o.isdigit()] holds: it
    has none of the superscript digits and is not longer than
    [int_max_str_digits]. *)
Definition plain_label (o : string) : Prop :=
  (String.length o <= int_max_str_digits)%nat
  /\ forall c, In c (list_ascii_of_string o) ->
       ~ In (nat_of_ascii c) [178; 179; 185]%nat.

(** The option labels of the named selects of a form are plain: the
    field-name inference does not raise on it. *)
Definition plain_labels (form : FormTag) : Prop :=
  forall s name o,
    In s (form_selects form) -> select_name s = Some name ->
    name <> EmptyString -> In o (select_options s) ->
    plain_label (option_text o).

(** ["xml" in s.lower()] *)
Definition mentions_xml (s : string) : Prop := occurs_in "xml" (lower s).

(** A select of which the output-format scan takes nothing: it has no
    name, or none of its options mentions xml in its value or label. *)
Definition without_xml_option (s : SelectTag) : Prop :=
  forall name o,
    select_name s = Some name -> name <> EmptyString ->
    In o (select_options s) ->
    ~ mentions_xml (default "" (option_value o))
    /\ ~ mentions_xml (option_text o).

(** A radio button with the name [name]. *)
Definition radio_named (i : InputTag) (name : string) : Prop :=
  input_type i = Some "radio" /\ input_name i = Some name
  /\ name <> EmptyString.

(** The tests of the two loops, select by select and button by button:
    a select the field-name inference lets name the year field, and the
    month field. *)
Definition names_year (s : SelectTag) : bool :=
  truthy (select_name s)
  && (5 <=? yearish (map option_text (select_options s))).

Definition names_month (s : SelectTag) : bool :=
  truthy (select_name s)
  && (5 <=? monthish (map option_text (select_options s))).

(** A select the output-format scan stops at. *)
Definition offers_xml (s : SelectTag) : bool :=
  truthy (select_name s)
  && existsb xml_option (map value_label (select_options s)).

(** A radio button the fallback of the output-format scan can stop at. *)
Definition xml_radio (i : InputTag) : bool :=
  bool_decide (input_type i = Some "radio")
  && truthy (input_name i)
  && xml_value (default "" (input_value i)).

(** The value [x] is in the radio group [n] of [groups]. *)
Definition in_group (groups : list (string * list string)) (n x : string)
  : Prop :=
  exists vs, In (n, vs) groups /\ In x vs.

(** ** Sample inputs *)

Definition option_tag (v label : string) : OptionTag :=
  {| option_value := Some v; option_text := label |}.

Definition select_tag (name : string) (opts : list OptionTag) : SelectTag :=
  {| select_name := Some name; select_options := opts |}.

Definition numbered (labels : list string) : list OptionTag :=
  map (fun l => option_tag l l) labels.

(** A page whose first form is a navigation form mentioning the export
    page, and whose second form is the export form itself. *)
Definition nav_form : FormTag :=
  {| form_text := "Import / Export Go"; form_selects := [];
     form_inputs := [] |}.

Definition export_form : FormTag :=
  {| form_text := "Year Month Format Proceed";
     form_selects :=
       [ select_tag "year" (numbered ["2004"; "2005"; "2006"; "2007"; "2008"]);
         select_tag "month" (numbered ["1"; "2"; "3"; "4"; "5"; "6"]);
         select_tag "format" [option_tag "1" "HTML"; option_tag "2" "XML"] ];
     form_inputs := [] |}.

Definition export_page : list FormTag := [nav_form; export_form].

(** A form that offers the output format as radio buttons, and one whose
    radio buttons offer no XML. *)
Definition radio_tag (name value : string) : InputTag :=
  {| input_name := Some name; input_type := Some "radio";
     input_value := Some value |}.

Definition radio_form : FormTag :=
  {| form_text := "Format Proceed";
     form_selects := [select_tag "encoding" [option_tag "u8" "UTF-8"]];
     form_inputs := [ radio_tag "format" "html";
                      radio_tag "format" "livejournal-XML";
                      radio_tag "layout" "xml-compact" ] |}.

Definition plain_radio_form : FormTag :=
  {| form_text := "Format Proceed";
     form_selects := [select_tag "encoding" [option_tag "u8" "UTF-8"]];
     form_inputs := [ radio_tag "format" "html"; radio_tag "format" "csv";
                      {| input_name := Some "query"; input_type := Some "text";
                         input_value := Some "xml" |} ] |}.

(** A form whose only select lists years and months together. *)
Definition when_form : FormTag :=
  {| form_text := "When Proceed";
     form_selects :=
       [ select_tag "when"
           (numbered ["2001"; "2002"; "2003"; "2004"; "2005";
                      "1"; "2"; "3"; "4"; "5"]) ];
     form_inputs := [] |}.

(** A form whose named select has four year labels only, and a select
    without a name that lists five. *)
Definition few_years_form : FormTag :=
  {| form_text := "From Proceed";
     form_selects :=
       [ select_tag "from"
           (numbered ["2001"; "2002"; "2003"; "2004"; "soon"; "12345"]);
         {| select_name := None;
            select_options :=
              numbered ["2001"; "2002"; "2003"; "2004"; "2005"] |} ];
     form_inputs := [] |}.

(** A remote end that is busy on every request, and one that answers the
    third request. *)
Definition status_response (code : Z) : Response :=
  {| url := "https://www.dreamwidth.org/export"; status_code := code;
     content_type := Some "text/html"; text := "" |}.

Definition busy_remote : nat -> reply :=
  fun _ => Replied (status_response 503).

Definition recovering_remote : nat -> reply :=
  fun n => if (n <? 2)%nat then Replied (status_response 503)
           else Replied (status_response 200).

Definition fresh_world (remote : nat -> reply) : World :=
  {| remote := remote; sent := 0; trace := [] |}.

(** [RateLimitConfig()] *)
Definition default_config : RateLimitConfig :=
  {| min_delay_s := 0.8; max_delay_s := 2.0; max_retries := 6;
     backoff_base_s := 1.6 |}.

(** A response whose final URL carries the return-to marker only. *)
Definition returnto_response : Response :=
  {| url := "https://www.dreamwidth.org/?returnto=/export";
     status_code := 200; content_type := Some "text/html"; text := "" |}.

(** A cookie file with one line for the site, and arguments naming both
    cookie sources. *)
Definition cookie_line : string :=
  ".dreamwidth.org" +:+ String "009" "TRUE" +:+ String "009" "/"
  +:+ String "009" "TRUE" +:+ String "009" "0"
  +:+ String "009" "ljmastersession" +:+ String "009" "v1:u1:s2".

Definition one_cookie_file (path : string) : option (list string) :=
  if bool_decide (path = "cookies.txt")
  then Some ["# Netscape HTTP Cookie File"; cookie_line]
  else None.

Definition both_sources : Args :=
  {| month := 12; cookie_file := Some "cookies.txt";
     cookie_header := Some "ljmastersession=v1:u1:s2" |}.

End Downloader.

(* ===================================================================== *)
(** * dw-batch-export.py: the batch driver *)
(* ===================================================================== *)

Module Batch.
Import Text.

(** ** The month generator *)

(** [(y, m) <= (end_year, end_month)] on Python tuples. *)
Definition tuple_le (a b : Z * Z) : bool :=
  (fst a <? fst b) || ((fst a =? fst b) && (snd a <=? snd b)).

(** The strict order on months. *)
Definition tuple_lt (a b : Z * Z) : Prop :=
  fst a < fst b \/ (fst a = fst b /\ snd a < snd b).

(** The [while] loop of [month_range], unrolled at most [fuel] times; the
    list is what the generator yields. *)
Fixpoint month_range_loop (fuel : nat) (y m end_year end_month : Z)
  : list (Z * Z) :=
  match fuel with
  | O => []
  | S fuel' =>
      if tuple_le (y, m) (end_year, end_month) then
        (y, m) ::
        (let m := m + 1 in
         if m >? 12 then month_range_loop fuel' (y + 1) 1 end_year end_month
         else month_range_loop fuel' y m end_year end_month)
      else []
  end.

(** A number of iterations the loop cannot exceed. *)
Definition month_range_bound (y m end_year end_month : Z) : nat :=
  Z.to_nat (13 * (end_year - y) + Z.max end_month 12 - Z.min m 13 + 2).

Definition month_range (start_year start_month end_year end_month : Z)
  : list (Z * Z) :=
  month_range_loop
    (month_range_bound start_year start_month end_year end_month)
    start_year start_month end_year end_month.

(** The loop as it runs, without a bound: [yields y m ey em l] when the
    generator started at [(y, m)] yields [l] and then stops. *)
Inductive yields (end_year end_month : Z) : Z -> Z -> list (Z * Z) -> Prop :=
| yields_stop y m :
    tuple_le (y, m) (end_year, end_month) = false ->
    yields end_year end_month y m []
| yields_next_month y m l :
    tuple_le (y, m) (end_year, end_month) = true ->
    (m + 1 >? 12) = false ->
    yields end_year end_month y (m + 1) l ->
    yields end_year end_month y m ((y, m) :: l)
| yields_next_year y m l :
    tuple_le (y, m) (end_year, end_month) = true ->
    (m + 1 >? 12) = true ->
    yields end_year end_month (y + 1) 1 l ->
    yields end_year end_month y m ((y, m) :: l).

(** ** The failure ledger *)

(** The value of [datetime.utcnow()]. *)
Record datetime := {
  dt_year : Z; dt_month : Z; dt_day : Z;
  dt_hour : Z; dt_minute : Z; dt_second : Z
}.

(** [t.isoformat(timespec="seconds")] *)
Definition isoformat (t : datetime) : string :=
  format_0d 4 (dt_year t) +:+ "-" +:+ format_0d 2 (dt_month t) +:+ "-"
  +:+ format_0d 2 (dt_day t) +:+ "T" +:+ format_0d 2 (dt_hour t) +:+ ":"
  +:+ format_0d 2 (dt_minute t) +:+ ":" +:+ format_0d 2 (dt_second t).

Definition timestamp (t : datetime) : string := isoformat t +:+ "Z".

(** [f"{exit_code}"] for [exit_code: int | None]. *)
Definition format_exit_code (exit_code : option Z) : string :=
  match exit_code with
  | Some c => str c
  | None => "None"
  end.

Definition newline : string := String "010" EmptyString.

(** The [line] that [record_failure] writes. *)
Definition failure_line (year month : Z) (now : datetime)
    (exit_code : option Z) : string :=
  format_0d 4 year +:+ "," +:+ format_0d 2 month +:+ "," +:+ timestamp now
  +:+ "," +:+ format_exit_code exit_code +:+ newline.

(** Reading a ledger line back: drop the line terminator, split on the
    comma. *)
Definition chomp (line : string) : string :=
  match split "010" line with
  | body :: _ => body
  | [] => line
  end.

Definition fields (line : string) : list string := split "," (chomp line).

Definition parse_exit_code (s : string) : option (option Z) :=
  if bool_decide (s = "None") then Some None else option_map Some (int s).

(** ** The main loop *)

Record Args := {
  start_year : Z; start_month : Z; end_year : Z; end_month : Z;
  normal_pause_min : Z; normal_pause_max : Z;
  grumpy_pause_min : Z; grumpy_pause_max : Z
}.

(** What [run(cmd)] reports for a month: the exit code of the exporter and
    whether it left the month's output file behind. *)
Record RunResult := {
  returncode : Z;
  wrote_outfile : bool
}.

(** The surroundings of a batch run: the outcome of the exporter for each
    month it is launched on, and the clock read when that month's failure
    is recorded. *)
Record Env := {
  run : Z * Z -> RunResult;
  utcnow : Z * Z -> datetime
}.

Inductive event :=
| Skipping (ym : Z * Z)                 (* the "Skipping" log line *)
| Exporting (ym : Z * Z)                (* the exporter is launched *)
| Pause (min_s max_s : Z) (reason : string).

(** [outfiles]: the months whose output file exists (the file name is
    one-to-one in year and month); [failures]: the local variable of
    [main]; [ledger]: the text of the failure log; [trace]: what the run
    has done, oldest first. *)
Record State := {
  outfiles : gset (Z * Z);
  failures : Z;
  ledger : string;
  trace : list event
}.

Definition emit (e : event) (st : State) : State :=
  {| outfiles := outfiles st; failures := failures st; ledger := ledger st;
     trace := trace st ++ [e] |}.

Definition set_failures (n : Z) (st : State) : State :=
  {| outfiles := outfiles st; failures := n; ledger := ledger st;
     trace := trace st |}.

(** The bounds with which a pause can be made: [random.randint(min_s,
    max_s)] raises [ValueError] when [min_s > max_s], and [time.sleep]
    refuses a delay that is negative or beyond [longest_sleep]. *)
Definition pause_bounds (min_s max_s : Z) : Prop :=
  0 <= min_s /\ min_s <= max_s /\ max_s <= longest_sleep.

(** Both pauses of a run can be made. *)
Definition can_pause (args : Args) : Prop :=
  pause_bounds (normal_pause_min args) (normal_pause_max args)
  /\ pause_bounds (grumpy_pause_min args) (grumpy_pause_max args).

(** [polite_pause] with bounds as in [pause_bounds]; with other bounds
    the call raises and the exception ends the run. *)
Definition polite_pause (min_s max_s : Z) (reason : string) (st : State)
  : State :=
  emit (Pause min_s max_s reason) st.

(** [record_failure]: the line is appended to the file. *)
Definition record_failure (now : datetime) (year month : Z)
    (exit_code : option Z) (st : State) : State :=
  {| outfiles := outfiles st; failures := failures st;
     ledger := ledger st +:+ failure_line year month now exit_code;
     trace := trace st |}.

(** [run(cmd, ...)] for the month [ym]. *)
Definition launch (env : Env) (ym : Z * Z) (st : State) : RunResult * State :=
  let r := run env ym in
  (r,
   {| outfiles := if wrote_outfile r then {[ym]} ∪ outfiles st
                  else outfiles st;
      failures := failures st; ledger := ledger st;
      trace := trace st ++ [Exporting ym] |}).

Inductive flow :=
| Continue (st : State)                 (* on to the next month *)
| Return (code : Z) (st : State).       (* [return code] *)

Definition grumpy_reason (n : Z) : string :=
  "grumpy (consecutive failures: " +:+ str n +:+ ")".

(** The body of the [for year, month in month_range(...)] loop. *)
Definition iteration (args : Args) (env : Env) (ym : Z * Z) (st : State)
  : flow :=
  if bool_decide (ym ∈ outfiles st) then Continue (emit (Skipping ym) st)
  else
    let '(result, st) := launch env ym st in
    if (returncode result =? 0) && bool_decide (ym ∈ outfiles st) then
      let st := set_failures 0 st in
      Continue
        (polite_pause (normal_pause_min args) (normal_pause_max args)
           "normal" st)
    else
      let st := set_failures (failures st + 1) st in
      let st :=
        record_failure (utcnow env ym) (fst ym) (snd ym)
          (Some (returncode result)) st in
      let st :=
        polite_pause (grumpy_pause_min args) (grumpy_pause_max args)
          (grumpy_reason (failures st)) st in
      if 5 <=? failures st then Return 3 st else Continue st.

(** The [for] loop and the [return 0] after it. *)
Fixpoint main_loop (args : Args) (env : Env) (months : list (Z * Z))
    (st : State) : Z * State :=
  match months with
  | [] => (0, st)
  | ym :: rest =>
      match iteration args env ym st with
      | Continue st' => main_loop args env rest st'
      | Return code st' => (code, st')
      end
  end.

(** [main], started with the output files [existing] on disk and the
    failure log holding [log]. *)
Definition main (args : Args) (env : Env) (existing : gset (Z * Z))
    (log : string) : Z * State :=
  main_loop args env
    (month_range (start_year args) (start_month args)
       (end_year args) (end_month args))
    {| outfiles := existing; failures := 0; ledger := log; trace := [] |}.

(** The months the loop body ran for, and the months exported. *)
Definition visited (t : list event) : list (Z * Z) :=
  omap (fun e => match e with
                 | Skipping ym | Exporting ym => Some ym
                 | Pause _ _ _ => None
                 end) t.

Definition exported (t : list event) : list (Z * Z) :=
  omap (fun e => match e with
                 | Exporting ym => Some ym
                 | _ => None
                 end) t.

Definition pauses (t : list event) : list event :=
  List.filter (fun e => match e with Pause _ _ _ => true | _ => false end) t.

(** The condition of the success branch, for a month whose output file
    did not exist before the exporter ran. *)
Definition succeeded (r : RunResult) : bool :=
  (returncode r =? 0) && wrote_outfile r.

(** The exporter's answer in a scripted run: [true] is a month exported
    well, [false] a failure with exit code 4. *)
Definition scripted (outcomes : list bool) (first : Z * Z) : Env :=
  {| run := fun ym =>
       let i := Z.to_nat (12 * (fst ym - fst first) + (snd ym - snd first)) in
       if nth i outcomes false
       then {| returncode := 0; wrote_outfile := true |}
       else {| returncode := 4; wrote_outfile := false |};
     utcnow := fun ym =>
       {| dt_year := 2024; dt_month := 1; dt_day := 1;
          dt_hour := 0; dt_minute := 0; dt_second := 0 |} |}.

Definition default_args (sy sm ey em : Z) : Args :=
  {| start_year := sy; start_month := sm; end_year := ey; end_month := em;
     normal_pause_min := 5; normal_pause_max := 10;
     grumpy_pause_min := 30; grumpy_pause_max := 60 |}.

End Batch.

(* ===================================================================== *)
(** * dw-downloader.py: the submitted payload and the exported document *)
(* ===================================================================== *)

Module Exporter.
Import Text Downloader.

(** The characters other than [c]. *)
Definition other_than (c x : ascii) : bool := negb (Ascii.eqb x c).

(** ** The retry loop, reply by reply *)

(** What [request_with_retries] does with one reply of the remote end:
    [Some r] when it returns [r], [None] when it backs off and goes on. *)
Definition settled (rp : reply) : option Response :=
  match rp with
  | Replied r => if retry_status (status_code r) then None else Some r
  | RequestException _ => None
  end.

(** A reply after which the loop backs off and tries again: the request
    raised, or the response has one of the five statuses. *)
Definition retried (rp : reply) : Prop :=
  match rp with
  | Replied r => In (status_code r) [429; 500; 502; 503; 504]
  | RequestException _ => True
  end.

(** The requests and sleeps of the attempts [todo] when none of them
    settles. *)
Definition fruitless (method target : string) (todo : list Z) : list effect :=
  flat_map (fun a => [Requested method target; Backoff a]) todo.

(** ** The lines of a cookie file *)

(** The condition under which the loop of [load_netscape_cookie_file]
    takes a cookie from [line], and the cookie it takes. *)
Definition carries_cookie (domain line : string) : bool :=
  truthy (Some line) && negb (startswith "#" line)
  && (7 <=? length (split "009" line))%nat
  && contains domain (nth 0 (split "009" line) "").

Definition cookie_name (line : string) : string :=
  nth 5 (split "009" line) "".

Definition cookie_value (line : string) : string :=
  nth 6 (split "009" line) "".

(** ** The fields of a form *)

(** An [<input>], with what [inp.has_attr("checked")] gives for it. *)
Record CheckableInput := {
  as_input : InputTag;
  has_checked : bool
}.

(** An [<option>], with whether it carries a [selected] attribute. *)
Record SelectableOption := {
  as_option : OptionTag;
  has_selected : bool
}.

(** A [<select>] with its [option] descendants in document order. *)
Record SelectField := {
  field_name : option string;
  field_options : list SelectableOption
}.

Record TextareaTag := {
  textarea_name : option string;
  textarea_text : string          (* [ta.get_text()] *)
}.

(** One [<form>] with everything [main] reads from it. *)
Record Form := {
  action : option string;
  caption : string;               (* [get_text(" ", strip=True)] *)
  inputs : list CheckableInput;
  selects : list SelectField;
  textareas : list TextareaTag
}.

(** The same elements as the form chooser, the field-name inference and
    the output-format scan look at them. *)
Definition select_view (s : SelectField) : SelectTag :=
  {| select_name := field_name s;
     select_options := map as_option (field_options s) |}.

Definition form_view (f : Form) : FormTag :=
  {| form_text := caption f;
     form_selects := map select_view (selects f);
     form_inputs := map as_input (inputs f) |}.

(** ** [build_form_payload] *)

(** [(inp.get("type") or "text").lower()] *)
Definition itype (inp : InputTag) : string :=
  lower (match input_type inp with
         | Some (String _ _ as t) => t
         | _ => "text"
         end).

Definition is_button (t : string) : bool :=
  existsb (String.eqb t) ["submit"; "button"; "image"; "file"].

Definition is_toggle (t : string) : bool :=
  existsb (String.eqb t) ["checkbox"; "radio"].

(** The [for inp in form.find_all("input")] loop. *)
Fixpoint input_data (inps : list CheckableInput) (data : gmap string string)
  : gmap string string :=
  match inps with
  | [] => data
  | inp :: rest =>
      match input_name (as_input inp) with
      | Some (String _ _ as name) =>
          let value := default "" (input_value (as_input inp)) in
          if is_button (itype (as_input inp)) then input_data rest data
          else if is_toggle (itype (as_input inp)) then
            if has_checked inp
            then input_data rest
                   (<[name := if bool_decide (value = "") then "1" else value]>
                      data)
            else input_data rest data
          else input_data rest (<[name := value]> data)
      | _ => input_data rest data
      end
  end.

(** [sel.find("option", selected=True)], and [sel.find("option")] when
    there is none. *)
Definition current_option (opts : list SelectableOption)
  : option SelectableOption :=
  match List.find has_selected opts with
  | Some o => Some o
  | None => head opts
  end.

(** [opt.get("value") if opt.has_attr("value") else opt.get_text(strip=True)] *)
Definition submitted_value (o : OptionTag) : string :=
  match option_value o with
  | Some v => v
  | None => option_text o
  end.

(** The [for sel in form.find_all("select")] loop. *)
Fixpoint select_data (sels : list SelectField) (data : gmap string string)
  : gmap string string :=
  match sels with
  | [] => data
  | sel :: rest =>
      match field_name sel with
      | Some (String _ _ as name) =>
          match current_option (field_options sel) with
          | Some opt =>
              select_data rest (<[name := submitted_value (as_option opt)]> data)
          | None => select_data rest data
          end
      | _ => select_data rest data
      end
  end.

(** The [for ta in form.find_all("textarea")] loop. *)
Fixpoint textarea_data (tas : list TextareaTag) (data : gmap string string)
  : gmap string string :=
  match tas with
  | [] => data
  | ta :: rest =>
      match textarea_name ta with
      | Some (String _ _ as name) =>
          textarea_data rest (<[name := textarea_text ta]> data)
      | _ => textarea_data rest data
      end
  end.

Definition build_form_payload (form : Form) : gmap string string :=
  textarea_data (textareas form)
    (select_data (selects form) (input_data (inputs form) ∅)).

(** What one iteration of each of the three loops assigns: the key and
    the value, or nothing when the iteration ends in [continue]. *)
Definition input_entry (inp : CheckableInput) : option (string * string) :=
  match input_name (as_input inp) with
  | Some (String _ _ as name) =>
      let value := default "" (input_value (as_input inp)) in
      if is_button (itype (as_input inp)) then None
      else if is_toggle (itype (as_input inp)) then
        if has_checked inp
        then Some (name, if bool_decide (value = "") then "1" else value)
        else None
      else Some (name, value)
  | _ => None
  end.

Definition select_entry (sel : SelectField) : option (string * string) :=
  match field_name sel with
  | Some (String _ _ as name) =>
      match current_option (field_options sel) with
      | Some opt => Some (name, submitted_value (as_option opt))
      | None => None
      end
  | _ => None
  end.

Definition textarea_entry (ta : TextareaTag) : option (string * string) :=
  match textarea_name ta with
  | Some (String _ _ as name) => Some (name, textarea_text ta)
  | _ => None
  end.

(** No element of [l] assigns the key [n]. *)
Definition silent_on {A} (entry : A -> option (string * string))
    (n : string) (l : list A) : Prop :=
  forall x v, In x l -> entry x <> Some (n, v).

(** ** The payload [main] posts *)

(** [main] from [build_form_payload(form)] to the call of
    [force_output_format_xml], whose flag it drops. *)
Definition export_payload (form : Form) (year month : Z)
  : gmap string string :=
  let payload := build_form_payload form in
  let '(year_field, month_field) :=
    guess_year_month_field_names (form_view form) in
  let payload := <[year_field := str year]> payload in
  let payload := <[month_field := str month]> payload in
  snd (force_output_format_xml (form_view form) payload).

(** ** [looks_like_xml_export] *)

(** [s[:n]] *)
Fixpoint slice_to (n : nat) (s : string) : string :=
  match n, s with
  | S k, String c r => String c (slice_to k r)
  | _, _ => EmptyString
  end.

Definition markers : list string :=
  ["<?xml"; "<livejournal"; "<lj:livejournal"; "<event"; "<entry"].

(** The number of characters of the body that are searched. *)
Definition head_length : nat := Z.to_nat 5000.

Definition looks_like_xml_export (resp : Response) : bool :=
  let ct := lower (default "" (content_type resp)) in
  let text := lstrip (text resp) in
  if contains "xml" ct then true
  else
    let head := lower (slice_to head_length text) in
    existsb (fun m => contains m head) markers.

(** ** The output file *)

(** The name of the file [main] writes the document to, inside the
    output directory. *)
Definition out_name (journal : string) (year month : Z) : string :=
  "dw_export_" +:+ (if truthy (Some journal) then journal else "default")
  +:+ "_" +:+ format_0d 4 year +:+ "-" +:+ format_0d 2 month +:+ ".xml".

(** ** Sample inputs *)

Definition text_input (name value : string) : CheckableInput :=
  {| as_input := {| input_name := Some name; input_type := Some "text";
                    input_value := Some value |};
     has_checked := false |}.

Definition typed_input (type name value : string) (checked : bool)
  : CheckableInput :=
  {| as_input := {| input_name := Some name; input_type := Some type;
                    input_value := Some value |};
     has_checked := checked |}.

Definition plain_option (v label : string) (selected : bool)
  : SelectableOption :=
  {| as_option := {| option_value := Some v; option_text := label |};
     has_selected := selected |}.

(** A form with one field of every kind. *)
Definition sample_form : Form :=
  {| action := Some "/export_do";
     caption := "Journal Format Notes Proceed";
     inputs :=
       [ text_input "journal" "alice";
         typed_input "checkbox" "comments" "" true;
         typed_input "CheckBox" "minimal" "on" false;
         typed_input "Submit" "go" "Proceed" false;
         typed_input "hidden" "notes" "from the input" false ];
     selects :=
       [ {| field_name := Some "format";
            field_options := [ plain_option "1" "HTML" false;
                               plain_option "2" "XML" true ] |};
         {| field_name := Some "encoding";
            field_options := [ {| as_option := {| option_value := None;
                                                  option_text := "UTF-8" |};
                                  has_selected := false |};
                               plain_option "l1" "Latin-1" false ] |};
         {| field_name := Some "empty"; field_options := [] |} ];
     textareas :=
       [ {| textarea_name := Some "notes"; textarea_text := " first " |};
         {| textarea_name := None; textarea_text := "nameless" |};
         {| textarea_name := Some "notes"; textarea_text := " last " |} ] |}.

(** A text of [n] copies of the character [c]. *)
Fixpoint filler (c : ascii) (n : nat) : string :=
  match n with
  | O => EmptyString
  | S k => String c (filler c k)
  end.

(** An export answered as HTML whose body starts, after white space,
    with an XML declaration in capitals; and a page whose only marker
    comes after [head_length] other characters. *)
Definition shouting_response : Response :=
  {| url := "https://www.dreamwidth.org/export_do"; status_code := 200;
     content_type := Some "text/html; charset=utf-8";
     text := "  " +:+ "<?XML" +:+ " version='1.0'?><livejournal/>" |}.

Definition late_marker_response : Response :=
  {| url := "https://www.dreamwidth.org/export_do"; status_code := 200;
     content_type := Some "text/html; charset=utf-8";
     text := filler "a" head_length +:+ "<?xml version='1.0'?>" |}.

(** A remote end that cannot be reached, and one that fails, then answers
    502, then answers 404. *)
Definition unreachable_remote : nat -> reply :=
  fun _ => RequestException "connection refused".

Definition flaky_remote : nat -> reply :=
  fun n => match n with
           | O => RequestException "timed out"
           | S O => Replied (status_response 502)
           | _ => Replied (status_response 404)
           end.

End Exporter.

(* ===================================================================== *)
(** * dw-downloader.py: [main] from the export page to the saved file *)
(* ===================================================================== *)

Module Pipeline.
Import Text Downloader Exporter.

(** The command-line arguments [main] reads besides the month and the
    cookie sources. *)
Record Options := {
  year : Z;
  journal : string;
  outdir : string;
  debug_dir : string;
  print_snippet : bool
}.

(** What [main] takes from its libraries: the forms of a page as
    [BeautifulSoup(html, "html.parser").find_all("form")] gives them,
    [urllib.parse.urljoin], and [resp.headers.items()]. *)
Record Library := {
  find_all_forms : string -> list Form;
  urljoin : string -> string -> string;
  header_items : Response -> list (string * string)
}.

(** The surroundings of one run: the session and the remote end; the
    files written, by directory and name; the [data] of the POST call;
    the calls of [jitter_sleep]; what was printed. *)
Record Run := {
  world : World;
  files : gmap (string * string) string;
  posted : list (gmap string string);
  jitters : nat;
  printed : list string
}.

Inductive ending :=
| Return (code : Z)
| Raise (e : exn).

Definition set_world (w : World) (run : Run) : Run :=
  {| world := w; files := files run; posted := posted run;
     jitters := jitters run; printed := printed run |}.

(** [jitter_sleep(cfg)], for a configuration whose two delays are
    [sleepable]: the delay slept lies between them. *)
Definition jitter_sleep (run : Run) : Run :=
  {| world := world run; files := files run; posted := posted run;
     jitters := S (jitters run); printed := printed run |}.

(** [(dir / name).write_text(content)] *)
Definition write_text (dir name content : string) (run : Run) : Run :=
  {| world := world run; files := <[(dir, name) := content]> (files run);
     posted := posted run; jitters := jitters run; printed := printed run |}.

Definition with_data (payload : gmap string string) (run : Run) : Run :=
  {| world := world run; files := files run;
     posted := posted run ++ [payload];
     jitters := jitters run; printed := printed run |}.

Definition print (lines : list string) (run : Run) : Run :=
  {| world := world run; files := files run; posted := posted run;
     jitters := jitters run; printed := printed run ++ lines |}.

(** ** [write_debug_artifacts] *)

Definition extension (resp : Response) : string :=
  if contains "xml" (lower (default "" (content_type resp)))
  then "xml" else "html".

Definition body_name (stage : string) (year month : Z) (resp : Response)
  : string :=
  stage +:+ "_" +:+ format_0d 4 year +:+ "-" +:+ format_0d 2 month
  +:+ "_body." +:+ extension resp.

Definition meta_name (stage : string) (year month : Z) : string :=
  stage +:+ "_" +:+ format_0d 4 year +:+ "-" +:+ format_0d 2 month
  +:+ "_meta.txt".

(** [sep.join(lines)] *)
Fixpoint join (sep : string) (lines : list string) : string :=
  match lines with
  | [] => EmptyString
  | [l] => l
  | l :: rest => l +:+ sep +:+ join sep rest
  end.

Definition meta_lines (lib : Library) (stage : string) (resp : Response)
    (request_url : string) : list string :=
  [ "stage: " +:+ stage;
    "request_url: " +:+ request_url;
    "final_url: " +:+ url resp;
    "status_code: " +:+ str (status_code resp);
    "content_type: " +:+ default "" (content_type resp);
    "---- response headers ----" ]
  ++ map (fun kv => fst kv +:+ ": " +:+ snd kv) (header_items lib resp).

Definition write_debug_artifacts (lib : Library) (debug_dir : string)
    (year month : Z) (stage : string) (resp : Response)
    (request_url : string) (run : Run) : Run :=
  let run := write_text debug_dir (body_name stage year month resp)
               (text resp) run in
  write_text debug_dir (meta_name stage year month)
    (join (String "010" EmptyString) (meta_lines lib stage resp request_url))
    run.

(** ** [main] *)

(** [choose_export_form] on the forms with all their fields. *)
Definition is_export_form (f : Form) : bool :=
  year_month_select (form_view f) || export_text (form_view f).

Definition chosen_form (forms : list Form) : exn + Form :=
  match forms with
  | [] => inl (RuntimeError
                 "No <form> found on /export page. Are you logged in?")
  | first :: _ =>
      match List.find is_export_form forms with
      | Some f => inr f
      | None => inr first
      end
  end.

Definition base : string := "https://www.dreamwidth.org".

Definition export_url (opts : Options) : string :=
  base +:+ "/export"
  +:+ (if truthy (Some (journal opts)) then "?journal=" +:+ journal opts
       else "").

(** [s.lstrip("/")] *)
Fixpoint lstrip_slashes (s : string) : string :=
  match s with
  | String c r => if Ascii.eqb c "/" then lstrip_slashes r else s
  | EmptyString => EmptyString
  end.

(** [urljoin(base + "/", action.lstrip("/"))] *)
Definition post_url (lib : Library) (form : Form) : string :=
  urljoin lib (base +:+ "/") (lstrip_slashes (default "/export" (action form))).

Definition snippet (pr : Response) : list string :=
  [ String "010" "--- response snippet (first 2000 chars) ---" +:+ String "010" "";
    slice_to (Z.to_nat 2000) (text pr);
    String "010" "--- end snippet ---" +:+ String "010" "" ].

(** [main] after the session has its cookies, for the month [month]. *)
Definition export (lib : Library) (cfg : RateLimitConfig) (month : Z)
    (opts : Options) (run : Run) : ending * Run :=
  let debug stage resp request_url run :=
    write_debug_artifacts lib (debug_dir opts) (year opts) month stage resp
      request_url run in
  match request_with_retries "GET" (export_url opts) cfg (world run) with
  | (inl e, w) => (Raise e, set_world w run)
  | (inr r, w) =>
      let run := jitter_sleep (set_world w run) in
      if login_redirect r then
        (Return 3, debug "get_export_redirect" r (export_url opts) run)
      else if negb (status_code r =? 200) then
        (Return 3, debug "get_export_badstatus" r (export_url opts) run)
      else
        match chosen_form (find_all_forms lib (text r)) with
        | inl e =>
            (Raise e, debug "get_export_parsefail" r (export_url opts) run)
        | inr form =>
            let payload := export_payload form (year opts) month in
            let run := with_data payload run in
            match request_with_retries "POST" (post_url lib form) cfg
                    (world run) with
            | (inl e, w) => (Raise e, set_world w run)
            | (inr pr, w) =>
                let run := jitter_sleep (set_world w run) in
                if negb (looks_like_xml_export pr) then
                  let run := debug "post_export_notxml" pr
                               (post_url lib form) run in
                  (Return 4,
                   if print_snippet opts then print (snippet pr) run else run)
                else
                  (Return 0,
                   write_text (outdir opts)
                     (out_name (journal opts) (year opts) month) (text pr)
                     run)
            end
        end
  end.

(** [main], once [configure_logging] has accepted the log level. *)
Definition main (files_on_disk : string -> option (list string))
    (lib : Library) (args : Args) (opts : Options) (run : Run)
  : ending * Run :=
  match bootstrap files_on_disk args with
  | Exit code => (Return code, run)
  | Raised e => (Raise e, run)
  | Session _ => export lib default_config (month args) opts run
  end.

(** The names [write_debug_artifacts] can give a file in a run for
    [year] and [month]. *)
Definition stages : list string :=
  ["get_export_redirect"; "get_export_badstatus"; "get_export_parsefail";
   "post_export_notxml"].

Definition debug_names (year month : Z) : list string :=
  flat_map (fun stage =>
              [ stage +:+ "_" +:+ format_0d 4 year +:+ "-"
                +:+ format_0d 2 month +:+ "_body.xml";
                stage +:+ "_" +:+ format_0d 4 year +:+ "-"
                +:+ format_0d 2 month +:+ "_body.html";
                meta_name stage year month ]) stages.

(** ** Sample inputs *)

Definition sample_options : Options :=
  {| year := 2006; journal := ""; outdir := "dw_exports";
     debug_dir := "dw_debug"; print_snippet := false |}.

Definition fresh_run (remote : nat -> reply) : Run :=
  {| world := fresh_world remote; files := ∅; posted := []; jitters := 0;
     printed := [] |}.

(** A library that finds the sample form on every page. *)
Definition sample_library : Library :=
  {| find_all_forms := fun _ => [sample_form];
     urljoin := fun b r => b +:+ r;
     header_items := fun _ => [("Content-Type", "text/html")] |}.

Definition export_document : Response :=
  {| url := "https://www.dreamwidth.org/export_do"; status_code := 200;
     content_type := Some "text/xml; charset=utf-8";
     text := "<?xml version='1.0'?><livejournal></livejournal>" |}.

(** A remote end that serves the export page, then the document. *)
Definition obliging_remote : nat -> reply :=
  fun n => match n with
           | O => Replied (status_response 200)
           | _ => Replied export_document
           end.

Definition login_remote : nat -> reply :=
  fun _ => Replied {| url := "https://www.dreamwidth.org/login?ret=1";
                      status_code := 200;
                      content_type := Some "text/html"; text := "" |}.

End Pipeline.

(* ===================================================================== *)
(** * dw-batch-export.py: what a run leaves behind *)
(* ===================================================================== *)

Module Ledger.
Import Text Batch.

(** The name of the file [main] tests before it launches the exporter,
    inside the output directory. *)
Definition outfile_name (journal : string) (year month : Z) : string :=
  "dw_export_" +:+ (if truthy (Some journal) then journal else "default")
  +:+ "_" +:+ format_0d 4 year +:+ "-" +:+ format_0d 2 month +:+ ".xml".

(** The line a failed month adds to the failure log. *)
Definition line_of (env : Env) (ym : Z * Z) : string :=
  failure_line (fst ym) (snd ym) (utcnow env ym)
    (Some (returncode (run env ym))).

Fixpoint concat_lines (lines : list string) : string :=
  match lines with
  | [] => EmptyString
  | l :: rest => l +:+ concat_lines rest
  end.

(** The counter of consecutive failures after one more export. *)
Definition tally (env : Env) (n : Z) (ym : Z * Z) : Z :=
  if succeeded (run env ym) then 0 else n + 1.

(** The months of a list whose export fails. *)
Definition failed (env : Env) (months : list (Z * Z)) : list (Z * Z) :=
  List.filter (fun ym => negb (succeeded (run env ym))) months.

(** The failures at the end of a list of outcomes ([true] is a success),
    counted back to the last success. *)
Fixpoint trailing_failures_rev (newest_first : list bool) : nat :=
  match newest_first with
  | false :: older => S (trailing_failures_rev older)
  | _ => O
  end.

Definition trailing_failures (outcomes : list bool) : nat :=
  trailing_failures_rev (rev outcomes).

(** A trace in which a skip stands alone and every launch of the exporter
    is followed at once by one pause: with the normal bounds after a
    success, with the grumpy bounds after a failure. *)
Fixpoint paced (args : Args) (env : Env) (t : list event) : bool :=
  match t with
  | [] => true
  | Skipping _ :: rest => paced args env rest
  | Exporting ym :: Pause lo hi _ :: rest =>
      (if succeeded (run env ym)
       then (lo =? normal_pause_min args) && (hi =? normal_pause_max args)
       else (lo =? grumpy_pause_min args) && (hi =? grumpy_pause_max args))
      && paced args env rest
  | _ => false
  end.

End Ledger.

(* ===================================================================== *)
(** * Facts about the text primitives *)
(* ===================================================================== *)

Module TextFacts.
Import Text.

Lemma startswith_spec p s :
  startswith p s = true <-> exists post, s = p +:+ post.
Proof.
  revert s. induction p as [|a p IH]; intros s; simpl.
  - split; [intros _; now exists s | reflexivity].
  - destruct s as [|b s].
    + split; [discriminate | intros [post H]; discriminate].
    + rewrite andb_true_iff, Ascii.eqb_eq, IH. split.
      * intros [-> [post ->]]. now exists post.
      * intros [post H]. injection H as -> ->. split; [reflexivity | now exists post].
Qed.

(** [needle in hay] holds exactly when [hay] is some text, then [needle],
    then some text. *)
Lemma contains_spec needle hay :
  contains needle hay = true <->
  exists pre post, hay = pre +:+ needle +:+ post.
Proof.
  induction hay as [|c r IH].
  - simpl. rewrite orb_false_r, startswith_spec. split.
    + intros [post H]. now exists EmptyString, post.
    + intros [[|a pre] [post H]]; [now exists post | discriminate].
  - simpl. rewrite orb_true_iff, startswith_spec, IH. split.
    + intros [[post H] | [pre [post H]]].
      * now exists EmptyString, post.
      * exists (String c pre), post. simpl. now rewrite H.
    + intros [[|a pre] [post H]].
      * left. now exists post.
      * right. simpl in H. injection H as -> ->. now exists pre, post.
Qed.

Lemma contains_false needle hay :
  contains needle hay = false <->
  ~ exists pre post, hay = pre +:+ needle +:+ post.
Proof.
  rewrite <- contains_spec. destruct (contains needle hay); split; intros H;
    (reflexivity || discriminate || congruence || (exfalso; now apply H)).
Qed.

End TextFacts.

(* ===================================================================== *)
(** * Properties of the exporter *)
(* ===================================================================== *)

Module DownloaderSpec.
Import Text TextFacts Downloader.

(** ** Response classification *)

(** C4, as the design document words it, does not hold: a final URL with
    the return-to-export marker and no "login" in it is classified as not
    authenticated. *)
Lemma returnto_marker_is_not_authenticated :
  is_authenticated returnto_response = false /\
  contains "login" (lower (url returnto_response)) = false.
Proof. split; vm_compute; reflexivity. Qed.

(** C4 (amended): a response is classified as not authenticated exactly
    when its final URL contains the marker "returnto=/export" (as written)
    or contains "login" in any letter case; it is classified as
    authenticated otherwise; and the status code, the content type and the
    body play no part. *)
Theorem is_authenticated_spec :
  forall r : Response,
    (is_authenticated r = false <->
       occurs_in "returnto=/export" (url r)
       \/ occurs_in "login" (lower (url r))) /\
    (is_authenticated r = true <->
       ~ occurs_in "returnto=/export" (url r)
       /\ ~ occurs_in "login" (lower (url r))) /\
    (forall code ct body,
       is_authenticated
         {| url := url r; status_code := code; content_type := ct;
            text := body |}
       = is_authenticated r).
Proof.
  intros r. unfold is_authenticated, login_redirect, occurs_in.
  repeat split.
  - intros H. apply negb_false_iff, orb_true_iff in H.
    now rewrite !contains_spec in H.
  - intros H. apply negb_false_iff, orb_true_iff.
    now rewrite !contains_spec.
  - apply negb_true_iff, orb_false_iff in H. destruct H as [H _].
    now apply contains_false in H.
  - apply negb_true_iff, orb_false_iff in H. destruct H as [_ H].
    now apply contains_false in H.
  - intros [H1 H2]. apply negb_true_iff, orb_false_iff.
    now rewrite !contains_false.
Qed.

(** ** Session bootstrap *)

(** C5, as worded, does not hold: with both cookie sources supplied the
    run does not stop with a configuration error; it takes its cookies
    from the file. *)
Lemma both_sources_is_accepted :
  truthy (cookie_file both_sources) = true /\
  truthy (cookie_header both_sources) = true /\
  bootstrap one_cookie_file both_sources
  = Session {[ "ljmastersession" := "v1:u1:s2" ]}.
Proof. repeat split; vm_compute; reflexivity. Qed.

(** C5 (amended): for a month in 1..12, the run stops with the
    configuration error (exit code 2) exactly when neither cookie source
    is supplied.  When the cookie file is supplied the cookies are loaded
    from it, whatever the header argument is; when only the header is
    supplied the cookies are parsed from it. *)
Theorem bootstrap_cookie_sources :
  forall (files : string -> option (list string)) (args : Args),
    1 <= month args <= 12 ->
    (bootstrap files args = Exit 2 <->
       truthy (cookie_file args) = false
       /\ truthy (cookie_header args) = false) /\
    (forall path, cookie_file args = Some path -> truthy (Some path) = true ->
       bootstrap files args
       = match load_netscape_cookie_file files path with
         | inl e => Raised e
         | inr cookies => Session cookies
         end) /\
    (forall header, truthy (cookie_file args) = false ->
       cookie_header args = Some header -> truthy (Some header) = true ->
       bootstrap files args = Session (parse_cookie_header header)).
Proof.
  intros files args Hm. unfold bootstrap.
  replace ((1 <=? month args) && (month args <=? 12)) with true
    by (symmetry; apply andb_true_iff; split; apply Z.leb_le; lia).
  simpl. repeat split.
  - destruct (truthy (cookie_file args)); [|reflexivity].
    simpl in H. now destruct (load_netscape_cookie_file _ _).
  - destruct (truthy (cookie_file args)) eqn:Hf.
    + simpl in H. now destruct (load_netscape_cookie_file _ _).
    + now destruct (truthy (cookie_header args)).
  - intros [-> ->]. reflexivity.
  - intros path -> Hp. destruct path; [discriminate | reflexivity].
  - intros header Hf -> Hh. rewrite Hf.
    destruct header; [discriminate | reflexivity].
Qed.

Lemma bootstrap_cookie_sources_witness :
  1 <= month both_sources <= 12 /\
  bootstrap one_cookie_file both_sources
  = match load_netscape_cookie_file one_cookie_file "cookies.txt" with
    | inl e => Raised e
    | inr cookies => Session cookies
    end.
Proof.
  assert (H : 1 <= month both_sources <= 12) by (simpl; lia).
  split; [exact H|].
  apply (proj1 (proj2 (bootstrap_cookie_sources one_cookie_file both_sources H)));
    reflexivity.
Defined.

(** ** The form locator *)

Lemma scan_forms_first pre f post :
  (forall g, In g pre -> year_month_select g = false /\ export_text g = false) ->
  year_month_select f = true \/ export_text f = true ->
  scan_forms (pre ++ f :: post) = Some f.
Proof.
  intros Hpre Hf. induction pre as [|g pre IH]; simpl.
  - destruct (year_month_select f); [reflexivity|].
    destruct Hf as [Hf|Hf]; [discriminate | now rewrite Hf].
  - destruct (Hpre g (or_introl eq_refl)) as [-> ->].
    apply IH. intros h Hh. apply Hpre. now right.
Qed.

Lemma scan_forms_none forms :
  (forall g, In g forms ->
     year_month_select g = false /\ export_text g = false) ->
  scan_forms forms = None.
Proof.
  induction forms as [|g forms IH]; intros H; simpl; [reflexivity|].
  destruct (H g (or_introl eq_refl)) as [-> ->].
  apply IH. intros h Hh. apply H. now right.
Qed.

Lemma scan_forms_without_selects forms :
  (forall g, In g forms -> year_month_select g = false) ->
  scan_forms forms = List.find export_text forms
  /\ List.find year_month_select forms = None.
Proof.
  induction forms as [|g forms IH]; intros H; simpl; [now split|].
  rewrite (H g (or_introl eq_refl)).
  destruct (export_text g); [split; [reflexivity|]|];
    apply IH; intros h Hh; apply H; now right.
Qed.

(** C2, as worded, does not hold: on a page whose first form only mentions
    "export" and whose second form holds the year and month selects, the
    three-tier order picks the second form and the code picks the first. *)
Lemma export_text_beats_later_select :
  year_month_select nav_form = false /\
  year_month_select export_form = true /\
  three_tier_choice export_page = Some export_form /\
  choose_export_form export_page = inr nav_form.
Proof. repeat split; vm_compute; reflexivity. Qed.

(** C2 (amended): on a document with at least one form the locator makes
    one pass in document order and returns the first form that either
    contains a select named year or month, or whose text contains "export"
    in any letter case; only if no form does either, it returns the first
    form.  On a document in which no form has a year or month select this
    is the order (b), (c) of the design document; a document without a
    form is an error. *)
Theorem choose_export_form_first_match :
  forall forms : list FormTag,
    (forms = [] -> exists msg, choose_export_form forms = inl (RuntimeError msg)) /\
    (forall pre f post,
       forms = (pre ++ f :: post)%list ->
       (forall g, In g pre ->
          year_month_select g = false /\ export_text g = false) ->
       year_month_select f = true \/ export_text f = true ->
       choose_export_form forms = inr f) /\
    (forall first rest,
       forms = first :: rest ->
       (forall g, In g forms ->
          year_month_select g = false /\ export_text g = false) ->
       choose_export_form forms = inr first) /\
    (forall f,
       (forall g, In g forms -> year_month_select g = false) ->
       (choose_export_form forms = inr f <-> three_tier_choice forms = Some f)).
Proof.
  intros forms. repeat split.
  - intros ->. now eexists.
  - intros pre f post -> Hpre Hf. unfold choose_export_form.
    rewrite (scan_forms_first pre f post Hpre Hf). now destruct pre.
  - intros first rest -> H. unfold choose_export_form.
    now rewrite (scan_forms_none _ H).
  - destruct (scan_forms_without_selects forms H) as [Hs Hy].
    unfold choose_export_form, three_tier_choice. rewrite Hy, Hs.
    destruct forms as [|first rest]; [discriminate|].
    destruct (List.find export_text (first :: rest)); simpl; congruence.
  - destruct (scan_forms_without_selects forms H) as [Hs Hy].
    unfold choose_export_form, three_tier_choice. rewrite Hy, Hs.
    destruct forms as [|first rest]; [discriminate|].
    destruct (List.find export_text (first :: rest)); simpl; congruence.
Qed.

Lemma choose_export_form_first_match_witness :
  choose_export_form export_page = inr nav_form.
Proof.
  apply (proj1 (proj2 (choose_export_form_first_match export_page))
           [] nav_form [export_form]).
  - reflexivity.
  - intros g [].
  - right. vm_compute. reflexivity.
Defined.

(** ** The retrying transport *)

Lemma range_cons lo hi : lo < hi -> range lo hi = lo :: range (lo + 1) hi.
Proof.
  intros H. unfold range.
  replace (Z.to_nat (hi - lo)) with (S (Z.to_nat (hi - (lo + 1)))) by lia.
  simpl. f_equal; [lia|].
  rewrite <- seq_shift, map_map. apply map_ext. intros i. lia.
Qed.

Lemma range_length lo hi : length (range lo hi) = Z.to_nat (hi - lo).
Proof. unfold range. now rewrite length_map, length_seq. Qed.

(** Against a remote end that answers 503 every time, each attempt of the
    list is made and followed by its back-off, and the loop runs off its
    end. *)
Lemma attempts_all_503 method target todo :
  forall w,
    (forall n, exists r, remote w n = Replied r /\ status_code r = 503) ->
    attempts method target todo w =
    (None,
     {| remote := remote w; sent := (sent w + length todo)%nat;
        trace := trace w ++
                 flat_map (fun a => [Requested method target; Backoff a])
                   todo |}).
Proof.
  induction todo as [|a todo IH]; intros w H; simpl.
  - rewrite Nat.add_0_r, app_nil_r. now destruct w.
  - destruct (H (sent w)) as (r & -> & ->). simpl.
    rewrite IH by exact H. simpl. f_equal. f_equal.
    + lia.
    + now rewrite <- !app_assoc.
Qed.

(** The back-offs of the default configuration can be slept: the
    longest is 1.6 to the power 6, plus 0.4. *)
Lemma default_config_backs_off : backs_off default_config 6.
Proof.
  intros attempt H.
  assert (Hcases : attempt = 1 \/ attempt = 2 \/ attempt = 3
                   \/ attempt = 4 \/ attempt = 5 \/ attempt = 6) by lia.
  destruct Hcases as [->|[->|[->|[->|[->| ->]]]]];
    (split; split; apply Qle_bool_imp_le; vm_compute; reflexivity).
Qed.

Lemma backs_off_fewer cfg n m : m <= n -> backs_off cfg n -> backs_off cfg m.
Proof. intros Hle H attempt Ha. apply H. lia. Qed.

Lemma default_config_delays :
  sleepable (min_delay_s default_config)
  /\ sleepable (max_delay_s default_config).
Proof. split; split; apply Qle_bool_imp_le; vm_compute; reflexivity. Qed.

(** C3: with [max_retries >= 3] and back-off delays that can be slept,
    against a remote end that answers 503 on every attempt the transport
    sends exactly [max_retries] requests, each followed by its back-off,
    and then fails with the error whose message names the method and the
    URL; against a remote end that answers 503 twice and then 200 it sends
    three requests and returns the third response. *)
Theorem request_with_retries_bounded :
  forall (cfg : RateLimitConfig) (method target : string) (w : World),
    3 <= max_retries cfg ->
    backs_off cfg (max_retries cfg) ->
    ((forall n, exists r, remote w n = Replied r /\ status_code r = 503) ->
     exists w',
       request_with_retries method target cfg w
       = (inl (RuntimeError
                 ("Failed after " +:+ str (max_retries cfg) +:+ " attempts: "
                  +:+ method +:+ " " +:+ target)), w')
       /\ sent w' = (sent w + Z.to_nat (max_retries cfg))%nat
       /\ trace w' =
          (trace w ++
           flat_map (fun a => [Requested method target; Backoff a])
             (range 1 (max_retries cfg + 1)))%list) /\
    (forall r1 r2 r3,
       remote w (sent w) = Replied r1 -> status_code r1 = 503 ->
       remote w (S (sent w)) = Replied r2 -> status_code r2 = 503 ->
       remote w (S (S (sent w))) = Replied r3 -> status_code r3 = 200 ->
       exists w',
         request_with_retries method target cfg w = (inr r3, w')
         /\ sent w' = (sent w + 3)%nat
         /\ trace w' =
            (trace w ++
             [Requested method target; Backoff 1;
              Requested method target; Backoff 2;
              Requested method target])%list).
Proof.
  intros cfg method target w Hmax _. split.
  - intros Hbusy. unfold request_with_retries.
    rewrite (attempts_all_503 method target _ w Hbusy).
    eexists. split; [reflexivity|]. simpl. split; [|reflexivity].
    rewrite range_length. f_equal. lia.
  - intros r1 r2 r3 H1 S1 H2 S2 H3 S3. unfold request_with_retries.
    rewrite (range_cons 1) by lia. rewrite (range_cons (1 + 1)) by lia.
    rewrite (range_cons (1 + 1 + 1)) by lia.
    simpl. rewrite H1, S1. simpl. rewrite H2, S2. simpl. rewrite H3, S3. simpl.
    eexists. split; [reflexivity|]. simpl. split; [lia|].
    now rewrite <- !app_assoc.
Qed.

Lemma request_with_retries_bounded_witness :
  3 <= max_retries default_config /\
  backs_off default_config (max_retries default_config) /\
  fst (request_with_retries "GET" "https://www.dreamwidth.org/export"
         default_config (fresh_world busy_remote))
  = inl (RuntimeError
           "Failed after 6 attempts: GET https://www.dreamwidth.org/export") /\
  fst (request_with_retries "GET" "https://www.dreamwidth.org/export"
         default_config (fresh_world recovering_remote))
  = inr (status_response 200).
Proof.
  assert (H : 3 <= max_retries default_config) by (simpl; lia).
  split; [exact H|]. split; [exact default_config_backs_off|].
  destruct (request_with_retries_bounded default_config "GET"
              "https://www.dreamwidth.org/export" (fresh_world busy_remote) H
              default_config_backs_off)
    as [Hbusy _].
  destruct (request_with_retries_bounded default_config "GET"
              "https://www.dreamwidth.org/export"
              (fresh_world recovering_remote) H default_config_backs_off)
    as [_ Hrec].
  split.
  - destruct Hbusy as (w' & -> & _); [|reflexivity].
    intros n. exists (status_response 503). now split.
  - destruct (Hrec (status_response 503) (status_response 503)
                (status_response 200)) as (w' & -> & _); reflexivity.
Defined.

(** ** Field-name inference *)

Lemma guess_loop_year_kept sels :
  forall yf mf,
    (forall s, In s sels -> names_year s = false) ->
    fst (guess_loop sels yf mf) = yf.
Proof.
  induction sels as [|a sels IH]; intros yf mf H; simpl; [reflexivity|].
  assert (Ha := H a (or_introl eq_refl)). unfold names_year in Ha.
  assert (Hs : forall s, In s sels -> names_year s = false)
    by (intros s Hs; apply H; now right).
  destruct (select_name a) as [[|c n]|]; simpl in Ha; try now apply IH.
  rewrite Ha. now apply IH.
Qed.

Lemma guess_loop_month_kept sels :
  forall yf mf,
    (forall s, In s sels -> names_month s = false) ->
    snd (guess_loop sels yf mf) = mf.
Proof.
  induction sels as [|a sels IH]; intros yf mf H; simpl; [reflexivity|].
  assert (Ha := H a (or_introl eq_refl)). unfold names_month in Ha.
  assert (Hs : forall s, In s sels -> names_month s = false)
    by (intros s Hs; apply H; now right).
  destruct (select_name a) as [[|c n]|]; simpl in Ha; try now apply IH.
  rewrite Ha. now apply IH.
Qed.

Lemma guess_loop_last_year pre s post name :
  forall yf mf,
    select_name s = Some name -> name <> "" ->
    5 <= yearish (map option_text (select_options s)) ->
    (forall s', In s' post -> names_year s' = false) ->
    fst (guess_loop (pre ++ s :: post) yf mf) = name.
Proof.
  intros yf mf Hn Hne Hy Hpost. revert yf mf.
  induction pre as [|a pre IH]; intros yf mf; simpl.
  - rewrite Hn. destruct name as [|c n]; [congruence|].
    apply Z.leb_le in Hy. rewrite Hy. now apply guess_loop_year_kept.
  - destruct (select_name a) as [[|c n]|]; apply IH.
Qed.

Lemma guess_loop_last_month pre s post name :
  forall yf mf,
    select_name s = Some name -> name <> "" ->
    5 <= monthish (map option_text (select_options s)) ->
    (forall s', In s' post -> names_month s' = false) ->
    snd (guess_loop (pre ++ s :: post) yf mf) = name.
Proof.
  intros yf mf Hn Hne Hy Hpost. revert yf mf.
  induction pre as [|a pre IH]; intros yf mf; simpl.
  - rewrite Hn. destruct name as [|c n]; [congruence|].
    apply Z.leb_le in Hy. rewrite Hy. now apply guess_loop_month_kept.
  - destruct (select_name a) as [[|c n]|]; apply IH.
Qed.

(** The inference in terms of the counts it makes. *)
Lemma guess_by_counts :
  forall (form : FormTag) (pre : list SelectTag) (s : SelectTag)
         (post : list SelectTag) (name : string),
    form_selects form = (pre ++ s :: post)%list ->
    select_name s = Some name -> name <> "" ->
    (5 <= yearish (map option_text (select_options s)) ->
     (forall s', In s' post -> names_year s' = false) ->
     fst (guess_year_month_field_names form) = name) /\
    (5 <= monthish (map option_text (select_options s)) ->
     (forall s', In s' post -> names_month s' = false) ->
     snd (guess_year_month_field_names form) = name) /\
    (5 <= yearish (map option_text (select_options s)) ->
     5 <= monthish (map option_text (select_options s)) ->
     (forall s', In s' post -> names_year s' = false /\ names_month s' = false) ->
     guess_year_month_field_names form = (name, name)).
Proof.
  intros form pre s post name Hsel Hn Hne.
  unfold guess_year_month_field_names. rewrite Hsel.
  split; [|split].
  - intros Hy Hpost. now apply guess_loop_last_year.
  - intros Hm Hpost. now apply guess_loop_last_month.
  - intros Hy Hm Hpost.
    rewrite (surjective_pairing (guess_loop _ _ _)). f_equal.
    + apply guess_loop_last_year; try assumption.
      intros s' Hs'. now apply Hpost.
    + apply guess_loop_last_month; try assumption.
      intros s' Hs'. now apply Hpost.
Qed.

(** The tests of the inference on plain labels. *)
Lemma forall_chars_spec P s :
  forall_chars P s = true <->
  forall c, In c (list_ascii_of_string s) -> P c = true.
Proof.
  induction s as [|a s IH]; simpl.
  - split; [intros _ c [] | reflexivity].
  - rewrite andb_true_iff, IH. split.
    + intros [Ha Hs] c [<-|Hc]; [exact Ha | now apply Hs].
    + intros H. split; [apply H; now left | intros c Hc; apply H; now right].
Qed.

Lemma is_digit_spec c : is_digit c = true <-> decimal c.
Proof.
  unfold is_digit, decimal.
  rewrite andb_true_iff, !Nat.leb_le. reflexivity.
Qed.

Lemma isdigit_char_plain c :
  ~ In (nat_of_ascii c) [178; 179; 185]%nat -> isdigit_char c = is_digit c.
Proof.
  intros H. unfold isdigit_char, is_digit.
  destruct (Nat.eqb_spec (nat_of_ascii c) 178) as [E|_];
    [exfalso; apply H; rewrite E; now left|].
  destruct (Nat.eqb_spec (nat_of_ascii c) 179) as [E|_];
    [exfalso; apply H; rewrite E; right; now left|].
  destruct (Nat.eqb_spec (nat_of_ascii c) 185) as [E|_];
    [exfalso; apply H; rewrite E; right; right; now left|].
  now rewrite !orb_false_r.
Qed.

Lemma isdigit_plain o :
  plain_label o ->
  isdigit o = true <->
  o <> "" /\ forall c, In c (list_ascii_of_string o) -> decimal c.
Proof.
  intros [_ Hplain]. unfold isdigit. destruct o as [|a o].
  - split; [discriminate | intros [H _]; now contradiction H].
  - rewrite forall_chars_spec. split.
    + intros H. split; [discriminate|]. intros c Hc.
      apply is_digit_spec. rewrite <- isdigit_char_plain by now apply Hplain.
      now apply H.
    + intros [_ H] c Hc.
      rewrite isdigit_char_plain by now apply Hplain.
      now apply is_digit_spec, H.
Qed.

Lemma four_digits_spec o :
  plain_label o ->
  isdigit o && (String.length o =? 4)%nat = true <-> four_digits o.
Proof.
  intros Hplain. rewrite andb_true_iff, (isdigit_plain o Hplain), Nat.eqb_eq.
  unfold four_digits. split.
  - intros [[_ Hd] Hlen].
    destruct o as [|a [|b [|c [|d [|e o]]]]]; try discriminate.
    exists a, b, c, d. split; [reflexivity|].
    repeat split; apply Hd; simpl; tauto.
  - intros (a & b & c & d & -> & Ha & Hb & Hc & Hd).
    split; [|reflexivity]. split; [discriminate|].
    intros x [<-|[<-|[<-|[<-|[]]]]]; assumption.
Qed.

Lemma month_numeral_spec o :
  plain_label o -> month_numeral o = true <-> month_number o.
Proof.
  intros Hplain. unfold month_numeral, month_number.
  rewrite andb_true_iff, (isdigit_plain o Hplain). split.
  - intros [[Hne Hd] Hn]. split; [exact Hne|]. split; [exact Hd|].
    destruct (int o) as [n|]; [|discriminate].
    exists n. split; [reflexivity|]. lia.
  - intros (Hne & Hd & n & -> & Hn). split; [now split|]. lia.
Qed.

(** Where the hypothesis is needed: each superscript digit passes
    [isdigit], and [int] has no value for it, nor is the label plain. *)
Example superscript_digit_is_not_plain :
  forall n, In n [178; 179; 185]%nat ->
    let o := String (ascii_of_nat n) EmptyString in
    isdigit o = true /\ int o = None /\ ~ plain_label o.
Proof.
  intros n [<-|[<-|[<-|[]]]]; (split; [reflexivity|]; split; [reflexivity|]);
    intros [_ H]; apply (H _ (or_introl eq_refl)); simpl; tauto.
Qed.

(** Counting with a test, and picking out that many items. *)
Lemma filter_sublist (f : string -> bool) l : sublist (List.filter f l) l.
Proof.
  induction l as [|x l IH]; simpl; [constructor|].
  destruct (f x); now constructor.
Qed.

Lemma sublist_In (l1 l2 : list string) :
  sublist l1 l2 -> forall x, In x l1 -> In x l2.
Proof.
  induction 1 as [|y l1 l2 Hsub IH|y l1 l2 Hsub IH]; intros x Hx.
  - exact Hx.
  - destruct Hx as [<-|Hx]; [now left | right; now apply IH].
  - right. now apply IH.
Qed.

Lemma count_at_least (f : string -> bool) (P : string -> Prop) l n :
  (forall x, In x l -> f x = true <-> P x) ->
  (n <= length (List.filter f l))%nat <-> at_least n P l.
Proof.
  intros Hf. split.
  - intros Hn. exists (take n (List.filter f l)). split; [|split].
    + etransitivity; [apply sublist_take | apply filter_sublist].
    + rewrite length_take. lia.
    + apply List.Forall_forall. intros x Hx.
      assert (Hin : In x (List.filter f l))
        by (apply (sublist_In _ _ (sublist_take _ n)), Hx).
      apply filter_In in Hin. destruct Hin as [Hin Hfx].
      now apply Hf.
  - intros (picked & Hsub & <- & HP).
    induction Hsub as [|x l1 l2 Hsub IH|x l1 l2 Hsub IH]; simpl.
    + lia.
    + apply Forall_cons in HP. destruct HP as [Hx HP].
      assert (Hfx : f x = true) by (apply Hf; [now left | exact Hx]).
      rewrite Hfx. simpl.
      apply le_n_S, IH; [|exact HP].
      intros y Hy. apply Hf. now right.
    + assert (Hle : (length l1 <= length (List.filter f l2))%nat).
      { apply IH; [|exact HP]. intros y Hy. apply Hf. now right. }
      destruct (f x); simpl; lia.
Qed.

Lemma yearish_spec opts :
  (forall o, In o opts -> plain_label o) ->
  5 <= yearish opts <-> at_least 5 four_digits opts.
Proof.
  intros Hplain. unfold yearish.
  rewrite <- (count_at_least
                (fun o => isdigit o && (String.length o =? 4)%nat)
                four_digits opts 5).
  - lia.
  - intros o Ho. now apply four_digits_spec, Hplain.
Qed.

Lemma monthish_spec opts :
  (forall o, In o opts -> plain_label o) ->
  5 <= monthish opts <-> at_least 5 month_number opts.
Proof.
  intros Hplain.
  assert (Hcount :
    monthish opts = Z.of_nat (length (List.filter month_numeral opts)))
    by now destruct opts.
  rewrite Hcount, <- (count_at_least month_numeral month_number opts 5).
  - lia.
  - intros o Ho. now apply month_numeral_spec, Hplain.
Qed.

Lemma plain_select_labels form s name :
  plain_labels form -> In s (form_selects form) ->
  select_name s = Some name -> name <> "" ->
  forall o, In o (map option_text (select_options s)) -> plain_label o.
Proof.
  intros Hplain Hs Hn Hne o Ho.
  apply in_map_iff in Ho. destruct Ho as (t & <- & Ht).
  now apply (Hplain s name t).
Qed.

Lemma names_year_false form s :
  plain_labels form -> In s (form_selects form) ->
  (forall name, select_name s = Some name -> name <> "" -> ~ lists_years s) ->
  names_year s = false.
Proof.
  intros Hplain Hs Hno. unfold names_year.
  destruct (select_name s) as [[|c n]|] eqn:Hn; try reflexivity.
  simpl. apply Z.leb_gt. apply Z.nle_gt. intros Hge.
  apply (Hno (String c n) eq_refl); [discriminate|].
  apply yearish_spec; [|exact Hge].
  now apply (plain_select_labels form s (String c n)).
Qed.

Lemma names_month_false form s :
  plain_labels form -> In s (form_selects form) ->
  (forall name, select_name s = Some name -> name <> "" -> ~ lists_months s) ->
  names_month s = false.
Proof.
  intros Hplain Hs Hno. unfold names_month.
  destruct (select_name s) as [[|c n]|] eqn:Hn; try reflexivity.
  simpl. apply Z.leb_gt. apply Z.nle_gt. intros Hge.
  apply (Hno (String c n) eq_refl); [discriminate|].
  apply monthish_spec; [|exact Hge].
  now apply (plain_select_labels form s (String c n)).
Qed.

(** C10: on a form whose option labels are plain, a named select with at
    least five 4-digit options names the year field when no named select
    after it in the form has five such options, whatever selects come
    before it; likewise for the month field with at least five options
    that are numerals for 1 to 12; and a select that meets both
    thresholds, with no later qualifier for either role, names both
    fields. *)
Theorem guess_last_qualifying_select :
  forall (form : FormTag) (pre : list SelectTag) (s : SelectTag)
         (post : list SelectTag) (name : string),
    plain_labels form ->
    form_selects form = (pre ++ s :: post)%list ->
    select_name s = Some name -> name <> "" ->
    (lists_years s ->
     (forall s' n, In s' post -> select_name s' = Some n -> n <> "" ->
                   ~ lists_years s') ->
     fst (guess_year_month_field_names form) = name) /\
    (lists_months s ->
     (forall s' n, In s' post -> select_name s' = Some n -> n <> "" ->
                   ~ lists_months s') ->
     snd (guess_year_month_field_names form) = name) /\
    (lists_years s -> lists_months s ->
     (forall s' n, In s' post -> select_name s' = Some n -> n <> "" ->
                   ~ lists_years s' /\ ~ lists_months s') ->
     guess_year_month_field_names form = (name, name)).
Proof.
  intros form pre s post name Hplain Hsel Hn Hne.
  destruct (guess_by_counts form pre s post name Hsel Hn Hne)
    as (Hyear & Hmonth & Hboth).
  assert (Hs : In s (form_selects form))
    by (rewrite Hsel; apply in_or_app; right; now left).
  assert (Hpost : forall s', In s' post -> In s' (form_selects form))
    by (intros s' Hs'; rewrite Hsel; apply in_or_app; right; now right).
  assert (Hlabels := plain_select_labels form s name Hplain Hs Hn Hne).
  split; [|split].
  - intros Hy Hlater. apply Hyear.
    + now apply yearish_spec.
    + intros s' Hs'. apply (names_year_false form); auto.
      intros n Hn' Hne'. now apply (Hlater s' n).
  - intros Hm Hlater. apply Hmonth.
    + now apply monthish_spec.
    + intros s' Hs'. apply (names_month_false form); auto.
      intros n Hn' Hne'. now apply (Hlater s' n).
  - intros Hy Hm Hlater. apply Hboth.
    + now apply yearish_spec.
    + now apply monthish_spec.
    + intros s' Hs'. split.
      * apply (names_year_false form); auto.
        intros n Hn' Hne'. now apply (Hlater s' n).
      * apply (names_month_false form); auto.
        intros n Hn' Hne'. now apply (Hlater s' n).
Qed.

(** Plain labels, and labels of the two kinds, by evaluation. *)
Lemma plain_label_by_test o :
  (String.length o <=? int_max_str_digits)%nat
  && forall_chars (fun c => negb (existsb (Nat.eqb (nat_of_ascii c))
                                    [178; 179; 185]%nat)) o = true ->
  plain_label o.
Proof.
  rewrite andb_true_iff, Nat.leb_le, forall_chars_spec.
  intros [Hlen Hc]. split; [exact Hlen|].
  intros c Hin Hbad. specialize (Hc c Hin).
  apply negb_true_iff in Hc.
  assert (Hex : existsb (Nat.eqb (nat_of_ascii c)) [178; 179; 185]%nat = true).
  { apply existsb_exists. exists (nat_of_ascii c).
    split; [exact Hbad | apply Nat.eqb_refl]. }
  congruence.
Qed.

Lemma four_digits_by_test o :
  all_digits o && (String.length o =? 4)%nat = true -> four_digits o.
Proof.
  rewrite andb_true_iff, Nat.eqb_eq. intros [Hd Hlen].
  destruct o as [|a [|b [|c [|d [|e o]]]]]; try discriminate.
  simpl in Hd. rewrite !andb_true_iff in Hd.
  destruct Hd as (Ha & Hb & Hc & Hd & _).
  exists a, b, c, d. split; [reflexivity|].
  repeat split; now apply is_digit_spec.
Qed.

Lemma all_digits_spec o :
  all_digits o = true <-> forall c, In c (list_ascii_of_string o) -> decimal c.
Proof.
  induction o as [|a o IH]; simpl.
  - split; [intros _ c [] | reflexivity].
  - rewrite andb_true_iff, IH, is_digit_spec. split.
    + intros [Ha Ho] c [<-|Hc]; [exact Ha | now apply Ho].
    + intros H. split; [apply H; now left | intros c Hc; apply H; now right].
Qed.

Lemma month_number_by_test o :
  all_digits o
  && match o, int o with
     | String _ _, Some n => (1 <=? n) && (n <=? 12)
     | _, _ => false
     end = true ->
  month_number o.
Proof.
  rewrite andb_true_iff. intros [Hd Hn].
  destruct o as [|a o]; [discriminate|].
  split; [discriminate|]. split; [now apply all_digits_spec|].
  destruct (int (String a o)) as [n|]; [|discriminate].
  exists n. split; [reflexivity|]. lia.
Qed.

(** The labels of a form that is written out are plain, by evaluation. *)
Ltac plain_labels_by_test :=
  let s := fresh "s" in
  let name := fresh "name" in
  let o := fresh "o" in
  let Hs := fresh "Hs" in
  let Ho := fresh "Ho" in
  intros s name o Hs _ _ Ho; simpl in Hs;
  repeat (destruct Hs as [<-|Hs];
          [simpl in Ho;
           repeat (destruct Ho as [<-|Ho];
                   [now apply plain_label_by_test|]);
           destruct Ho|]);
  destruct Hs.

Lemma guess_last_qualifying_select_witness :
  plain_labels when_form /\
  guess_year_month_field_names when_form = ("when", "when").
Proof.
  assert (Hplain : plain_labels when_form) by plain_labels_by_test.
  split; [exact Hplain|].
  apply (proj2 (proj2 (guess_last_qualifying_select when_form []
    (select_tag "when"
       (numbered ["2001"; "2002"; "2003"; "2004"; "2005";
                  "1"; "2"; "3"; "4"; "5"]))
    [] "when" Hplain eq_refl eq_refl ltac:(discriminate)))).
  - exists ["2001"; "2002"; "2003"; "2004"; "2005"].
    split; [repeat constructor|]. split; [reflexivity|].
    repeat (apply List.Forall_cons; [now apply four_digits_by_test|]).
    apply List.Forall_nil.
  - exists ["1"; "2"; "3"; "4"; "5"].
    split; [repeat constructor|]. split; [reflexivity|].
    repeat (apply List.Forall_cons; [now apply month_number_by_test|]).
    apply List.Forall_nil.
  - intros s' n [].
Defined.

(** Two selects that both look like a year list: the later one names the
    field. *)
Example later_year_select_wins :
  guess_loop
    [ select_tag "from_year" (numbered ["2001"; "2002"; "2003"; "2004"; "2005"]);
      select_tag "to_year" (numbered ["2001"; "2002"; "2003"; "2004"; "2005"]) ]
    "year" "month"
  = ("to_year", "month").
Proof. vm_compute. reflexivity. Qed.

(** ** Output-format coercion *)

Lemma find_first {A} (f : A -> bool) pre x post :
  (forall y, In y pre -> f y = false) -> f x = true ->
  List.find f (pre ++ x :: post) = Some x.
Proof.
  intros Hpre Hx. induction pre as [|a pre IH]; simpl.
  - now rewrite Hx.
  - rewrite (Hpre a (or_introl eq_refl)). apply IH.
    intros y Hy. apply Hpre. now right.
Qed.

Lemma find_existsb_false {A} (f : A -> bool) l :
  existsb f l = false -> List.find f l = None.
Proof.
  induction l as [|a l IH]; simpl; [reflexivity|].
  intros H. apply orb_false_iff in H. destruct H as [-> H]. now apply IH.
Qed.

Lemma scan_selects_skip pre rest payload :
  (forall s, In s pre -> offers_xml s = false) ->
  scan_selects (pre ++ rest) payload = scan_selects rest payload.
Proof.
  intros H. induction pre as [|a pre IH]; simpl; [reflexivity|].
  assert (Ha := H a (or_introl eq_refl)). unfold offers_xml in Ha.
  assert (IH' : scan_selects (pre ++ rest) payload = scan_selects rest payload)
    by (apply IH; intros s Hs; apply H; now right).
  destruct (select_name a) as [[|c n]|]; simpl in Ha; try exact IH'.
  now rewrite (find_existsb_false _ _ Ha).
Qed.

Lemma scan_selects_none sels payload :
  (forall s, In s sels -> offers_xml s = false) ->
  scan_selects sels payload = None.
Proof.
  intros H. rewrite <- (app_nil_r sels). now rewrite scan_selects_skip.
Qed.

Lemma in_group_setdefault_append name v groups n x :
  in_group (setdefault_append name v groups) n x <->
  in_group groups n x \/ (n = name /\ x = v).
Proof.
  unfold in_group. induction groups as [|[k vs] groups IH]; simpl.
  - split.
    + intros (ws & [[= <- <-]|[]] & Hx). right.
      destruct Hx as [->|[]]. now split.
    + intros [(ws & [] & _)|[-> ->]]. exists [v]. split; now left.
  - case_bool_decide as Hk.
    + subst k. split.
      * intros (ws & [[= <- <-]|Hin] & Hx).
        -- apply in_app_or in Hx. destruct Hx as [Hx|[->|[]]].
           ++ left. exists vs. split; [now left | exact Hx].
           ++ now right.
        -- left. exists ws. split; [now right | exact Hx].
      * intros [(ws & [[= <- <-]|Hin] & Hx)|[-> ->]].
        -- exists (vs ++ [v])%list. split; [now left|].
           apply in_or_app. now left.
        -- exists ws. split; [now right | exact Hx].
        -- exists (vs ++ [v])%list. split; [now left|].
           apply in_or_app. right. now left.
    + split.
      * intros (ws & [[= <- <-]|Hin] & Hx).
        -- left. exists vs. split; [now left | exact Hx].
        -- destruct (proj1 IH (ex_intro _ ws (conj Hin Hx)))
             as [(ws' & Hin' & Hx')|Heq].
           ++ left. exists ws'. split; [now right | exact Hx'].
           ++ now right.
      * intros [(ws & [[= <- <-]|Hin] & Hx)|Heq].
        -- exists vs. split; [now left | exact Hx].
        -- destruct (proj2 IH (or_introl (ex_intro _ ws (conj Hin Hx))))
             as (ws' & Hin' & Hx').
           exists ws'. split; [now right | exact Hx'].
        -- destruct (proj2 IH (or_intror Heq)) as (ws' & Hin' & Hx').
           exists ws'. split; [now right | exact Hx'].
Qed.

(** The radio groups hold the values of the named radio buttons, and
    nothing else. *)
Lemma in_group_collect_radios inputs :
  forall groups n x,
    in_group (collect_radios inputs groups) n x <->
    in_group groups n x \/
    exists i, In i inputs /\ input_type i = Some "radio"
              /\ input_name i = Some n /\ n <> ""
              /\ default "" (input_value i) = x.
Proof.
  induction inputs as [|a inputs IH]; intros groups n x; simpl.
  - split; [now left | intros [H|(i & [] & _)]; exact H].
  - case_bool_decide as Ht.
    + destruct (input_name a) as [[|c nm]|] eqn:Hn.
      * rewrite IH. split.
        -- intros [H|(i & Hi & H)]; [now left|].
           right. exists i. split; [now right | exact H].
        -- intros [H|(i & [<-|Hi] & H)]; [now left| |].
           ++ destruct H as (_ & Hn' & Hne & _). congruence.
           ++ right. now exists i.
      * rewrite IH, in_group_setdefault_append. split.
        -- intros [[H|[-> Hx]]|(i & Hi & H)].
           ++ now left.
           ++ right. exists a. split; [now left|]. split; [exact Ht|].
              split; [exact Hn|]. split; [discriminate|].
              symmetry; exact Hx.
           ++ right. exists i. split; [now right | exact H].
        -- intros [H|(i & [<-|Hi] & H)].
           ++ left. now left.
           ++ destruct H as (_ & Hn' & _ & Hx). left. right.
              split; [congruence | symmetry; exact Hx].
           ++ right. now exists i.
      * rewrite IH. split.
        -- intros [H|(i & Hi & H)]; [now left|].
           right. exists i. split; [now right | exact H].
        -- intros [H|(i & [<-|Hi] & H)]; [now left| |].
           ++ destruct H as (_ & Hn' & _). congruence.
           ++ right. now exists i.
    + rewrite IH. split.
      * intros [H|(i & Hi & H)]; [now left|].
        right. exists i. split; [now right | exact H].
      * intros [H|(i & [<-|Hi] & H)]; [now left| |].
        -- destruct H as (Ht' & _). congruence.
        -- right. now exists i.
Qed.

Lemma scan_radio_groups_some groups payload p :
  scan_radio_groups groups payload = Some p ->
  exists n x, in_group groups n x /\ xml_value x = true
              /\ p = <[n := x]> payload.
Proof.
  induction groups as [|[k vs] groups IH]; simpl; [discriminate|].
  destruct (List.find xml_value vs) as [v|] eqn:Hf.
  - intros [= <-]. apply find_some in Hf. destruct Hf as [Hin Hx].
    exists k, v. split; [|now split]. exists vs. split; [now left | exact Hin].
  - intros H. destruct (IH H) as (n & x & (ws & Hin & Hx) & Hv & ->).
    exists n, x. split; [|now split]. exists ws. split; [now right | exact Hx].
Qed.

Lemma scan_radio_groups_none groups payload :
  (forall n x, in_group groups n x -> xml_value x = false) ->
  scan_radio_groups groups payload = None.
Proof.
  induction groups as [|[k vs] groups IH]; simpl; intros H; [reflexivity|].
  destruct (List.find xml_value vs) as [v|] eqn:Hf.
  - apply find_some in Hf. destruct Hf as [Hin Hx].
    rewrite (H k v) in Hx; [discriminate|].
    exists vs. split; [now left | exact Hin].
  - apply IH. intros n x (ws & Hin & Hx). apply (H n x).
    exists ws. split; [now right | exact Hx].
Qed.

Lemma scan_selects_first pre s post name opre o opost payload :
  (forall s', In s' pre -> offers_xml s' = false) ->
  select_name s = Some name -> name <> "" ->
  select_options s = (opre ++ o :: opost)%list ->
  (forall o', In o' opre -> xml_option (value_label o') = false) ->
  xml_option (value_label o) = true ->
  scan_selects (pre ++ s :: post) payload
  = Some (<[name := chosen (value_label o)]> payload).
Proof.
  intros Hpre Hn Hne Hopts Hopre Ho.
  rewrite scan_selects_skip by exact Hpre. simpl.
  rewrite Hn. destruct name as [|c nm]; [congruence|].
  rewrite Hopts, map_app. simpl.
  rewrite (find_first xml_option (map value_label opre) (value_label o)).
  - reflexivity.
  - intros y Hy. apply in_map_iff in Hy. destruct Hy as (o' & <- & Ho').
    now apply Hopre.
  - exact Ho.
Qed.

(** The scan in terms of the tests it makes. *)
Lemma force_output_format_xml_by_tests :
  forall (form : FormTag) (payload : gmap string string),
    (forall pre s post name opre o opost,
       form_selects form = (pre ++ s :: post)%list ->
       (forall s', In s' pre -> offers_xml s' = false) ->
       select_name s = Some name -> name <> "" ->
       select_options s = (opre ++ o :: opost)%list ->
       (forall o', In o' opre -> xml_option (value_label o') = false) ->
       xml_option (value_label o) = true ->
       force_output_format_xml form payload
       = (true,
          <[name := if bool_decide (default "" (option_value o) = "")
                    then option_text o
                    else default "" (option_value o)]> payload)) /\
    (forall pre post name,
       form_selects form
       = (pre ++ select_tag name [option_tag "1" "HTML"; option_tag "2" "XML"]
              :: post)%list ->
       (forall s', In s' pre -> offers_xml s' = false) ->
       name <> "" ->
       force_output_format_xml form payload
       = (true, <[name := "2"]> payload)) /\
    ((forall s, In s (form_selects form) -> offers_xml s = false) ->
     (exists i, In i (form_inputs form) /\ xml_radio i = true) ->
     exists i name,
       In i (form_inputs form) /\ xml_radio i = true
       /\ input_name i = Some name
       /\ force_output_format_xml form payload
          = (true, <[name := default "" (input_value i)]> payload)) /\
    ((forall s, In s (form_selects form) -> offers_xml s = false) ->
     (forall i, In i (form_inputs form) -> xml_radio i = false) ->
     force_output_format_xml form payload = (false, payload)).
Proof.
  intros form payload. split; [|split; [|split]].
  - intros pre s post name opre o opost Hsel Hpre Hn Hne Hopts Hopre Ho.
    unfold force_output_format_xml. rewrite Hsel.
    now rewrite (scan_selects_first pre s post name opre o opost payload).
  - intros pre post name Hsel Hpre Hne.
    unfold force_output_format_xml. rewrite Hsel.
    rewrite (scan_selects_first pre _ post name
               [option_tag "1" "HTML"] (option_tag "2" "XML") [] payload);
      try reflexivity; try assumption.
    intros o' [<-|[]]. reflexivity.
  - intros Hsel (i & Hi & Hx).
    unfold force_output_format_xml.
    rewrite (scan_selects_none _ payload Hsel).
    destruct (scan_radio_groups (collect_radios (form_inputs form) []) payload)
      as [p|] eqn:Hscan.
    + apply scan_radio_groups_some in Hscan.
      destruct Hscan as (n & x & Hg & Hv & ->).
      apply in_group_collect_radios in Hg.
      destruct Hg as [(ws & [] & _)|(j & Hj & Ht & Hn & Hne & Hval)].
      exists j, n. split; [exact Hj|]. split; [|split; [exact Hn|]].
      * unfold xml_radio. rewrite Hn, Hval, Hv.
        rewrite bool_decide_eq_true_2 by exact Ht.
        now destruct n.
      * now rewrite Hval.
    + exfalso. unfold xml_radio in Hx.
      apply andb_true_iff in Hx. destruct Hx as [Hx Hv].
      apply andb_true_iff in Hx. destruct Hx as [Ht Hn].
      apply bool_decide_eq_true_1 in Ht.
      destruct (input_name i) as [[|c nm]|] eqn:Hname; try discriminate.
      assert (Hg : in_group (collect_radios (form_inputs form) [])
                     (String c nm) (default "" (input_value i))).
      { apply in_group_collect_radios. right. exists i.
        repeat split; try assumption. discriminate. }
      destruct Hg as (ws & Hin & Hmem).
      assert (Hnone : forall groups,
                 scan_radio_groups groups payload = None ->
                 forall n ws x, In (n, ws) groups -> In x ws ->
                                xml_value x = false).
      { clear. induction groups as [|[k vs] groups IH]; simpl.
        - intros _ n ws x [].
        - destruct (List.find xml_value vs) eqn:Hf; [discriminate|].
          intros H n ws x [[= <- <-]|Hin] Hx.
          + now apply (find_none _ _ Hf).
          + now apply (IH H n ws x). }
      rewrite (Hnone _ Hscan _ _ _ Hin Hmem) in Hv. discriminate.
  - intros Hsel Hrad.
    unfold force_output_format_xml.
    rewrite (scan_selects_none _ payload Hsel).
    rewrite scan_radio_groups_none; [reflexivity|].
    intros n x Hg. apply in_group_collect_radios in Hg.
    destruct Hg as [(ws & [] & _)|(j & Hj & Ht & Hn & Hne & Hval)].
    assert (Hr := Hrad j Hj). unfold xml_radio in Hr.
    rewrite Hn, Hval in Hr.
    rewrite bool_decide_eq_true_2 in Hr by exact Ht.
    destruct n; [congruence | exact Hr].
Qed.

(** The tests of the scan say what they are meant to say. *)
Lemma xml_value_spec v : xml_value v = true <-> mentions_xml v.
Proof. unfold xml_value, mentions_xml, occurs_in. apply contains_spec. Qed.

Lemma xml_value_false v : ~ mentions_xml v -> xml_value v = false.
Proof.
  intros H. destruct (xml_value v) eqn:E; [|reflexivity].
  exfalso. now apply H, xml_value_spec.
Qed.

Lemma xml_option_spec o :
  xml_option (value_label o) = true <->
  mentions_xml (default "" (option_value o)) \/ mentions_xml (option_text o).
Proof.
  unfold xml_option, value_label, mentions_xml, occurs_in. simpl.
  now rewrite orb_true_iff, !contains_spec.
Qed.

Lemma xml_option_false o :
  ~ mentions_xml (default "" (option_value o)) /\ ~ mentions_xml (option_text o) ->
  xml_option (value_label o) = false.
Proof.
  intros [Hv Hl]. destruct (xml_option (value_label o)) eqn:E; [|reflexivity].
  apply xml_option_spec in E. tauto.
Qed.

Lemma offers_xml_false s : without_xml_option s -> offers_xml s = false.
Proof.
  intros H. unfold offers_xml.
  destruct (select_name s) as [[|c n]|] eqn:Hn; try reflexivity.
  simpl. apply not_true_is_false. intros E.
  apply existsb_exists in E. destruct E as (vl & Hin & Hx).
  apply in_map_iff in Hin. destruct Hin as (o & <- & Ho).
  rewrite (xml_option_false o) in Hx; [discriminate|].
  apply (H (String c n) o); [exact Hn | discriminate | exact Ho].
Qed.

Lemma xml_radio_spec i :
  xml_radio i = true <->
  exists name, radio_named i name /\ mentions_xml (default "" (input_value i)).
Proof.
  unfold xml_radio, radio_named. rewrite !andb_true_iff, xml_value_spec.
  rewrite bool_decide_eq_true. split.
  - intros [[Ht Hn] Hv].
    destruct (input_name i) as [[|c n]|]; try discriminate.
    exists (String c n). repeat split; try assumption. discriminate.
  - intros (name & (Ht & Hn & Hne) & Hv). rewrite Hn.
    repeat split; try assumption. now destruct name.
Qed.

(** C6: the scan stops at the first option, in document order over the
    named selects, whose value or label contains "xml" in any letter case,
    and sets that select's entry to the option's value, or to its label
    when the value is empty; what follows that option (later options,
    later selects, the radio buttons) plays no part.  On the select with
    the options ("1","HTML"), ("2","XML") the entry becomes "2".  When no
    option of a named select contains "xml" the radio buttons decide: if a
    named one has a value containing "xml", the entry of such a button is
    set to its value; and if no named radio button has such a value
    either, the payload is returned as it was, with the flag [false]. *)
Theorem force_output_format_xml_first_match :
  forall (form : FormTag) (payload : gmap string string),
    (forall pre s post name opre o opost,
       form_selects form = (pre ++ s :: post)%list ->
       (forall s', In s' pre -> without_xml_option s') ->
       select_name s = Some name -> name <> "" ->
       select_options s = (opre ++ o :: opost)%list ->
       (forall o', In o' opre ->
          ~ mentions_xml (default "" (option_value o'))
          /\ ~ mentions_xml (option_text o')) ->
       mentions_xml (default "" (option_value o))
       \/ mentions_xml (option_text o) ->
       force_output_format_xml form payload
       = (true,
          <[name := if bool_decide (default "" (option_value o) = "")
                    then option_text o
                    else default "" (option_value o)]> payload)) /\
    (forall pre post name,
       form_selects form
       = (pre ++ select_tag name [option_tag "1" "HTML"; option_tag "2" "XML"]
              :: post)%list ->
       (forall s', In s' pre -> without_xml_option s') ->
       name <> "" ->
       force_output_format_xml form payload
       = (true, <[name := "2"]> payload)) /\
    ((forall s, In s (form_selects form) -> without_xml_option s) ->
     (exists i name,
        In i (form_inputs form) /\ radio_named i name
        /\ mentions_xml (default "" (input_value i))) ->
     exists i name,
       In i (form_inputs form) /\ radio_named i name
       /\ mentions_xml (default "" (input_value i))
       /\ force_output_format_xml form payload
          = (true, <[name := default "" (input_value i)]> payload)) /\
    ((forall s, In s (form_selects form) -> without_xml_option s) ->
     (forall i name,
        In i (form_inputs form) -> radio_named i name ->
        ~ mentions_xml (default "" (input_value i))) ->
     force_output_format_xml form payload = (false, payload)).
Proof.
  intros form payload.
  destruct (force_output_format_xml_by_tests form payload)
    as (Hfirst & Hsample & Hradio & Hnone).
  split; [|split; [|split]].
  - intros pre s post name opre o opost Hsel Hpre Hn Hne Hopts Hopre Ho.
    apply (Hfirst pre s post name opre o opost); try assumption.
    + intros s' Hs'. now apply offers_xml_false, Hpre.
    + intros o' Ho'. now apply xml_option_false, Hopre.
    + now apply xml_option_spec.
  - intros pre post name Hsel Hpre Hne.
    apply (Hsample pre post name); try assumption.
    intros s' Hs'. now apply offers_xml_false, Hpre.
  - intros Hsel (i & name & Hi & Hr & Hv).
    destruct Hradio as (j & n & Hj & Hx & Hn & Hrun).
    + intros s Hs. now apply offers_xml_false, Hsel.
    + exists i. split; [exact Hi|]. apply xml_radio_spec. now exists name.
    + apply xml_radio_spec in Hx. destruct Hx as (n' & Hr' & Hv').
      exists j, n. split; [exact Hj|].
      assert (n' = n) by (destruct Hr' as (_ & Hn' & _); congruence).
      subst n'. split; [exact Hr'|]. split; [exact Hv' | exact Hrun].
  - intros Hsel Hrad. apply Hnone.
    + intros s Hs. now apply offers_xml_false, Hsel.
    + intros i Hi. apply not_true_is_false. intros Hx.
      apply xml_radio_spec in Hx. destruct Hx as (name & Hr & Hv).
      now apply (Hrad i name).
Qed.

(** A text that does not mention xml, by evaluation. *)
Lemma not_mentions_xml s : contains "xml" (lower s) = false -> ~ mentions_xml s.
Proof. intros H. now apply contains_false. Qed.

Lemma mentions_xml_by_test s : contains "xml" (lower s) = true -> mentions_xml s.
Proof. intros H. now apply contains_spec. Qed.

Lemma force_output_format_xml_first_match_witness :
  force_output_format_xml export_form ∅ = (true, {[ "format" := "2" ]})
  /\ (exists i name,
        In i (form_inputs radio_form) /\ radio_named i name
        /\ mentions_xml (default "" (input_value i))
        /\ force_output_format_xml radio_form ∅
           = (true, <[name := default "" (input_value i)]> ∅))
  /\ force_output_format_xml plain_radio_form ∅ = (false, ∅).
Proof.
  split; [|split].
  - apply (proj1 (proj2 (force_output_format_xml_first_match export_form ∅))
             [ select_tag "year"
                 (numbered ["2004"; "2005"; "2006"; "2007"; "2008"]);
               select_tag "month" (numbered ["1"; "2"; "3"; "4"; "5"; "6"]) ]
             [] "format").
    + reflexivity.
    + intros s' [<-|[<-|[]]] name o _ _ Ho; simpl in Ho;
        repeat (destruct Ho as [<-|Ho]; [split; now apply not_mentions_xml|]);
        destruct Ho.
    + discriminate.
  - apply (proj1 (proj2 (proj2
             (force_output_format_xml_first_match radio_form ∅)))).
    + intros s [<-|[]] name o _ _ [<-|[]].
      split; now apply not_mentions_xml.
    + exists (radio_tag "format" "livejournal-XML"), "format".
      split; [right; now left|].
      split; [split; [reflexivity|]; split; [reflexivity | discriminate]|].
      now apply mentions_xml_by_test.
  - apply (proj2 (proj2 (proj2
             (force_output_format_xml_first_match plain_radio_form ∅)))).
    + intros s [<-|[]] name o _ _ [<-|[]].
      split; now apply not_mentions_xml.
    + intros i name [<-|[<-|[<-|[]]]] (Ht & _ & _);
        try discriminate Ht; now apply not_mentions_xml.
Defined.

(** The radio buttons decide when no select does: the first group with a
    value that mentions xml gets that value. *)
Example radio_fallback :
  force_output_format_xml radio_form ∅
  = (true, {[ "format" := "livejournal-XML" ]}).
Proof. reflexivity. Qed.

(** Nothing to coerce: the payload comes back as it went in. *)
Example no_xml_anywhere (payload : gmap string string) :
  force_output_format_xml
    {| form_text := "Format Go";
       form_selects := [select_tag "format" [option_tag "1" "HTML";
                                             option_tag "3" "PDF"]];
       form_inputs := [] |} payload
  = (false, payload).
Proof. reflexivity. Qed.

End DownloaderSpec.

(* ===================================================================== *)
(** * Properties of the batch driver *)
(* ===================================================================== *)

Module BatchSpec.
Import Text TextFacts Batch.

(** ** One iteration of the loop *)

Lemma visited_app t1 t2 : visited (t1 ++ t2) = (visited t1 ++ visited t2)%list.
Proof. unfold visited. apply omap_app. Qed.

Lemma exported_app t1 t2 :
  exported (t1 ++ t2) = (exported t1 ++ exported t2)%list.
Proof. unfold exported. apply omap_app. Qed.

Lemma pauses_app t1 t2 : pauses (t1 ++ t2) = (pauses t1 ++ pauses t2)%list.
Proof. unfold pauses. apply List.filter_app. Qed.

Lemma iteration_skip args env ym st :
  ym ∈ outfiles st ->
  iteration args env ym st = Continue (emit (Skipping ym) st).
Proof. intros H. unfold iteration. now rewrite bool_decide_eq_true_2. Qed.

Lemma iteration_success args env ym st :
  ym ∉ outfiles st -> succeeded (run env ym) = true ->
  iteration args env ym st =
  Continue
    {| outfiles := {[ym]} ∪ outfiles st; failures := 0; ledger := ledger st;
       trace := trace st ++
                [Exporting ym;
                 Pause (normal_pause_min args) (normal_pause_max args)
                   "normal"] |}.
Proof.
  intros Hnew Hok. unfold succeeded in Hok.
  apply andb_true_iff in Hok. destruct Hok as [Hrc Hw].
  unfold iteration, launch. rewrite bool_decide_eq_false_2 by exact Hnew.
  rewrite Hw, Hrc. simpl.
  rewrite bool_decide_eq_true_2 by set_solver.
  unfold polite_pause, emit, set_failures. simpl.
  now rewrite <- app_assoc.
Qed.

(** The state a failed month leaves behind. *)
Lemma iteration_failure args env ym st :
  ym ∉ outfiles st -> succeeded (run env ym) = false ->
  exists st',
    iteration args env ym st =
    (if 5 <=? failures st + 1 then Return 3 st' else Continue st')
    /\ failures st' = failures st + 1
    /\ ledger st' =
       ledger st +:+
       failure_line (fst ym) (snd ym) (utcnow env ym)
         (Some (returncode (run env ym)))
    /\ trace st' =
       (trace st ++
        [Exporting ym;
         Pause (grumpy_pause_min args) (grumpy_pause_max args)
           (grumpy_reason (failures st + 1))])%list
    /\ outfiles st' ⊆ {[ym]} ∪ outfiles st.
Proof.
  intros Hnew Hko. unfold iteration, launch.
  rewrite bool_decide_eq_false_2 by exact Hnew.
  assert (Hcond :
    (returncode (run env ym) =? 0)
    && bool_decide (ym ∈ (if wrote_outfile (run env ym)
                          then {[ym]} ∪ outfiles st else outfiles st))
    = false).
  { unfold succeeded in Hko. apply andb_false_iff in Hko.
    destruct Hko as [Hrc|Hw].
    - now rewrite Hrc.
    - rewrite Hw. rewrite (bool_decide_eq_false_2 _ Hnew).
      apply andb_false_r. }
  simpl. rewrite Hcond. simpl.
  eexists. split; [reflexivity|]. simpl.
  repeat split.
  - now rewrite <- app_assoc.
  - destruct (wrote_outfile (run env ym)); set_solver.
Qed.

(** C9: when the output file of a month exists, the iteration for that
    month goes on to the next month and changes nothing but the log: the
    exporter is not launched, the failure ledger and the output files are
    as before, no pause is made, and the consecutive-failure counter keeps
    its value. *)
Theorem skip_is_noop :
  forall (args : Args) (env : Env) (ym : Z * Z) (st : State),
    ym ∈ outfiles st ->
    exists st',
      iteration args env ym st = Continue st'
      /\ failures st' = failures st
      /\ ledger st' = ledger st
      /\ outfiles st' = outfiles st
      /\ trace st' = (trace st ++ [Skipping ym])%list
      /\ exported (trace st') = exported (trace st)
      /\ pauses (trace st') = pauses (trace st).
Proof.
  intros args env ym st H. exists (emit (Skipping ym) st).
  rewrite (iteration_skip args env ym st H). simpl.
  rewrite exported_app, pauses_app. simpl. rewrite !app_nil_r.
  repeat split; reflexivity.
Qed.

Lemma skip_is_noop_witness :
  exists st',
    iteration (default_args 2020 1 2020 12) (scripted [] (2020, 1)) (2020, 3)
      {| outfiles := {[ (2020, 3) ]}; failures := 4; ledger := "";
         trace := [] |}
    = Continue st'
    /\ failures st' = 4.
Proof.
  destruct (skip_is_noop (default_args 2020 1 2020 12)
              (scripted [] (2020, 1)) (2020, 3)
              {| outfiles := {[ (2020, 3) ]}; failures := 4; ledger := "";
                 trace := [] |})
    as (st' & Hit & Hf & _).
  - simpl. set_solver.
  - exists st'. split; [exact Hit | exact Hf].
Defined.

(** ** The circuit breaker *)

(** Between two iterations the counter is below the threshold; the loop
    ends either at the end of the range with exit code 0, or with exit
    code 3 and the counter at 5. *)
Lemma main_loop_counter args env months :
  forall st,
    0 <= failures st < 5 ->
    (fst (main_loop args env months st) = 0
     /\ 0 <= failures (snd (main_loop args env months st)) < 5)
    \/ (fst (main_loop args env months st) = 3
        /\ failures (snd (main_loop args env months st)) = 5).
Proof.
  induction months as [|ym rest IH]; intros st Hst; simpl.
  - left. split; [reflexivity | exact Hst].
  - destruct (decide (ym ∈ outfiles st)) as [Hin|Hnew].
    + rewrite (iteration_skip args env ym st Hin). now apply IH.
    + destruct (succeeded (run env ym)) eqn:Hok.
      * rewrite (iteration_success args env ym st Hnew Hok).
        apply IH. simpl. lia.
      * destruct (iteration_failure args env ym st Hnew Hok)
          as (st' & -> & Hf & _).
        destruct (5 <=? failures st + 1) eqn:Hfive.
        -- right. simpl. apply Z.leb_le in Hfive. split; [reflexivity | lia].
        -- apply Z.leb_gt in Hfive. apply IH. lia.
Qed.

Lemma default_args_can_pause sy sm ey em : can_pause (default_args sy sm ey em).
Proof. unfold can_pause, pause_bounds, longest_sleep. simpl. lia. Qed.

(** C1: in a run whose pauses can be made, a month whose export succeeds
    sets the counter to zero and the loop goes on; a month whose export
    fails adds one to the counter, and the loop goes on while the counter
    is below 5; as soon as a failure brings the counter to 5 the run ends
    there with exit code 3, whatever months are left; a run ends with exit
    code 0 and the counter below 5, or with exit code 3 and the counter at
    5.  On the outcomes failure x4, success, failure x5 over the months of
    2020 the run ends with exit code 3 at the tenth month, having launched
    the exporter for the first ten months only; cut after the ninth month,
    the same outcomes end with exit code 0 and the counter at 4. *)
Theorem circuit_breaker :
  (forall (args : Args) (env : Env),
     can_pause args ->
     (forall ym st,
        ym ∉ outfiles st -> succeeded (run env ym) = true ->
        exists st', iteration args env ym st = Continue st'
                    /\ failures st' = 0) /\
     (forall ym st,
        ym ∉ outfiles st -> succeeded (run env ym) = false ->
        failures st + 1 < 5 ->
        exists st', iteration args env ym st = Continue st'
                    /\ failures st' = failures st + 1) /\
     (forall ym st rest,
        ym ∉ outfiles st -> succeeded (run env ym) = false ->
        5 <= failures st + 1 ->
        exists st', main_loop args env (ym :: rest) st = (3, st')
                    /\ failures st' = failures st + 1
                    /\ visited (trace st') = (visited (trace st) ++ [ym])%list) /\
     (forall existing log,
        (fst (main args env existing log) = 0
         /\ 0 <= failures (snd (main args env existing log)) < 5)
        \/ (fst (main args env existing log) = 3
            /\ failures (snd (main args env existing log)) = 5))) /\
  (let outcomes := [false; false; false; false; true;
                    false; false; false; false; false] in
   let r := main (default_args 2020 1 2020 12) (scripted outcomes (2020, 1))
              ∅ "" in
   let r9 := main (default_args 2020 1 2020 9) (scripted outcomes (2020, 1))
               ∅ "" in
   can_pause (default_args 2020 1 2020 12)
   /\ can_pause (default_args 2020 1 2020 9)
   /\ fst r = 3 /\ failures (snd r) = 5
   /\ exported (trace (snd r))
      = [(2020, 1); (2020, 2); (2020, 3); (2020, 4); (2020, 5);
         (2020, 6); (2020, 7); (2020, 8); (2020, 9); (2020, 10)]
   /\ fst r9 = 0 /\ failures (snd r9) = 4).
Proof.
  split.
  - intros args env _. split; [|split; [|split]].
    + intros ym st Hnew Hok.
      rewrite (iteration_success args env ym st Hnew Hok).
      eexists. split; reflexivity.
    + intros ym st Hnew Hko Hlt.
      destruct (iteration_failure args env ym st Hnew Hko)
        as (st' & -> & Hf & _).
      exists st'. apply Z.leb_gt in Hlt. rewrite Hlt. now split.
    + intros ym st rest Hnew Hko Hge.
      destruct (iteration_failure args env ym st Hnew Hko)
        as (st' & Hit & Hf & _ & Ht & _).
      exists st'. simpl. rewrite Hit.
      apply Z.leb_le in Hge. rewrite Hge.
      split; [reflexivity|]. split; [exact Hf|].
      rewrite Ht, visited_app. reflexivity.
    + intros existing log. apply main_loop_counter. simpl. lia.
  - split; [apply default_args_can_pause|].
    split; [apply default_args_can_pause|].
    vm_compute. repeat split; reflexivity.
Qed.

Lemma circuit_breaker_witness :
  can_pause (default_args 2020 1 2020 12) /\
  exists st',
    main_loop (default_args 2020 1 2020 12) (scripted [] (2020, 1))
      [(2020, 5); (2020, 6)]
      {| outfiles := ∅; failures := 4; ledger := ""; trace := [] |}
    = (3, st')
    /\ failures st' = 4 + 1.
Proof.
  split; [apply default_args_can_pause|].
  destruct (proj1 (proj2 (proj2
              (proj1 circuit_breaker (default_args 2020 1 2020 12)
                 (scripted [] (2020, 1))
                 (default_args_can_pause 2020 1 2020 12))))
              (2020, 5)
              {| outfiles := ∅; failures := 4; ledger := ""; trace := [] |}
              [(2020, 6)])
    as (st' & Hloop & Hf & _).
  - simpl. set_solver.
  - reflexivity.
  - simpl. lia.
  - exists st'. split; [exact Hloop | exact Hf].
Defined.

(** ** The failure ledger *)

Lemma forall_chars_app P a b :
  forall_chars P (a +:+ b) = forall_chars P a && forall_chars P b.
Proof.
  induction a as [|c a IH]; [reflexivity|].
  change (String c a +:+ b) with (String c (a +:+ b)). simpl.
  now rewrite IH, andb_assoc.
Qed.

Lemma split_nonempty c s : split c s <> [].
Proof.
  induction s as [|a s IH]; simpl; [discriminate|].
  destruct (Ascii.eqb a c); [discriminate|].
  now destruct (split c s).
Qed.

(** A text without the separator is one field. *)
Lemma split_free P c s :
  (forall x, P x = true -> Ascii.eqb x c = false) ->
  forall_chars P s = true -> split c s = [s].
Proof.
  intros HP. induction s as [|a s IH]; simpl; [reflexivity|].
  intros H. apply andb_true_iff in H. destruct H as [Ha Hs].
  rewrite (HP a Ha), (IH Hs). reflexivity.
Qed.

(** A text without the separator, then the separator: the text is the
    first field. *)
Lemma split_field P c a s :
  (forall x, P x = true -> Ascii.eqb x c = false) ->
  forall_chars P a = true ->
  split c (a +:+ String c s) = a :: split c s.
Proof.
  intros HP. induction a as [|x a IH].
  - intros _. change ("" +:+ String c s) with (String c s). simpl.
    now rewrite Ascii.eqb_refl.
  - intros H. simpl in H. apply andb_true_iff in H. destruct H as [Hx Ha].
    change (String x a +:+ String c s) with (String x (a +:+ String c s)).
    simpl. rewrite (HP x Hx), (IH Ha). reflexivity.
Qed.

Lemma field_char_not_comma x : field_char x = true -> Ascii.eqb x "," = false.
Proof.
  unfold field_char. intros H. apply andb_true_iff in H.
  destruct H as [H _]. now apply negb_true_iff in H.
Qed.

Lemma field_char_not_newline x :
  field_char x = true -> Ascii.eqb x "010" = false.
Proof.
  unfold field_char. intros H. apply andb_true_iff in H.
  destruct H as [_ H]. now apply negb_true_iff in H.
Qed.

Lemma field_chars_not_occur s :
  forall_chars field_char s = true -> ~ occurs_in "," s.
Proof.
  intros H (pre & post & ->).
  rewrite forall_chars_app in H. apply andb_true_iff in H.
  destruct H as [_ H]. rewrite forall_chars_app in H. discriminate.
Qed.

Lemma digit_field_char a : is_digit a = true -> field_char a = true.
Proof.
  destruct a as [[|] [|] [|] [|] [|] [|] [|] [|]];
    vm_compute; intros H; (reflexivity || discriminate).
Qed.

Lemma digit_not_minus a : is_digit a = true -> Ascii.eqb a "-" = false.
Proof.
  destruct a as [[|] [|] [|] [|] [|] [|] [|] [|]];
    vm_compute; intros H; (reflexivity || discriminate).
Qed.

Lemma digits_field_chars s :
  all_digits s = true -> forall_chars field_char s = true.
Proof.
  induction s as [|a s IH]; simpl; [reflexivity|].
  intros H. apply andb_true_iff in H. destruct H as [Ha Hs].
  now rewrite (digit_field_char a Ha), (IH Hs).
Qed.

Lemma all_digits_app a b :
  all_digits (a +:+ b) = all_digits a && all_digits b.
Proof.
  induction a as [|c a IH]; [reflexivity|].
  change (String c a +:+ b) with (String c (a +:+ b)). simpl.
  now rewrite IH, andb_assoc.
Qed.

Lemma all_digits_zeros k : all_digits (zeros k) = true.
Proof. induction k as [|k IH]; [reflexivity | exact IH]. Qed.

Lemma all_digits_uint d : all_digits (NilEmpty.string_of_uint d) = true.
Proof. induction d; simpl; auto. Qed.

Lemma all_digits_uint0 d : all_digits (NilZero.string_of_uint d) = true.
Proof. destruct d; try reflexivity; apply (all_digits_uint _). Qed.

Lemma format_0d_field_chars w n :
  forall_chars field_char (format_0d w n) = true.
Proof.
  unfold format_0d. destruct (n <? 0).
  - simpl. apply digits_field_chars.
    now rewrite all_digits_app, all_digits_zeros, all_digits_uint0.
  - apply digits_field_chars.
    now rewrite all_digits_app, all_digits_zeros, all_digits_uint0.
Qed.

Lemma to_uint_nonnil x : N.to_uint x <> Nil.
Proof.
  destruct x as [|p]; simpl; [discriminate|].
  apply DecimalPos.Unsigned.to_uint_nonnil.
Qed.

Lemma str_field_chars n : forall_chars field_char (str n) = true.
Proof.
  unfold str. destruct n as [|p|p]; simpl; try reflexivity;
    apply digits_field_chars, all_digits_uint0.
Qed.

Lemma timestamp_field_chars now :
  forall_chars field_char (timestamp now) = true.
Proof.
  unfold timestamp, isoformat.
  repeat (rewrite forall_chars_app; apply andb_true_iff; split);
    try apply format_0d_field_chars; reflexivity.
Qed.

Lemma format_exit_code_field_chars e :
  forall_chars field_char (format_exit_code e) = true.
Proof. destruct e as [c|]; [apply str_field_chars | reflexivity]. Qed.

(** Leading zeros do not change the number read. *)
Lemma uint_of_zeros k d :
  NilEmpty.uint_of_string (zeros k +:+ NilEmpty.string_of_uint d)
  = Some (Nat.iter k D0 d).
Proof.
  induction k as [|k IH].
  - apply NilEmpty.usu.
  - change (zeros (S k) +:+ NilEmpty.string_of_uint d)
      with (String "0" (zeros k +:+ NilEmpty.string_of_uint d)).
    simpl. now rewrite IH.
Qed.

Lemma of_uint_zeros k d : Pos.of_uint (Nat.iter k D0 d) = Pos.of_uint d.
Proof. induction k as [|k IH]; [reflexivity | exact IH]. Qed.

Lemma padded_nonempty k d :
  d <> Nil -> zeros k +:+ NilEmpty.string_of_uint d <> "".
Proof.
  intros Hd. destruct k; [|discriminate].
  change (zeros 0 +:+ NilEmpty.string_of_uint d)
    with (NilEmpty.string_of_uint d).
  destruct d; simpl; [now elim Hd | discriminate ..].
Qed.

Lemma uint0_of_padded k d :
  d <> Nil ->
  NilZero.uint_of_string (zeros k +:+ NilEmpty.string_of_uint d)
  = Some (Nat.iter k D0 d).
Proof.
  intros Hd. unfold NilZero.uint_of_string.
  destruct (zeros k +:+ NilEmpty.string_of_uint d) eqn:E.
  - now apply padded_nonempty in E.
  - rewrite <- E. apply uint_of_zeros.
Qed.

(** Reading back a zero-padded number gives the number. *)
Lemma int_format_0d w n : int (format_0d w n) = Some n.
Proof.
  unfold int, format_0d.
  assert (Hd := to_uint_nonnil (Z.abs_N n)).
  assert (Hs : NilZero.string_of_uint (N.to_uint (Z.abs_N n))
               = NilEmpty.string_of_uint (N.to_uint (Z.abs_N n)))
    by (destruct (N.to_uint (Z.abs_N n)); [now elim Hd | reflexivity ..]).
  rewrite Hs.
  assert (Hval : forall k,
            Z.of_uint (Nat.iter k D0 (N.to_uint (Z.abs_N n)))
            = Z.of_N (Z.abs_N n)).
  { intros k. unfold Z.of_uint. rewrite of_uint_zeros.
    change (Pos.of_uint (N.to_uint (Z.abs_N n)))
      with (N.of_uint (N.to_uint (Z.abs_N n))).
    now rewrite DecimalN.Unsigned.of_to. }
  destruct (n <? 0) eqn:Hneg.
  - simpl. rewrite uint0_of_padded by exact Hd. simpl.
    rewrite Hval. f_equal. apply Z.ltb_lt in Hneg. lia.
  - set (pad := (w - String.length
                       (NilEmpty.string_of_uint (N.to_uint (Z.abs_N n))))%nat).
    assert (Hu := uint0_of_padded pad _ Hd).
    unfold NilZero.int_of_string.
    destruct (zeros pad +:+ NilEmpty.string_of_uint (N.to_uint (Z.abs_N n)))
      as [|a t] eqn:E.
    + now apply padded_nonempty in E.
    + assert (Ha : is_digit a = true).
      { assert (Hall : all_digits (String a t) = true).
        { rewrite <- E. now rewrite all_digits_app, all_digits_zeros,
                           all_digits_uint. }
        simpl in Hall. apply andb_true_iff in Hall. tauto. }
      rewrite (digit_not_minus a Ha), Hu. simpl.
      rewrite Hval. f_equal. apply Z.ltb_ge in Hneg. lia.
Qed.

Lemma int_str n : int (str n) = Some n.
Proof.
  unfold int, str. rewrite NilZero.isi.
  - simpl. now rewrite DecimalZ.of_to.
  - destruct n; simpl; try discriminate.
    intros [= H]. now apply DecimalPos.Unsigned.to_uint_nonnil in H.
  - destruct n; simpl; try discriminate.
    intros [= H]. now apply DecimalPos.Unsigned.to_uint_nonnil in H.
Qed.

Lemma parse_format_exit_code e :
  parse_exit_code (format_exit_code e) = Some e.
Proof.
  unfold parse_exit_code. destruct e as [c|]; simpl; [|reflexivity].
  case_bool_decide as Heq.
  - assert (H := int_str c). rewrite Heq in H. discriminate.
  - now rewrite int_str.
Qed.

Lemma forall_chars_impl (P Q : ascii -> bool) s :
  (forall x, P x = true -> Q x = true) ->
  forall_chars P s = true -> forall_chars Q s = true.
Proof.
  intros HPQ. induction s as [|a s IH]; simpl; [reflexivity|].
  intros H. apply andb_true_iff in H. destruct H as [Ha Hs].
  now rewrite (HPQ a Ha), (IH Hs).
Qed.

Lemma append_cons_assoc a c x e :
  (a +:+ String c x) +:+ e = a +:+ String c (x +:+ e).
Proof.
  induction a as [|b a IH]; [reflexivity|].
  change ((String b a +:+ String c x) +:+ e)
    with (String b ((a +:+ String c x) +:+ e)).
  now rewrite IH.
Qed.

(** The text of a record before its line terminator. *)
Lemma failure_line_body year month now exit_code :
  failure_line year month now exit_code
  = (format_0d 4 year +:+ String ","
       (format_0d 2 month +:+ String ","
          (timestamp now +:+ String "," (format_exit_code exit_code))))
    +:+ newline.
Proof. unfold failure_line. now rewrite !append_cons_assoc. Qed.

(** C8: for every failure record, the line written consists of the four
    formatted fields, in order, separated by commas and ended by a
    newline; none of the fields contains a comma; splitting the line
    (without its terminator) on the comma gives back exactly the four
    fields; and reading the fields gives back the year, the month and the
    exit code they were written from. *)
Theorem failure_record_round_trip :
  forall (year month : Z) (now : datetime) (exit_code : option Z)
         (st : State),
    let line := failure_line year month now exit_code in
    ledger (record_failure now year month exit_code st) = ledger st +:+ line
    /\ fields line
       = [format_0d 4 year; format_0d 2 month; timestamp now;
          format_exit_code exit_code]
    /\ (forall f, In f (fields line) -> ~ occurs_in "," f)
    /\ int (format_0d 4 year) = Some year
    /\ int (format_0d 2 month) = Some month
    /\ parse_exit_code (format_exit_code exit_code) = Some exit_code.
Proof.
  intros year month now exit_code st line.
  assert (Hfields :
    fields line
    = [format_0d 4 year; format_0d 2 month; timestamp now;
       format_exit_code exit_code]).
  { unfold fields, chomp, line. rewrite failure_line_body. unfold newline.
    rewrite (split_field (fun x => negb (Ascii.eqb x "010")) "010").
    - rewrite (split_field field_char ",")
        by (apply field_char_not_comma || apply format_0d_field_chars).
      rewrite (split_field field_char ",")
        by (apply field_char_not_comma || apply format_0d_field_chars).
      rewrite (split_field field_char ",")
        by (apply field_char_not_comma || apply timestamp_field_chars).
      rewrite (split_free field_char ",")
        by (apply field_char_not_comma || apply format_exit_code_field_chars).
      reflexivity.
    - intros x Hx. now apply negb_true_iff in Hx.
    - assert (Hweak : forall s, forall_chars field_char s = true ->
                forall_chars (fun x => negb (Ascii.eqb x "010")) s = true).
      { intros s. apply forall_chars_impl. intros x Hx.
        apply negb_true_iff. now apply field_char_not_newline. }
      rewrite !forall_chars_app. simpl.
      rewrite !forall_chars_app. simpl.
      rewrite !forall_chars_app. simpl.
      rewrite !(Hweak _ (format_0d_field_chars _ _)).
      rewrite (Hweak _ (timestamp_field_chars now)).
      rewrite (Hweak _ (format_exit_code_field_chars exit_code)).
      reflexivity. }
  split; [reflexivity|]. split; [exact Hfields|]. split.
  - rewrite Hfields. intros f Hf. apply field_chars_not_occur.
    destruct Hf as [<-|[<-|[<-|[<-|[]]]]].
    + apply format_0d_field_chars.
    + apply format_0d_field_chars.
    + apply timestamp_field_chars.
    + apply format_exit_code_field_chars.
  - split; [apply int_format_0d|]. split; [apply int_format_0d|].
    apply parse_format_exit_code.
Qed.

(** The record of a failed December 2006, written on 9 January 2024. *)
Example failure_line_sample :
  failure_line 2006 12
    {| dt_year := 2024; dt_month := 1; dt_day := 9;
       dt_hour := 7; dt_minute := 5; dt_second := 59 |} (Some 4)
  = "2006,12,2024-01-09T07:05:59Z,4" +:+ newline.
Proof. vm_compute. reflexivity. Qed.

(** ** The months visited *)

Lemma tuple_le_true a b :
  tuple_le a b = true <-> fst a < fst b \/ (fst a = fst b /\ snd a <= snd b).
Proof.
  unfold tuple_le.
  rewrite orb_true_iff, andb_true_iff, Z.ltb_lt, Z.eqb_eq, Z.leb_le.
  reflexivity.
Qed.

Lemma tuple_le_false a b :
  tuple_le a b = false <-> fst b < fst a \/ (fst a = fst b /\ snd b < snd a).
Proof.
  unfold tuple_le.
  rewrite orb_false_iff, andb_false_iff, Z.ltb_ge, Z.eqb_neq, Z.leb_gt.
  lia.
Qed.

(** The bound is enough: the unrolled loop stops because its condition
    fails, never because the bound is used up. *)
Lemma month_range_loop_yields end_year end_month fuel :
  forall y m,
    (month_range_bound y m end_year end_month <= fuel)%nat ->
    yields end_year end_month y m
      (month_range_loop fuel y m end_year end_month).
Proof.
  unfold month_range_bound.
  induction fuel as [|fuel IH]; intros y m Hfuel; simpl.
  - apply yields_stop. apply tuple_le_false. simpl.
    destruct (tuple_le (y, m) (end_year, end_month)) eqn:E.
    + apply tuple_le_true in E. simpl in E. lia.
    + apply tuple_le_false in E. exact E.
  - destruct (tuple_le (y, m) (end_year, end_month)) eqn:E.
    + assert (E' := E). apply tuple_le_true in E'. simpl in E'.
      destruct (m + 1 >? 12) eqn:Hm.
      * apply yields_next_year; [exact E | exact Hm|].
        apply IH. apply Z.gtb_lt in Hm. lia.
      * apply yields_next_month; [exact E | exact Hm|].
        apply IH.
        assert (m + 1 <= 12) by (rewrite Z.gtb_ltb in Hm; apply Z.ltb_ge in Hm; lia).
        lia.
    + now apply yields_stop.
Qed.

Lemma month_range_yields sy sm ey em : yields ey em sy sm (month_range sy sm ey em).
Proof. unfold month_range. now apply month_range_loop_yields. Qed.

(** What the generator yields from a month in 1..12: the months of the
    closed interval up to the end, each once, in ascending order. *)
Lemma yields_interval ey em y m l :
  yields ey em y m l ->
  1 <= m <= 12 ->
  (forall y' m',
     In (y', m') l <->
     1 <= m' <= 12 /\ tuple_le (y, m) (y', m') = true
     /\ tuple_le (y', m') (ey, em) = true)
  /\ StronglySorted tuple_lt l.
Proof.
  induction 1 as [y m Hstop | y m l Hle Hm Hy IH | y m l Hle Hm Hy IH];
    intros Hrange.
  - split; [|constructor].
    intros y' m'. split; [intros []|].
    intros (_ & H1 & H2).
    apply tuple_le_true in H1. apply tuple_le_true in H2.
    apply tuple_le_false in Hstop. simpl in *. lia.
  - rewrite Z.gtb_ltb in Hm. apply Z.ltb_ge in Hm.
    destruct IH as [IHin IHs]; [lia|].
    assert (Hle' := Hle). apply tuple_le_true in Hle'. simpl in Hle'.
    split.
    + intros y' m'. simpl. rewrite IHin, !tuple_le_true. simpl.
      split.
      * intros [[= <- <-]|(Hr & H1 & H2)]; lia.
      * intros (Hr & H1 & H2).
        destruct (decide ((y, m) = (y', m'))) as [Heq|Hne]; [now left|].
        right. assert (y <> y' \/ m <> m') by
          (destruct (decide (y = y')); [right; congruence | now left]).
        lia.
    + constructor; [exact IHs|].
      apply Forall_forall. intros [y' m'] Hin.
      apply list_elem_of_In, IHin in Hin. destruct Hin as (_ & H1 & _).
      apply tuple_le_true in H1. unfold tuple_lt. simpl in *. lia.
  - apply Z.gtb_lt in Hm.
    destruct IH as [IHin IHs]; [lia|].
    assert (Hle' := Hle). apply tuple_le_true in Hle'. simpl in Hle'.
    split.
    + intros y' m'. simpl. rewrite IHin, !tuple_le_true. simpl.
      split.
      * intros [[= <- <-]|(Hr & H1 & H2)]; lia.
      * intros (Hr & H1 & H2).
        destruct (decide ((y, m) = (y', m'))) as [Heq|Hne]; [now left|].
        right. assert (y <> y' \/ m <> m') by
          (destruct (decide (y = y')); [right; congruence | now left]).
        lia.
    + constructor; [exact IHs|].
      apply Forall_forall. intros [y' m'] Hin.
      apply list_elem_of_In, IHin in Hin. destruct Hin as (_ & H1 & _).
      apply tuple_le_true in H1. unfold tuple_lt. simpl in *. lia.
Qed.

Lemma sorted_NoDup (l : list (Z * Z)) : StronglySorted tuple_lt l -> NoDup l.
Proof.
  induction 1 as [|a l Hs IH Hall]; constructor; [|exact IH].
  intros Hin. rewrite Forall_forall in Hall.
  specialize (Hall a Hin). unfold tuple_lt in Hall. lia.
Qed.

(** What an iteration does to the state, whatever the exporter answers:
    it logs the skip of a month already there, or launches the exporter
    once and pauses, after which at most the month's own file is new. *)
Lemma iteration_cases args env ym st :
  (ym ∈ outfiles st
   /\ iteration args env ym st = Continue (emit (Skipping ym) st))
  \/ ((ym ∉ outfiles st)
      /\ exists st' lo hi reason,
           (iteration args env ym st = Continue st'
            \/ iteration args env ym st = Return 3 st')
           /\ trace st' = (trace st ++ [Exporting ym; Pause lo hi reason])%list
           /\ outfiles st ⊆ outfiles st'
           /\ outfiles st' ⊆ {[ym]} ∪ outfiles st).
Proof.
  destruct (decide (ym ∈ outfiles st)) as [Hin|Hnew].
  - left. split; [exact Hin | now apply iteration_skip].
  - right. split; [exact Hnew|].
    destruct (succeeded (run env ym)) eqn:Hok.
    + rewrite (iteration_success args env ym st Hnew Hok).
      eexists _, _, _, _. split; [now left|]. simpl.
      split; [reflexivity|]. split; set_solver.
    + unfold iteration, launch.
      rewrite bool_decide_eq_false_2 by exact Hnew.
      destruct ((returncode (run env ym) =? 0)
                && bool_decide (ym ∈ outfiles
                     {| outfiles := if wrote_outfile (run env ym)
                                    then {[ym]} ∪ outfiles st
                                    else outfiles st;
                        failures := failures st; ledger := ledger st;
                        trace := trace st ++ [Exporting ym] |})) eqn:Hc.
      * eexists _, _, _, _. split; [now left|]. simpl.
        rewrite <- app_assoc. split; [reflexivity|].
        destruct (wrote_outfile (run env ym)); split; set_solver.
      * destruct (5 <=? failures st + 1) eqn:Hfive; simpl; rewrite Hfive.
        -- eexists _, _, _, _. split; [now right|]. simpl.
           rewrite <- app_assoc. split; [reflexivity|].
           destruct (wrote_outfile (run env ym)); split; set_solver.
        -- eexists _, _, _, _. split; [now left|]. simpl.
           rewrite <- app_assoc. split; [reflexivity|].
           destruct (wrote_outfile (run env ym)); split; set_solver.
Qed.

(** The loop visits the months of its list in order, and stops early only
    with a non-zero exit code. *)
Lemma main_loop_visited args env months :
  forall st,
    exists done rest,
      months = (done ++ rest)%list
      /\ visited (trace (snd (main_loop args env months st)))
         = (visited (trace st) ++ done)%list
      /\ (fst (main_loop args env months st) = 0 -> rest = []).
Proof.
  induction months as [|ym months IH]; intros st; simpl.
  - exists [], []. split; [reflexivity|].
    split; [now rewrite app_nil_r | reflexivity].
  - destruct (iteration_cases args env ym st)
      as [[Hin ->]|(Hnew & st' & lo & hi & reason & [-> | ->] & Ht & _)].
    + destruct (IH (emit (Skipping ym) st)) as (done & rest & Hm & Hv & Hz).
      simpl in Hv. rewrite visited_app in Hv. simpl in Hv.
      exists (ym :: done), rest. split; [now rewrite Hm|].
      split; [|exact Hz]. rewrite Hv. now rewrite <- app_assoc.
    + destruct (IH st') as (done & rest & Hm & Hv & Hz).
      rewrite Ht, visited_app in Hv. simpl in Hv.
      exists (ym :: done), rest. split; [now rewrite Hm|].
      split; [|exact Hz]. rewrite Hv. now rewrite <- app_assoc.
    + exists [ym], months. simpl. rewrite Ht, visited_app. simpl.
      repeat split. discriminate.
Qed.

(** The exporter is launched only for months of the list whose output file
    is missing, at most once for each, and only the files of those months
    appear. *)
Lemma main_loop_exported args env months :
  forall st,
    exists new,
      exported (trace (snd (main_loop args env months st)))
      = (exported (trace st) ++ new)%list
      /\ (forall x, In x new -> In x months /\ x ∉ outfiles st)
      /\ (NoDup months -> NoDup new)
      /\ outfiles st ⊆ outfiles (snd (main_loop args env months st))
      /\ outfiles (snd (main_loop args env months st))
         ⊆ outfiles st ∪ list_to_set new.
Proof.
  induction months as [|ym months IH]; intros st; simpl.
  - exists []. rewrite app_nil_r. split; [reflexivity|].
    split; [intros x []|]. split; [intros _; constructor|].
    split; set_solver.
  - destruct (iteration_cases args env ym st)
      as [[Hin ->]|(Hnew & st' & lo & hi & reason & [-> | ->] & Ht & Hlo & Hhi)].
    + destruct (IH (emit (Skipping ym) st))
        as (new & He & Hmem & Hnd & Hsub & Hsup).
      simpl in He, Hmem, Hsub, Hsup.
      rewrite exported_app in He. simpl in He. rewrite app_nil_r in He.
      exists new. split; [exact He|]. split; [|split; [|split]].
      * intros x Hx. destruct (Hmem x Hx). split; [now right | assumption].
      * intros Hd. apply Hnd. now apply NoDup_cons in Hd.
      * exact Hsub.
      * exact Hsup.
    + destruct (IH st') as (new & He & Hmem & Hnd & Hsub & Hsup).
      rewrite Ht, exported_app in He. simpl in He.
      rewrite <- app_assoc in He. simpl in He.
      exists (ym :: new). split; [exact He|]. split; [|split; [|split]].
      * intros x [<-|Hx]; [split; [now left | exact Hnew]|].
        destruct (Hmem x Hx) as [Hin Hout].
        split; [now right|]. intros Hc. apply Hout. now apply Hlo.
      * intros Hd. apply NoDup_cons in Hd. destruct Hd as [Hnotin Hd'].
        apply NoDup_cons. split; [|now apply Hnd].
        intros Hx. apply Hnotin. apply list_elem_of_In.
        apply (Hmem ym). now apply list_elem_of_In.
      * clear - Hlo Hsub. set_solver.
      * clear - Hhi Hsup. set_unfold. intros x Hx.
        specialize (Hsup x Hx). specialize (Hhi x). tauto.
    + exists [ym]. simpl. rewrite Ht, exported_app. simpl.
      split; [reflexivity|]. split; [|split; [|split]].
      * intros x [<-|[]]. split; [now left | exact Hnew].
      * intros _. apply NoDup_singleton.
      * exact Hlo.
      * clear - Hhi. set_unfold. intros x Hx.
        specialize (Hhi x Hx). tauto.
Qed.

(** Months whose output file exists are passed over: the first launch of
    the exporter is for the first month without one. *)
Lemma main_loop_resume args env pre ym post :
  forall st,
    (forall x, In x pre -> x ∈ outfiles st) ->
    ym ∉ outfiles st ->
    exists more,
      exported (trace (snd (main_loop args env (pre ++ ym :: post) st)))
      = (exported (trace st) ++ ym :: more)%list.
Proof.
  induction pre as [|p pre IH]; intros st Hpre Hnew; simpl.
  - destruct (iteration_cases args env ym st)
      as [[Hin _]|(_ & st' & lo & hi & reason & [-> | ->] & Ht & _)];
      [contradiction| |].
    + destruct (main_loop_exported args env post st') as (new & He & _).
      exists new. rewrite He, Ht, exported_app. simpl.
      now rewrite <- app_assoc.
    + exists []. simpl. now rewrite Ht, exported_app.
  - rewrite (iteration_skip args env p st) by (apply Hpre; now left).
    destruct (IH (emit (Skipping p) st)) as (more & He).
    + intros x Hx. simpl. apply Hpre. now right.
    + exact Hnew.
    + exists more. rewrite He. simpl. rewrite exported_app. simpl.
      now rewrite app_nil_r.
Qed.

(** C7, as worded, does not hold for every run: when the circuit breaker
    trips, the months after the fifth consecutive failure are not visited.
    Over January to June 2020, with nothing on disk and every export
    failing, the run ends with exit code 3 after May; June is in the range
    and is never visited. *)
Lemma breaker_cuts_the_range_short :
  let r := main (default_args 2020 1 2020 6) (scripted [] (2020, 1)) ∅ "" in
  fst r = 3
  /\ month_range 2020 1 2020 6
     = [(2020, 1); (2020, 2); (2020, 3); (2020, 4); (2020, 5); (2020, 6)]
  /\ visited (trace (snd r))
     = [(2020, 1); (2020, 2); (2020, 3); (2020, 4); (2020, 5)]
  /\ visited (trace (snd r)) <> month_range 2020 1 2020 6.
Proof.
  vm_compute. repeat split; try reflexivity. discriminate.
Qed.

(** C7 (amended): for a range whose start month is in 1..12, the month
    generator stops and yields exactly the months (year, month in 1..12)
    of the closed interval from start to end, in strictly ascending
    order.  The batch driver visits these months in that order, all of
    them when the run ends with exit code 0, and the months up to the one
    at which the circuit breaker trips otherwise.  It never launches the
    exporter for a month whose output file exists when the run starts, it
    launches it at most once for any month, the only output files that
    appear are those of months it launched the exporter for, and the first
    launch is for the first month of the range without an output file. *)
Theorem batch_visits_range_in_order :
  forall (args : Args) (env : Env) (existing : gset (Z * Z)) (log : string),
    1 <= start_month args <= 12 ->
    let months :=
      month_range (start_year args) (start_month args)
        (end_year args) (end_month args) in
    let r := main args env existing log in
    yields (end_year args) (end_month args)
      (start_year args) (start_month args) months
    /\ (forall y m,
          In (y, m) months <->
          1 <= m <= 12
          /\ tuple_le (start_year args, start_month args) (y, m) = true
          /\ tuple_le (y, m) (end_year args, end_month args) = true)
    /\ StronglySorted tuple_lt months
    /\ (exists rest,
          months = (visited (trace (snd r)) ++ rest)%list
          /\ (fst r = 0 -> rest = []))
    /\ (forall ym, In ym (exported (trace (snd r))) ->
          In ym months /\ ym ∉ existing)
    /\ NoDup (exported (trace (snd r)))
    /\ existing ⊆ outfiles (snd r)
    /\ outfiles (snd r) ⊆ existing ∪ list_to_set (exported (trace (snd r)))
    /\ (forall pre ym post,
          months = (pre ++ ym :: post)%list ->
          (forall x, In x pre -> x ∈ existing) ->
          ym ∉ existing ->
          exists more, exported (trace (snd r)) = ym :: more).
Proof.
  intros args env existing log Hstart months r.
  assert (Hy := month_range_yields (start_year args) (start_month args)
                  (end_year args) (end_month args)).
  destruct (yields_interval _ _ _ _ _ Hy Hstart) as [Hin Hsorted].
  set (st0 := {| outfiles := existing; failures := 0; ledger := log;
                 trace := [] |}).
  destruct (main_loop_visited args env months st0)
    as (done & rest & Hm & Hv & Hz).
  destruct (main_loop_exported args env months st0)
    as (new & He & Hmem & Hnd & Hsub & Hsup).
  change (main_loop args env months st0) with r in Hv, Hz, He, Hsub, Hsup.
  simpl in Hv, He, Hmem, Hsub, Hsup.
  split; [exact Hy|]. split; [exact Hin|]. split; [exact Hsorted|].
  split; [|split; [|split; [|split; [|split]]]].
  - exists rest. rewrite Hv. split; [exact Hm | exact Hz].
  - rewrite He. exact Hmem.
  - rewrite He. apply Hnd. now apply sorted_NoDup.
  - exact Hsub.
  - rewrite He. exact Hsup.
  - intros pre ym post Hsplit Hpre Hnew.
    destruct (main_loop_resume args env pre ym post st0 Hpre Hnew)
      as (more & Hmore).
    exists more. unfold r, main. fold months. rewrite Hsplit. exact Hmore.
Qed.

Lemma batch_visits_range_in_order_witness :
  1 <= start_month (default_args 2020 1 2020 6) <= 12
  /\ StronglySorted tuple_lt (month_range 2020 1 2020 6)
  /\ NoDup (exported (trace (snd (main (default_args 2020 1 2020 6)
                                    (scripted [] (2020, 1)) ∅ "")))).
Proof.
  assert (H : 1 <= start_month (default_args 2020 1 2020 6) <= 12)
    by (simpl; lia).
  split; [exact H|].
  destruct (batch_visits_range_in_order (default_args 2020 1 2020 6)
              (scripted [] (2020, 1)) ∅ "" H)
    as (_ & _ & Hs & _ & _ & Hn & _).
  split; [exact Hs | exact Hn].
Defined.

End BatchSpec.

(* ===================================================================== *)
(** * More on the retry loop *)
(* ===================================================================== *)

Module RetrySpec.
Import Text Downloader Exporter.

Lemma map_seq_from {A} (f : nat -> A) n :
  forall a, map f (seq a n) = map (fun i => f (a + i)%nat) (seq 0 n).
Proof.
  revert f. induction n as [|n IH]; intros f a; [reflexivity|].
  simpl. rewrite Nat.add_0_r. f_equal.
  rewrite (IH f (S a)), (IH (fun i => f (a + i)%nat) 1%nat).
  apply List.map_ext. intros i. f_equal. lia.
Qed.

Lemma range_app lo mid hi :
  lo <= mid <= hi -> range lo hi = (range lo mid ++ range mid hi)%list.
Proof.
  intros H. unfold range.
  replace (Z.to_nat (hi - lo))
    with (Z.to_nat (mid - lo) + Z.to_nat (hi - mid))%nat by lia.
  rewrite seq_app, map_app. f_equal.
  rewrite map_seq_from. apply List.map_ext. intros i. lia.
Qed.

(** The loop over attempts none of which settles. *)
Lemma attempts_fruitless method target todo :
  forall w,
    (forall i, (i < length todo)%nat ->
       settled (remote w (sent w + i)) = None) ->
    attempts method target todo w =
    (None,
     {| remote := remote w; sent := (sent w + length todo)%nat;
        trace := trace w ++ fruitless method target todo |}).
Proof.
  induction todo as [|a todo IH]; intros w H.
  - simpl. rewrite Nat.add_0_r, app_nil_r. now destruct w.
  - assert (H0 := H 0%nat ltac:(simpl; lia)). rewrite Nat.add_0_r in H0.
    assert (Hnext :
      attempts method target (a :: todo) w
      = attempts method target todo
          (backoff_sleep a (snd (session_request method target w)))).
    { simpl. unfold settled in H0.
      destruct (remote w (sent w)) as [r|e]; [|reflexivity].
      now destruct (retry_status (status_code r)). }
    rewrite Hnext, IH.
    + simpl. f_equal. f_equal; [lia|].
      now rewrite <- !app_assoc.
    + intros i Hi. simpl.
      replace (S (sent w + i)) with (sent w + S i)%nat by lia.
      apply H. simpl. lia.
Qed.

(** The loop up to the first attempt that settles. *)
Lemma attempts_settled method target pre a post r :
  forall w,
    (forall i, (i < length pre)%nat ->
       settled (remote w (sent w + i)) = None) ->
    settled (remote w (sent w + length pre)) = Some r ->
    attempts method target (pre ++ a :: post) w =
    (Some r,
     {| remote := remote w; sent := S (sent w + length pre);
        trace := trace w ++ fruitless method target pre
                 ++ [Requested method target] |}).
Proof.
  induction pre as [|b pre IH]; intros w H Hr.
  - simpl in *. rewrite Nat.add_0_r in *. unfold settled in Hr.
    destruct (remote w (sent w)) as [r'|e]; [|discriminate].
    destruct (retry_status (status_code r')); [discriminate|].
    now injection Hr as ->.
  - assert (H0 := H 0%nat ltac:(simpl; lia)). rewrite Nat.add_0_r in H0.
    assert (Hnext :
      attempts method target ((b :: pre) ++ a :: post) w
      = attempts method target (pre ++ a :: post)
          (backoff_sleep b (snd (session_request method target w)))).
    { simpl. unfold settled in H0.
      destruct (remote w (sent w)) as [r'|e]; [|reflexivity].
      now destruct (retry_status (status_code r')). }
    rewrite Hnext, IH.
    + simpl. f_equal. f_equal; [lia|].
      now rewrite <- !app_assoc.
    + intros i Hi. simpl.
      replace (S (sent w + i)) with (sent w + S i)%nat by lia.
      apply H. simpl. lia.
    + simpl. replace (S (sent w + length pre))
        with (sent w + S (length pre))%nat by lia.
      exact Hr.
Qed.

Lemma range_length_from_one k : length (range 1 (Z.of_nat k + 1)) = k.
Proof. rewrite DownloaderSpec.range_length. lia. Qed.

(** What the loop does with a reply, by the status it carries. *)
Lemma retry_status_spec code :
  retry_status code = true <-> In code [429; 500; 502; 503; 504].
Proof.
  unfold retry_status. rewrite !orb_true_iff, !Z.eqb_eq. simpl.
  intuition congruence.
Qed.

Lemma settled_none rp : settled rp = None <-> retried rp.
Proof.
  destruct rp as [r|e]; unfold settled, retried; [|tauto].
  rewrite <- retry_status_spec.
  destruct (retry_status (status_code r)); split; congruence.
Qed.

Lemma settled_some rp r :
  settled rp = Some r <->
  rp = Replied r /\ ~ In (status_code r) [429; 500; 502; 503; 504].
Proof.
  destruct rp as [r'|e]; unfold settled.
  - rewrite <- (retry_status_spec (status_code r)).
    destruct (retry_status (status_code r')) eqn:E; split.
    + discriminate.
    + intros [[= ->] H]. now contradiction H.
    + intros [= ->]. split; [reflexivity|]. rewrite E. discriminate.
    + intros [[= ->] _]. reflexivity.
  - split; [discriminate | intros [[=] _]].
Qed.

(** X1: if the replies to the first [k] requests are all failures the
    loop retries (a raised request exception, or a status among 429, 500,
    502, 503, 504), [k] is below [max_retries], the [k] back-off delays
    can be slept, and the next reply is a response with any other status,
    then that response is returned, after exactly [k + 1] requests and
    [k] back-offs, numbered 1 to [k]; the last request is not followed by
    a sleep. *)
Theorem request_with_retries_first_settled :
  forall (cfg : RateLimitConfig) (method target : string) (w : World)
         (k : nat) (r : Response),
    Z.of_nat k < max_retries cfg ->
    backs_off cfg (Z.of_nat k) ->
    (forall i, (i < k)%nat -> retried (remote w (sent w + i))) ->
    remote w (sent w + k) = Replied r ->
    ~ In (status_code r) [429; 500; 502; 503; 504] ->
    request_with_retries method target cfg w
    = (inr r,
       {| remote := remote w; sent := S (sent w + k);
          trace := trace w
                   ++ flat_map
                        (fun a => [Requested method target; Backoff a])
                        (range 1 (Z.of_nat k + 1))
                   ++ [Requested method target] |}).
Proof.
  intros cfg method target w k r Hk _ Hpre Hr Hst.
  unfold request_with_retries.
  rewrite (range_app 1 (Z.of_nat k + 1)) by lia.
  rewrite (DownloaderSpec.range_cons (Z.of_nat k + 1)) by lia.
  rewrite (attempts_settled method target _ _ _ r).
  - now rewrite range_length_from_one.
  - rewrite range_length_from_one. intros i Hi. now apply settled_none, Hpre.
  - rewrite range_length_from_one. now apply settled_some.
Qed.

Lemma request_with_retries_first_settled_witness :
  Z.of_nat 2 < max_retries default_config /\
  fst (request_with_retries "POST" "https://www.dreamwidth.org/export"
         default_config (fresh_world flaky_remote))
  = inr (status_response 404).
Proof.
  assert (H : Z.of_nat 2 < max_retries default_config) by (simpl; lia).
  split; [exact H|].
  rewrite (request_with_retries_first_settled default_config "POST"
             "https://www.dreamwidth.org/export" (fresh_world flaky_remote)
             2 (status_response 404) H).
  - reflexivity.
  - apply (DownloaderSpec.backs_off_fewer default_config 6);
      [simpl; lia | exact DownloaderSpec.default_config_backs_off].
  - intros [|[|i]] Hi; [exact I | simpl; tauto | lia].
  - reflexivity.
  - simpl. intros [H'|[H'|[H'|[H'|[H'|[]]]]]]; discriminate H'.
Defined.

(** X2: if every reply to the first [max_retries] requests is a failure
    the loop retries, whether a raised request exception or a status
    among 429, 500, 502, 503, 504, and the back-off delays can be slept,
    the call raises the error that names the number of attempts, the
    method and the URL, after exactly [max_retries] requests, each
    followed by its back-off; with [max_retries <= 0] it raises without
    sending anything. *)
Theorem request_with_retries_exhausted :
  forall (cfg : RateLimitConfig) (method target : string) (w : World),
    backs_off cfg (max_retries cfg) ->
    (forall i, Z.of_nat i < max_retries cfg ->
       retried (remote w (sent w + i))) ->
    request_with_retries method target cfg w
    = (inl (RuntimeError
              ("Failed after " +:+ str (max_retries cfg) +:+ " attempts: "
               +:+ method +:+ " " +:+ target)),
       {| remote := remote w;
          sent := (sent w + Z.to_nat (max_retries cfg))%nat;
          trace := trace w
                   ++ flat_map
                        (fun a => [Requested method target; Backoff a])
                        (range 1 (max_retries cfg + 1)) |})
    /\ (max_retries cfg <= 0 ->
        request_with_retries method target cfg w
        = (inl (RuntimeError
                  ("Failed after " +:+ str (max_retries cfg) +:+ " attempts: "
                   +:+ method +:+ " " +:+ target)), w)).
Proof.
  intros cfg method target w _ H.
  assert (Hrun :
    request_with_retries method target cfg w
    = (inl (RuntimeError (exhausted_message cfg method target)),
       {| remote := remote w;
          sent := (sent w + Z.to_nat (max_retries cfg))%nat;
          trace := trace w
                   ++ fruitless method target (range 1 (max_retries cfg + 1)) |})).
  { unfold request_with_retries. rewrite attempts_fruitless.
    - rewrite DownloaderSpec.range_length. do 3 f_equal. lia.
    - intros i Hi. apply settled_none, H.
      rewrite DownloaderSpec.range_length in Hi. lia. }
  split; [exact Hrun|].
  intros Hle. rewrite Hrun. f_equal. unfold range.
  replace (Z.to_nat (max_retries cfg + 1 - 1)) with 0%nat by lia.
  replace (Z.to_nat (max_retries cfg)) with 0%nat by lia.
  simpl. rewrite Nat.add_0_r, app_nil_r. now destruct w.
Qed.

Lemma request_with_retries_exhausted_witness :
  backs_off default_config (max_retries default_config) /\
  (forall i, Z.of_nat i < max_retries default_config ->
     retried (remote (fresh_world unreachable_remote)
                (sent (fresh_world unreachable_remote) + i))) /\
  request_with_retries "GET" "https://www.dreamwidth.org/export"
    default_config (fresh_world unreachable_remote)
  = (inl (RuntimeError
            "Failed after 6 attempts: GET https://www.dreamwidth.org/export"),
     {| remote := unreachable_remote; sent := 6;
        trace := [Requested "GET" "https://www.dreamwidth.org/export"; Backoff 1;
                  Requested "GET" "https://www.dreamwidth.org/export"; Backoff 2;
                  Requested "GET" "https://www.dreamwidth.org/export"; Backoff 3;
                  Requested "GET" "https://www.dreamwidth.org/export"; Backoff 4;
                  Requested "GET" "https://www.dreamwidth.org/export"; Backoff 5;
                  Requested "GET" "https://www.dreamwidth.org/export"; Backoff 6]
     |}).
Proof.
  assert (H : forall i, Z.of_nat i < max_retries default_config ->
     retried (remote (fresh_world unreachable_remote)
                (sent (fresh_world unreachable_remote) + i)))
    by (intros i _; exact I).
  split; [exact DownloaderSpec.default_config_backs_off|].
  split; [exact H|].
  destruct (request_with_retries_exhausted default_config "GET"
              "https://www.dreamwidth.org/export"
              (fresh_world unreachable_remote)
              DownloaderSpec.default_config_backs_off H) as [-> _].
  reflexivity.
Defined.

(** The loop, whatever the remote end does. *)
Lemma attempts_never method target todo :
  forall w,
    remote (snd (attempts method target todo w)) = remote w
    /\ (sent w <= sent (snd (attempts method target todo w))
                <= sent w + length todo)%nat
    /\ (exists done,
          trace (snd (attempts method target todo w)) = (trace w ++ done)%list)
    /\ (fst (attempts method target todo w) = None ->
        sent (snd (attempts method target todo w)) = (sent w + length todo)%nat)
    /\ (forall r, fst (attempts method target todo w) = Some r ->
          retry_status (status_code r) = false
          /\ (sent w < sent (snd (attempts method target todo w)))%nat
          /\ remote w (sent (snd (attempts method target todo w)) - 1)
             = Replied r).
Proof.
  induction todo as [|a todo IH]; intros w.
  - simpl. split; [reflexivity|]. split; [lia|].
    split; [exists []; now rewrite app_nil_r|].
    split; [intros _; lia | discriminate].
  - assert (Hgo : forall res,
      res = attempts method target todo
              (backoff_sleep a (snd (session_request method target w))) ->
      remote (snd res) = remote w
      /\ (sent w <= sent (snd res) <= sent w + length (a :: todo))%nat
      /\ (exists done, trace (snd res) = (trace w ++ done)%list)
      /\ (fst res = None -> sent (snd res) = (sent w + length (a :: todo))%nat)
      /\ (forall r, fst res = Some r ->
            retry_status (status_code r) = false
            /\ (sent w < sent (snd res))%nat
            /\ remote w (sent (snd res) - 1) = Replied r)).
    { intros res ->.
      destruct (IH (backoff_sleep a (snd (session_request method target w))))
        as (Hrem & Hsent & [done Htr] & Hnone & Hsome).
      simpl in Hrem, Hsent, Hnone, Hsome.
      split; [exact Hrem|]. split; [simpl; lia|].
      split.
      { exists ([Requested method target; Backoff a] ++ done)%list.
        rewrite Htr. simpl. now rewrite <- !app_assoc. }
      split; [intros Hn; specialize (Hnone Hn); simpl; lia|].
      intros r Hr. destruct (Hsome r Hr) as (H1 & H2 & H3).
      split; [exact H1|]. split; [simpl in H2 |- *; lia | exact H3]. }
    simpl attempts.
    destruct (remote w (sent w)) as [r'|e] eqn:Hreply;
      [|now apply Hgo].
    destruct (retry_status (status_code r')) eqn:Hst; [now apply Hgo|].
    simpl. split; [reflexivity|]. split; [lia|].
    split; [now exists [Requested method target]|].
    split; [discriminate|].
    intros r Hr. injection Hr as <-.
    split; [exact Hst|]. split; [lia|]. now rewrite Nat.sub_0_r.
Qed.

(** X3: when the back-off delays can be slept, whatever the remote end
    answers, the call sends at most [max_retries] requests and only adds
    to the log of what was done; if it raises, the error is the one that
    names the number of attempts, the method and the URL, and it has sent
    exactly [max_retries] requests (none when that number is negative); a
    response it returns never has one of the statuses 429, 500, 502, 503,
    504, and is the answer to the last request sent. *)
Theorem request_with_retries_never :
  forall (cfg : RateLimitConfig) (method target : string) (w : World),
    backs_off cfg (max_retries cfg) ->
    let res := request_with_retries method target cfg w in
    remote (snd res) = remote w
    /\ (sent w <= sent (snd res) <= sent w + Z.to_nat (max_retries cfg))%nat
    /\ (exists done, trace (snd res) = (trace w ++ done)%list)
    /\ (forall e, fst res = inl e ->
          e = RuntimeError
                ("Failed after " +:+ str (max_retries cfg) +:+ " attempts: "
                 +:+ method +:+ " " +:+ target)
          /\ sent (snd res) = (sent w + Z.to_nat (max_retries cfg))%nat)
    /\ (forall r, fst res = inr r ->
          ~ In (status_code r) [429; 500; 502; 503; 504]
          /\ (sent w < sent (snd res))%nat
          /\ remote w (sent (snd res) - 1) = Replied r).
Proof.
  intros cfg method target w _. unfold request_with_retries.
  destruct (attempts_never method target (range 1 (max_retries cfg + 1)) w)
    as (Hrem & Hsent & Htr & Hnone & Hsome).
  rewrite DownloaderSpec.range_length in Hsent, Hnone.
  replace (Z.to_nat (max_retries cfg + 1 - 1))
    with (Z.to_nat (max_retries cfg)) in Hsent, Hnone by lia.
  destruct (attempts method target (range 1 (max_retries cfg + 1)) w)
    as [[r|] w'] eqn:Hrun; simpl in *.
  - split; [exact Hrem|]. split; [exact Hsent|]. split; [exact Htr|].
    split; [discriminate|].
    intros r0 H. injection H as <-.
    destruct (Hsome r eq_refl) as (Hst & Hlt & Hlast).
    split; [|now split].
    intros Hin. apply retry_status_spec in Hin. congruence.
  - split; [exact Hrem|]. split; [exact Hsent|]. split; [exact Htr|].
    split; [|discriminate].
    intros e H. injection H as <-. split; [reflexivity | now apply Hnone].
Qed.

Lemma request_with_retries_never_witness :
  backs_off default_config (max_retries default_config) /\
  forall r,
    fst (request_with_retries "GET" "https://www.dreamwidth.org/export"
           default_config (fresh_world flaky_remote)) = inr r ->
    ~ In (status_code r) [429; 500; 502; 503; 504].
Proof.
  split; [exact DownloaderSpec.default_config_backs_off|].
  intros r Hr.
  apply (proj2 (proj2 (proj2 (proj2
           (request_with_retries_never default_config "GET"
              "https://www.dreamwidth.org/export" (fresh_world flaky_remote)
              DownloaderSpec.default_config_backs_off)))) r Hr).
Defined.

End RetrySpec.

(* ===================================================================== *)
(** * The cookie sources *)
(* ===================================================================== *)

Module CookieSpec.
Import Text Downloader Exporter.

(** ** Splitting and stripping *)

Lemma split_app c a b :
  split c (a +:+ String c b) = (split c a ++ split c b)%list.
Proof.
  induction a as [|x a IH].
  - simpl. now rewrite Ascii.eqb_refl.
  - change (String x a +:+ String c b) with (String x (a +:+ String c b)).
    simpl. destruct (Ascii.eqb x c).
    + now rewrite IH.
    + rewrite IH. destruct (split c a) as [|f fs] eqn:Hs; [|reflexivity].
      now apply BatchSpec.split_nonempty in Hs.
Qed.

Lemma other_than_spec c x : other_than c x = true -> Ascii.eqb x c = false.
Proof. unfold other_than. now rewrite negb_true_iff. Qed.

Lemma contains_char_false c s :
  contains (String c EmptyString) s = false <->
  forall_chars (other_than c) s = true.
Proof.
  induction s as [|x s IH]; simpl.
  - split; reflexivity.
  - rewrite orb_false_iff, andb_true_iff, IH. unfold other_than.
    rewrite negb_true_iff, (Ascii.eqb_sym c x).
    destruct (Ascii.eqb x c), s; simpl; tauto.
Qed.

Lemma forall_chars_lstrip P s :
  forall_chars P s = true -> forall_chars P (lstrip s) = true.
Proof.
  induction s as [|x s IH]; [reflexivity|]. intros H.
  simpl. destruct (isspace x); [|exact H].
  simpl in H. apply andb_true_iff in H. now apply IH.
Qed.

Lemma forall_chars_rstrip P s :
  forall_chars P s = true -> forall_chars P (rstrip s) = true.
Proof.
  induction s as [|x s IH]; [reflexivity|]. intros H.
  simpl in H. apply andb_true_iff in H as [Hx Hs]. specialize (IH Hs).
  simpl. destruct (rstrip s) as [|y r].
  - destruct (isspace x); [reflexivity|]. simpl. now rewrite Hx.
  - simpl in *. now rewrite Hx.
Qed.

Lemma forall_chars_strip P s :
  forall_chars P s = true -> forall_chars P (strip s) = true.
Proof. intros H. now apply forall_chars_rstrip, forall_chars_lstrip. Qed.

Lemma forall_chars_split P c s :
  forall_chars P s = true ->
  forall p, In p (split c s) -> forall_chars P p = true.
Proof.
  induction s as [|x s IH]; intros H p Hp.
  - simpl in Hp. destruct Hp as [<-|[]]. reflexivity.
  - simpl in H. apply andb_true_iff in H as [Hx Hs]. simpl in Hp.
    destruct (Ascii.eqb x c).
    + destruct Hp as [<-|Hp]; [reflexivity | now apply IH].
    + destruct (split c s) as [|f fs].
      * destruct Hp as [<-|[]]. simpl. now rewrite Hx.
      * destruct Hp as [<-|Hp].
        -- simpl. rewrite Hx. apply (IH Hs). now left.
        -- apply (IH Hs). now right.
Qed.

Lemma lstrip_app_stop k c v :
  isspace c = false -> lstrip (k +:+ String c v) = lstrip k +:+ String c v.
Proof.
  intros Hc. induction k as [|x k IH].
  - simpl. now rewrite Hc.
  - change (String x k +:+ String c v) with (String x (k +:+ String c v)).
    simpl. now destruct (isspace x).
Qed.

Lemma rstrip_stop c v :
  isspace c = false -> rstrip (String c v) = String c (rstrip v).
Proof. intros Hc. simpl. destruct (rstrip v); [now rewrite Hc | reflexivity]. Qed.

Lemma rstrip_app_stop a c v :
  isspace c = false -> rstrip (a +:+ String c v) = a +:+ String c (rstrip v).
Proof.
  intros Hc. induction a as [|x a IH].
  - now apply rstrip_stop.
  - change (String x a +:+ String c v) with (String x (a +:+ String c v)).
    change (String x a +:+ String c (rstrip v))
      with (String x (a +:+ String c (rstrip v))).
    simpl. rewrite IH. now destruct a.
Qed.

Lemma lstrip_idem s : lstrip (lstrip s) = lstrip s.
Proof.
  induction s as [|x s IH]; [reflexivity|].
  simpl. destruct (isspace x) eqn:Hx; [exact IH|]. simpl. now rewrite Hx.
Qed.

Lemma rstrip_idem s : rstrip (rstrip s) = rstrip s.
Proof.
  induction s as [|x s IH]; [reflexivity|].
  simpl. destruct (rstrip s) as [|y r] eqn:Hr.
  - destruct (isspace x) eqn:Hx; [reflexivity|]. simpl. now rewrite Hx.
  - change (rstrip (String x (String y r))) with
      (match rstrip (String y r) with
       | EmptyString => if isspace x then EmptyString else String x EmptyString
       | r' => String x r'
       end).
    now rewrite IH.
Qed.

Lemma lstrip_rstrip s : lstrip (rstrip s) = rstrip (lstrip s).
Proof.
  induction s as [|x s IH]; [reflexivity|].
  destruct (isspace x) eqn:Hx.
  - change (lstrip (String x s)) with (if isspace x then lstrip s else String x s).
    rewrite Hx, <- IH. simpl. destruct (rstrip s) as [|y r].
    + now rewrite Hx.
    + change (lstrip (String x (String y r)))
        with (if isspace x then lstrip (String y r) else String x (String y r)).
      now rewrite Hx.
  - change (lstrip (String x s)) with (if isspace x then lstrip s else String x s).
    rewrite Hx, (rstrip_stop x s Hx). simpl. now rewrite Hx.
Qed.

Lemma strip_lstrip s : strip (lstrip s) = strip s.
Proof. unfold strip. now rewrite lstrip_idem. Qed.

Lemma strip_rstrip s : strip (rstrip s) = strip s.
Proof. unfold strip. now rewrite lstrip_rstrip, rstrip_idem. Qed.

Lemma split_once_app c a b :
  forall_chars (other_than c) a = true ->
  split_once c (a +:+ String c b) = (a, b).
Proof.
  induction a as [|x a IH]; intros H.
  - simpl. now rewrite Ascii.eqb_refl.
  - simpl in H. apply andb_true_iff in H as [Hx Ha].
    change (String x a +:+ String c b) with (String x (a +:+ String c b)).
    simpl. rewrite (other_than_spec _ _ Hx), (IH Ha). reflexivity.
Qed.

(** ** The cookie header *)

Lemma header_cookies_cons p rest acc :
  header_cookies (p :: rest) acc
  = if negb (truthy (Some (strip p))) || negb (contains "=" (strip p))
    then header_cookies rest acc
    else header_cookies rest
           (<[strip (fst (split_once "=" (strip p)))
              := strip (snd (split_once "=" (strip p)))]> acc).
Proof.
  change (header_cookies (p :: rest) acc)
    with (if negb (truthy (Some (strip p))) || negb (contains "=" (strip p))
          then header_cookies rest acc
          else let '(k, v) := split_once "=" (strip p) in
               header_cookies rest (<[strip k := strip v]> acc)).
  now destruct (split_once "=" (strip p)).
Qed.

Lemma header_cookies_app p1 p2 :
  forall acc,
    header_cookies (p1 ++ p2) acc = header_cookies p2 (header_cookies p1 acc).
Proof.
  induction p1 as [|p p1 IH]; intros acc; [reflexivity|].
  rewrite <- app_comm_cons, !header_cookies_cons.
  destruct (negb _ || negb _); apply IH.
Qed.

Lemma header_cookies_union parts :
  forall acc, header_cookies parts acc = header_cookies parts ∅ ∪ acc.
Proof.
  induction parts as [|p parts IH]; intros acc.
  - simpl. now rewrite (left_id_L ∅ (∪)).
  - rewrite !header_cookies_cons.
    destruct (negb _ || negb _); [apply IH|].
    rewrite (IH (<[_ := _]> acc)), (IH (<[_ := _]> ∅)).
    rewrite <- (assoc_L (∪)). f_equal.
    now rewrite <- insert_union_l, (left_id_L ∅ (∪)).
Qed.

Lemma header_cookies_no_equals parts :
  (forall p, In p parts -> forall_chars (other_than "=") p = true) ->
  forall acc, header_cookies parts acc = acc.
Proof.
  induction parts as [|p parts IH]; intros H acc; [reflexivity|].
  rewrite header_cookies_cons.
  assert (Hp : contains "=" (strip p) = false).
  { apply contains_char_false, forall_chars_strip, H. now left. }
  rewrite Hp, orb_true_r. apply IH. intros q Hq. apply H. now right.
Qed.

(** X4: a header of one pair [k=v], where [k] holds neither [;] nor [=]
    and [v] holds no [;], is parsed to the single cookie whose name is
    [k] and whose value is [v], both without their surrounding white
    space; [v] may itself hold [=] signs, and [k] may be empty. *)
Theorem parse_cookie_header_pair :
  forall k v : string,
    contains ";" k = false -> contains "=" k = false ->
    contains ";" v = false ->
    parse_cookie_header (k +:+ "=" +:+ v) = {[ strip k := strip v ]}.
Proof.
  intros k v Hk1 Hk2 Hv. unfold parse_cookie_header.
  apply contains_char_false in Hk1, Hk2, Hv.
  rewrite (BatchSpec.split_free (other_than ";") ";").
  2: { apply other_than_spec. }
  2: { rewrite BatchSpec.forall_chars_app, Hk1. simpl. exact Hv. }
  assert (Hs : strip (k +:+ "=" +:+ v) = lstrip k +:+ String "=" (rstrip v)).
  { unfold strip. change ("=" +:+ v) with (String "=" v).
    rewrite lstrip_app_stop by reflexivity.
    now rewrite rstrip_app_stop by reflexivity. }
  rewrite header_cookies_cons, Hs.
  assert (Hc : contains "=" (lstrip k +:+ String "=" (rstrip v)) = true).
  { apply TextFacts.contains_spec. now exists (lstrip k), (rstrip v). }
  rewrite Hc.
  assert (Ht : truthy (Some (lstrip k +:+ String "=" (rstrip v))) = true)
    by now destruct (lstrip k).
  rewrite Ht.
  rewrite split_once_app by now apply forall_chars_lstrip.
  simpl. now rewrite strip_lstrip, strip_rstrip, insert_empty.
Qed.

Lemma parse_cookie_header_pair_witness :
  contains ";" " ljuniq " = false /\ contains "=" " ljuniq " = false /\
  contains ";" " abc=:12=  " = false /\
  parse_cookie_header " ljuniq = abc=:12=  " = {[ "ljuniq" := "abc=:12=" ]}.
Proof.
  split; [reflexivity|]. split; [reflexivity|]. split; [reflexivity|].
  exact (parse_cookie_header_pair " ljuniq " " abc=:12=  "
           eq_refl eq_refl eq_refl).
Defined.

(** X5: the cookies of a header [h1;h2] are the cookies of [h2] together
    with those cookies of [h1] whose names [h2] does not give again: a
    name given twice keeps its last value. *)
Theorem parse_cookie_header_last_wins :
  forall h1 h2 : string,
    parse_cookie_header (h1 +:+ ";" +:+ h2)
    = parse_cookie_header h2 ∪ parse_cookie_header h1.
Proof.
  intros h1 h2. unfold parse_cookie_header.
  change (";" +:+ h2) with (String ";" h2).
  now rewrite split_app, header_cookies_app, header_cookies_union.
Qed.

(** X6: a header in which no [=] occurs gives no cookie at all, however
    many segments it has; in particular the empty header gives none. *)
Theorem parse_cookie_header_without_pairs :
  forall h : string,
    contains "=" h = false -> parse_cookie_header h = ∅.
Proof.
  intros h H. unfold parse_cookie_header.
  apply header_cookies_no_equals. intros p Hp.
  apply (forall_chars_split _ ";" h); [|exact Hp].
  now apply contains_char_false.
Qed.

Lemma parse_cookie_header_without_pairs_witness :
  contains "=" "Secure; HttpOnly;; " = false /\
  parse_cookie_header "Secure; HttpOnly;; " = ∅.
Proof.
  split; [reflexivity|].
  exact (parse_cookie_header_without_pairs "Secure; HttpOnly;; " eq_refl).
Defined.

(** ** The cookie file *)

Lemma file_cookies_cons domain line rest acc :
  file_cookies domain (line :: rest) acc
  = if carries_cookie domain line
    then file_cookies domain rest
           (<[cookie_name line := cookie_value line]> acc)
    else file_cookies domain rest acc.
Proof.
  unfold carries_cookie, cookie_name, cookie_value.
  change (file_cookies domain (line :: rest) acc)
    with (if negb (truthy (Some line)) || startswith "#" line
          then file_cookies domain rest acc
          else match split "009" line with
               | p0 :: _ :: _ :: _ :: _ :: p5 :: p6 :: _ =>
                   if contains domain p0
                   then file_cookies domain rest (<[p5 := p6]> acc)
                   else file_cookies domain rest acc
               | _ => file_cookies domain rest acc
               end).
  destruct (truthy (Some line)); [|reflexivity].
  destruct (startswith "#" line); [reflexivity|].
  destruct (split "009" line) as [|p0 [|p1 [|p2 [|p3 [|p4 [|p5 [|p6 tl]]]]]]];
    reflexivity.
Qed.

Lemma file_cookies_app domain l1 l2 :
  forall acc,
    file_cookies domain (l1 ++ l2) acc
    = file_cookies domain l2 (file_cookies domain l1 acc).
Proof.
  induction l1 as [|l l1 IH]; intros acc; [reflexivity|].
  rewrite <- app_comm_cons, !file_cookies_cons.
  destruct (carries_cookie domain l); apply IH.
Qed.

Lemma file_cookies_other domain k ls :
  (forall l, In l ls -> carries_cookie domain l = true -> cookie_name l <> k) ->
  forall acc, file_cookies domain ls acc !! k = acc !! k.
Proof.
  induction ls as [|l ls IH]; intros H acc; [reflexivity|].
  rewrite file_cookies_cons.
  assert (Hrest : forall l', In l' ls -> carries_cookie domain l' = true ->
                    cookie_name l' <> k)
    by (intros l' Hl'; apply H; now right).
  destruct (carries_cookie domain l) eqn:Hc; [|now apply IH].
  rewrite (IH Hrest). apply lookup_insert_ne. apply H; [now left | exact Hc].
Qed.

Lemma file_cookies_sound domain ls :
  forall acc k v,
    file_cookies domain ls acc !! k = Some v ->
    acc !! k = Some v
    \/ exists line, In line ls /\ carries_cookie domain line = true
                    /\ cookie_name line = k /\ cookie_value line = v.
Proof.
  induction ls as [|l ls IH]; intros acc k v H; [now left|].
  rewrite file_cookies_cons in H.
  destruct (carries_cookie domain l) eqn:Hc.
  - apply IH in H as [H | (line & Hin & Hl)].
    + destruct (decide (cookie_name l = k)) as [Hk|Hk].
      * rewrite Hk, lookup_insert_eq in H. injection H as <-.
        right. exists l. repeat split; [now left | exact Hc | exact Hk].
      * rewrite lookup_insert_ne in H by exact Hk. now left.
    + right. exists line. split; [now right | exact Hl].
  - apply IH in H as [H | (line & Hin & Hl)]; [now left|].
    right. exists line. split; [now right | exact Hl].
Qed.

(** X7: loading a cookie file that does not exist raises the
    file-not-found error naming the path; loading a file none of whose
    lines carries a cookie for the site (a line that is not empty, not a
    [#] comment, has at least seven tab-separated fields and names the
    site in its first field) raises a runtime error; and a load that
    succeeds never gives an empty set: every cookie it gives is the sixth
    and seventh field of such a line of the file. *)
Theorem load_netscape_cookie_file_sound :
  forall (files : string -> option (list string)) (path : string),
    (files path = None ->
     load_netscape_cookie_file files path
     = inl (FileNotFoundError ("Cookie file not found: " +:+ path))) /\
    (forall lines,
       files path = Some lines ->
       (forall line, In line lines ->
          carries_cookie "dreamwidth.org" line = false) ->
       exists msg,
         load_netscape_cookie_file files path = inl (RuntimeError msg)) /\
    (forall cookies,
       load_netscape_cookie_file files path = inr cookies ->
       cookies <> ∅ /\
       exists lines,
         files path = Some lines /\
         forall k v,
           cookies !! k = Some v ->
           exists line,
             In line lines /\ carries_cookie "dreamwidth.org" line = true
             /\ cookie_name line = k /\ cookie_value line = v).
Proof.
  intros files path. unfold load_netscape_cookie_file.
  split; [intros ->; reflexivity|]. split.
  - intros lines -> Hnone.
    assert (Hempty : file_cookies "dreamwidth.org" lines ∅ = ∅).
    { apply map_eq. intros k. rewrite file_cookies_other; [reflexivity|].
      intros l Hl Hc. rewrite (Hnone l Hl) in Hc. discriminate. }
    rewrite Hempty, bool_decide_eq_true_2 by reflexivity. now eexists.
  - intros cookies. destruct (files path) as [lines|]; [|discriminate].
    case_bool_decide as Hne; [discriminate|].
    intros H. injection H as <-. split; [exact Hne|].
    exists lines. split; [reflexivity|]. intros k v Hkv.
    apply file_cookies_sound in Hkv as [Hkv|Hkv]; [|exact Hkv].
    now rewrite lookup_empty in Hkv.
Qed.

Lemma load_netscape_cookie_file_sound_witness :
  one_cookie_file "missing.txt" = None /\
  load_netscape_cookie_file one_cookie_file "missing.txt"
  = inl (FileNotFoundError "Cookie file not found: missing.txt").
Proof.
  split; [reflexivity|].
  destruct (load_netscape_cookie_file_sound one_cookie_file "missing.txt")
    as [H _].
  exact (H eq_refl).
Defined.

(** X8: if a line of the cookie file carries a cookie for the site and no
    later line carries one of the same name, the load succeeds and gives
    that name the value of that line: of two lines for one name the later
    wins, and lines for other sites, comments and short lines change
    nothing. *)
Theorem load_netscape_cookie_file_last_line :
  forall (files : string -> option (list string)) (path : string)
         (pre : list string) (line : string) (post : list string),
    files path = Some (pre ++ line :: post)%list ->
    carries_cookie "dreamwidth.org" line = true ->
    (forall l, In l post -> carries_cookie "dreamwidth.org" l = true ->
       cookie_name l <> cookie_name line) ->
    exists cookies,
      load_netscape_cookie_file files path = inr cookies
      /\ cookies !! cookie_name line = Some (cookie_value line).
Proof.
  intros files path pre line post Hfile Hline Hpost.
  unfold load_netscape_cookie_file. rewrite Hfile.
  assert (Hlook :
    file_cookies "dreamwidth.org" (pre ++ line :: post) ∅ !! cookie_name line
    = Some (cookie_value line)).
  { rewrite file_cookies_app, file_cookies_cons, Hline.
    rewrite file_cookies_other by exact Hpost. apply lookup_insert_eq. }
  case_bool_decide as Hne.
  - rewrite Hne, lookup_empty in Hlook. discriminate.
  - eexists. split; [reflexivity | exact Hlook].
Qed.

Lemma load_netscape_cookie_file_last_line_witness :
  exists cookies,
    load_netscape_cookie_file one_cookie_file "cookies.txt" = inr cookies
    /\ cookies !! "ljmastersession" = Some "v1:u1:s2".
Proof.
  apply (load_netscape_cookie_file_last_line one_cookie_file "cookies.txt"
           ["# Netscape HTTP Cookie File"] cookie_line []).
  - reflexivity.
  - reflexivity.
  - intros l [].
Defined.

End CookieSpec.

(* ===================================================================== *)
(** * The submitted payload *)
(* ===================================================================== *)

Module PayloadSpec.
Import Text Downloader Exporter.

(** ** Loops that assign at most one key per element *)

Section Loop.
Context {A : Type} (entry : A -> option (string * string)).
Context (loop : list A -> gmap string string -> gmap string string).
Hypothesis loop_nil : forall d, loop [] d = d.
Hypothesis loop_cons :
  forall x l d,
    loop (x :: l) d
    = match entry x with
      | Some (n, v) => loop l (<[n := v]> d)
      | None => loop l d
      end.

Lemma loop_app l1 l2 : forall d, loop (l1 ++ l2) d = loop l2 (loop l1 d).
Proof using loop_nil loop_cons.
  induction l1 as [|x l1 IH]; intros d.
  - now rewrite loop_nil.
  - rewrite <- app_comm_cons, !loop_cons.
    destruct (entry x) as [[n v]|]; apply IH.
Qed.

Lemma loop_silent n l :
  silent_on entry n l -> forall d, loop l d !! n = d !! n.
Proof using loop_nil loop_cons.
  induction l as [|x l IH]; intros H d.
  - now rewrite loop_nil.
  - assert (Hl : silent_on entry n l)
      by (intros y v Hy; apply H; now right).
    rewrite loop_cons. destruct (entry x) as [[k v]|] eqn:Hx.
    + rewrite (IH Hl). apply lookup_insert_ne. intros ->.
      now apply (H x v (or_introl eq_refl)).
    + now apply IH.
Qed.

Lemma loop_sound l :
  forall d n v,
    loop l d !! n = Some v ->
    d !! n = Some v \/ exists x, In x l /\ entry x = Some (n, v).
Proof using loop_nil loop_cons.
  induction l as [|x l IH]; intros d n v H.
  - rewrite loop_nil in H. now left.
  - rewrite loop_cons in H. destruct (entry x) as [[k u]|] eqn:Hx.
    + apply IH in H as [H | (y & Hy & Hey)].
      * destruct (decide (k = n)) as [->|Hk].
        -- rewrite lookup_insert_eq in H. injection H as <-.
           right. exists x. split; [now left | exact Hx].
        -- rewrite lookup_insert_ne in H by exact Hk. now left.
      * right. exists y. split; [now right | exact Hey].
    + apply IH in H as [H | (y & Hy & Hey)]; [now left|].
      right. exists y. split; [now right | exact Hey].
Qed.

Lemma loop_last pre x post n v d :
  entry x = Some (n, v) -> silent_on entry n post ->
  loop (pre ++ x :: post) d !! n = Some v.
Proof using loop_nil loop_cons.
  intros Hx Hpost. rewrite loop_app, loop_cons, Hx.
  rewrite (loop_silent n post Hpost). apply lookup_insert_eq.
Qed.
End Loop.

Lemma input_data_cons x l d :
  input_data (x :: l) d
  = match input_entry x with
    | Some (n, v) => input_data l (<[n := v]> d)
    | None => input_data l d
    end.
Proof.
  unfold input_entry. simpl.
  destruct (input_name (as_input x)) as [[|c name]|]; try reflexivity.
  destruct (is_button (itype (as_input x))); [reflexivity|].
  destruct (is_toggle (itype (as_input x))); [|reflexivity].
  now destruct (has_checked x).
Qed.

Lemma select_data_cons x l d :
  select_data (x :: l) d
  = match select_entry x with
    | Some (n, v) => select_data l (<[n := v]> d)
    | None => select_data l d
    end.
Proof.
  unfold select_entry. simpl.
  destruct (field_name x) as [[|c name]|]; try reflexivity.
  now destruct (current_option (field_options x)).
Qed.

Lemma textarea_data_cons x l d :
  textarea_data (x :: l) d
  = match textarea_entry x with
    | Some (n, v) => textarea_data l (<[n := v]> d)
    | None => textarea_data l d
    end.
Proof.
  unfold textarea_entry. simpl.
  now destruct (textarea_name x) as [[|c name]|].
Qed.

Lemma textarea_entry_spec ta n v :
  textarea_entry ta = Some (n, v) <->
  textarea_name ta = Some n /\ n <> "" /\ v = textarea_text ta.
Proof.
  unfold textarea_entry. destruct (textarea_name ta) as [[|c name]|]; split.
  all: try discriminate.
  all: try (intros (H & Hn & _); injection H as <-; now elim Hn).
  - intros H. injection H as <- <-. now repeat split.
  - intros (H & _ & ->). now injection H as <-.
  - now intros (H & _).
Qed.

Lemma select_entry_spec sel n v :
  select_entry sel = Some (n, v) <->
  field_name sel = Some n /\ n <> "" /\
  exists opt, current_option (field_options sel) = Some opt
              /\ v = submitted_value (as_option opt).
Proof.
  unfold select_entry. destruct (field_name sel) as [[|c name]|]; split.
  all: try discriminate.
  all: try (intros (H & Hn & _); injection H as <-; now elim Hn).
  - destruct (current_option (field_options sel)) as [opt|]; [|discriminate].
    intros H. injection H as <- <-. repeat split; [discriminate|].
    now exists opt.
  - intros (H & _ & opt & -> & ->). now injection H as <-.
  - now intros (H & _).
Qed.

Lemma input_entry_spec inp n v :
  input_entry inp = Some (n, v) <->
  input_name (as_input inp) = Some n /\ n <> "" /\
  is_button (itype (as_input inp)) = false /\
  (is_toggle (itype (as_input inp)) = true -> has_checked inp = true) /\
  v = (if is_toggle (itype (as_input inp))
          && bool_decide (default "" (input_value (as_input inp)) = "")
       then "1" else default "" (input_value (as_input inp))).
Proof.
  unfold input_entry.
  destruct (input_name (as_input inp)) as [[|c name]|]; split.
  all: try discriminate.
  all: try (intros (H & Hn & _); injection H as <-; now elim Hn).
  - destruct (is_button (itype (as_input inp))); [discriminate|].
    destruct (is_toggle (itype (as_input inp))).
    + destruct (has_checked inp); [|discriminate].
      intros H. injection H as <- <-. now repeat split.
    + intros H. injection H as <- <-. repeat split; discriminate.
  - intros (H & _ & -> & Hc & ->). injection H as <-.
    destruct (is_toggle (itype (as_input inp))); [|reflexivity].
    now rewrite Hc.
  - now intros (H & _).
Qed.

Lemma current_option_none opts :
  current_option opts = None <-> opts = [].
Proof.
  unfold current_option. split; [|now intros ->].
  destruct (List.find has_selected opts); [discriminate|].
  now destruct opts.
Qed.

(** X9: every entry of the payload built from a form comes from a named
    field of the form, and carries the value that field submits: the text
    of a textarea; or the value of the current option of a select (its
    [value] attribute, else its label); or the value of an input that is
    not a submit, button, image or file input and, when it is a checkbox
    or radio button, is checked ("1" standing for an empty value of a
    checked box).  No entry has the empty name. *)
Theorem build_form_payload_sound :
  forall (form : Form) (n v : string),
    build_form_payload form !! n = Some v ->
    n <> "" /\
    ((exists ta, In ta (textareas form)
                 /\ textarea_name ta = Some n /\ v = textarea_text ta)
     \/ (exists sel opt,
           In sel (selects form) /\ field_name sel = Some n
           /\ current_option (field_options sel) = Some opt
           /\ v = submitted_value (as_option opt))
     \/ (exists inp,
           In inp (inputs form) /\ input_name (as_input inp) = Some n
           /\ is_button (itype (as_input inp)) = false
           /\ (is_toggle (itype (as_input inp)) = true ->
               has_checked inp = true)
           /\ v = (if is_toggle (itype (as_input inp))
                      && bool_decide
                           (default "" (input_value (as_input inp)) = "")
                   then "1"
                   else default "" (input_value (as_input inp))))).
Proof.
  intros form n v H. unfold build_form_payload in H.
  apply (loop_sound textarea_entry textarea_data
           (fun d => eq_refl) textarea_data_cons) in H
    as [H | (ta & Hin & He)].
  2: { apply textarea_entry_spec in He as (Hn & Hne & Hv).
       split; [exact Hne|]. left. now exists ta. }
  apply (loop_sound select_entry select_data
           (fun d => eq_refl) select_data_cons) in H
    as [H | (sel & Hin & He)].
  2: { apply select_entry_spec in He as (Hn & Hne & opt & Ho & Hv).
       split; [exact Hne|]. right. left. now exists sel, opt. }
  apply (loop_sound input_entry input_data
           (fun d => eq_refl) input_data_cons) in H
    as [H | (inp & Hin & He)].
  { now rewrite lookup_empty in H. }
  apply input_entry_spec in He as (Hn & Hne & Hb & Hc & Hv).
  split; [exact Hne|]. right. right. now exists inp.
Qed.

Lemma build_form_payload_sound_witness :
  build_form_payload sample_form !! "comments" = Some "1" /\
  "comments" <> "".
Proof.
  split; [reflexivity|].
  exact (proj1 (build_form_payload_sound sample_form "comments" "1" eq_refl)).
Defined.

Lemma silent_textareas n tas :
  (forall ta, In ta tas -> textarea_name ta <> Some n) ->
  silent_on textarea_entry n tas.
Proof.
  intros H ta v Hin He. apply textarea_entry_spec in He as (Hn & _).
  now apply (H ta Hin).
Qed.

Lemma silent_selects n sels :
  (forall sel, In sel sels -> field_name sel = Some n ->
     field_options sel = []) ->
  silent_on select_entry n sels.
Proof.
  intros H sel v Hin He.
  apply select_entry_spec in He as (Hn & _ & opt & Ho & _).
  rewrite (H sel Hin Hn) in Ho. discriminate.
Qed.

Lemma silent_inputs n inps :
  (forall inp, In inp inps -> input_name (as_input inp) = Some n ->
     is_button (itype (as_input inp)) = true
     \/ (is_toggle (itype (as_input inp)) = true
         /\ has_checked inp = false)) ->
  silent_on input_entry n inps.
Proof.
  intros H inp v Hin He.
  apply input_entry_spec in He as (Hn & _ & Hb & Hc & _).
  destruct (H inp Hin Hn) as [Hb' | [Ht Hc']]; [congruence|].
  rewrite (Hc Ht) in Hc'. discriminate.
Qed.

(** X10: among the fields of one name the textareas come last, the
    selects before them and the inputs first, and the last one that
    submits anything decides: the last textarea of the name gives the
    entry; without a textarea of the name, the last select of the name
    that has an option does; without either, the last input of the name
    that is not a button and not an unchecked box does. *)
Theorem build_form_payload_precedence :
  forall (form : Form) (n : string),
    n <> "" ->
    (forall pre ta post,
       textareas form = (pre ++ ta :: post)%list ->
       textarea_name ta = Some n ->
       (forall ta', In ta' post -> textarea_name ta' <> Some n) ->
       build_form_payload form !! n = Some (textarea_text ta)) /\
    ((forall ta, In ta (textareas form) -> textarea_name ta <> Some n) ->
     forall pre sel post opt,
       selects form = (pre ++ sel :: post)%list ->
       field_name sel = Some n ->
       current_option (field_options sel) = Some opt ->
       (forall sel', In sel' post -> field_name sel' = Some n ->
          field_options sel' = []) ->
       build_form_payload form !! n = Some (submitted_value (as_option opt))) /\
    ((forall ta, In ta (textareas form) -> textarea_name ta <> Some n) ->
     (forall sel, In sel (selects form) -> field_name sel = Some n ->
        field_options sel = []) ->
     forall pre inp post,
       inputs form = (pre ++ inp :: post)%list ->
       input_name (as_input inp) = Some n ->
       is_button (itype (as_input inp)) = false ->
       (is_toggle (itype (as_input inp)) = true -> has_checked inp = true) ->
       (forall inp', In inp' post -> input_name (as_input inp') = Some n ->
          is_button (itype (as_input inp')) = true
          \/ (is_toggle (itype (as_input inp')) = true
              /\ has_checked inp' = false)) ->
       build_form_payload form !! n
       = Some (if is_toggle (itype (as_input inp))
                  && bool_decide
                       (default "" (input_value (as_input inp)) = "")
               then "1"
               else default "" (input_value (as_input inp)))).
Proof.
  intros form n Hn. unfold build_form_payload. split; [|split].
  - intros pre ta post -> Hta Hpost.
    apply (loop_last textarea_entry textarea_data
             (fun d => eq_refl) textarea_data_cons).
    + apply textarea_entry_spec. now repeat split.
    + now apply silent_textareas.
  - intros Hno pre sel post opt -> Hsel Hopt Hpost.
    rewrite (loop_silent textarea_entry textarea_data
               (fun d => eq_refl) textarea_data_cons n)
      by now apply silent_textareas.
    apply (loop_last select_entry select_data
             (fun d => eq_refl) select_data_cons).
    + apply select_entry_spec. repeat split; [exact Hsel | exact Hn|].
      now exists opt.
    + now apply silent_selects.
  - intros Hta Hsel pre inp post -> Hname Hb Hc Hpost.
    rewrite (loop_silent textarea_entry textarea_data
               (fun d => eq_refl) textarea_data_cons n)
      by now apply silent_textareas.
    rewrite (loop_silent select_entry select_data
               (fun d => eq_refl) select_data_cons n)
      by now apply silent_selects.
    apply (loop_last input_entry input_data
             (fun d => eq_refl) input_data_cons).
    + apply input_entry_spec. now repeat split.
    + now apply silent_inputs.
Qed.

Lemma build_form_payload_precedence_witness :
  "notes" <> "" /\
  build_form_payload sample_form !! "notes" = Some " last ".
Proof.
  assert (Hn : "notes" <> "") by discriminate.
  split; [exact Hn|].
  destruct (build_form_payload_precedence sample_form "notes" Hn) as [H _].
  apply (H [ {| textarea_name := Some "notes"; textarea_text := " first " |};
             {| textarea_name := None; textarea_text := "nameless" |} ]
           {| textarea_name := Some "notes"; textarea_text := " last " |} []).
  - reflexivity.
  - reflexivity.
  - intros ta' [].
Defined.

(** X11: a name is absent from the payload when the form has no textarea
    of that name, no select of that name with an option, and every input
    of that name is a submit, button, image or file input or an unchecked
    checkbox or radio button; the type of an input is compared without
    regard to letter case. *)
Theorem build_form_payload_never_submits :
  forall (form : Form) (n : string),
    (forall ta, In ta (textareas form) -> textarea_name ta <> Some n) ->
    (forall sel, In sel (selects form) -> field_name sel = Some n ->
       field_options sel = []) ->
    (forall inp, In inp (inputs form) -> input_name (as_input inp) = Some n ->
       is_button (itype (as_input inp)) = true
       \/ (is_toggle (itype (as_input inp)) = true
           /\ has_checked inp = false)) ->
    build_form_payload form !! n = None.
Proof.
  intros form n Hta Hsel Hinp. unfold build_form_payload.
  rewrite (loop_silent textarea_entry textarea_data
             (fun d => eq_refl) textarea_data_cons n)
    by now apply silent_textareas.
  rewrite (loop_silent select_entry select_data
             (fun d => eq_refl) select_data_cons n)
    by now apply silent_selects.
  rewrite (loop_silent input_entry input_data
             (fun d => eq_refl) input_data_cons n)
    by now apply silent_inputs.
  apply lookup_empty.
Qed.

Lemma build_form_payload_never_submits_witness :
  build_form_payload sample_form !! "minimal" = None.
Proof.
  apply build_form_payload_never_submits.
  - intros ta [<-|[<-|[<-|[]]]]; discriminate.
  - intros sel [<-|[<-|[<-|[]]]]; discriminate.
  - intros inp [<-|[<-|[<-|[<-|[<-|[]]]]]]; try discriminate.
    intros _. right. split; reflexivity.
Defined.

(** ** The payload of the export request *)

(** The output-format scan does not read the payload: it leaves it alone
    or assigns one key, the same whatever the payload holds. *)
Lemma scan_selects_uniform sels :
  (forall p, scan_selects sels p = None)
  \/ exists n v, forall p, scan_selects sels p = Some (<[n := v]> p).
Proof.
  induction sels as [|s sels IH]; [now left|].
  simpl. destruct (select_name s) as [[|c name]|]; try exact IH.
  destruct (List.find xml_option (map value_label (select_options s)))
    as [vl|]; [|exact IH].
  right. now exists (String c name), (chosen vl).
Qed.

Lemma scan_radio_groups_uniform groups :
  (forall p, scan_radio_groups groups p = None)
  \/ exists n v, forall p, scan_radio_groups groups p = Some (<[n := v]> p).
Proof.
  induction groups as [|[name vs] groups IH]; [now left|].
  simpl. destruct (List.find xml_value vs) as [v|]; [|exact IH].
  right. now exists name, v.
Qed.

Lemma force_output_format_xml_uniform form :
  exists fmt : option (string * string),
    forall payload,
      force_output_format_xml form payload
      = match fmt with
        | Some (n, v) => (true, <[n := v]> payload)
        | None => (false, payload)
        end.
Proof.
  unfold force_output_format_xml.
  destruct (scan_selects_uniform (form_selects form)) as [Hs | (n & v & Hs)].
  - destruct (scan_radio_groups_uniform (collect_radios (form_inputs form) []))
      as [Hr | (n & v & Hr)].
    + exists None. intros p. now rewrite Hs, Hr.
    + exists (Some (n, v)). intros p. now rewrite Hs, Hr.
  - exists (Some (n, v)). intros p. now rewrite Hs.
Qed.

(** X12: for a form whose option labels are plain, the payload of the
    export request is the payload built from the
    form with three assignments made in this order: the requested year
    under the inferred year field, the requested month under the inferred
    month field, and the XML choice of the output-format scan, if it
    finds one.  So a field the scan does not assign holds the month when
    it is the month field, else the year when it is the year field, else
    what the form gave; when one select names both fields, the year is
    overwritten by the month. *)
Theorem export_payload_fields :
  forall (form : Form) (year month : Z),
    plain_labels (form_view form) ->
    let year_field := fst (guess_year_month_field_names (form_view form)) in
    let month_field := snd (guess_year_month_field_names (form_view form)) in
    exists fmt : option (string * string),
      (forall payload,
         force_output_format_xml (form_view form) payload
         = match fmt with
           | Some (n, v) => (true, <[n := v]> payload)
           | None => (false, payload)
           end) /\
      (forall n v, fmt = Some (n, v) ->
         export_payload form year month !! n = Some v) /\
      (forall k,
         (forall n v, fmt = Some (n, v) -> k <> n) ->
         export_payload form year month !! k
         = if bool_decide (k = month_field) then Some (str month)
           else if bool_decide (k = year_field) then Some (str year)
           else build_form_payload form !! k).
Proof.
  intros form year month _ year_field month_field.
  destruct (force_output_format_xml_uniform (form_view form)) as [fmt Hfmt].
  exists fmt. split; [exact Hfmt|].
  assert (Hpay :
    export_payload form year month
    = snd (force_output_format_xml (form_view form)
             (<[month_field := str month]>
                (<[year_field := str year]> (build_form_payload form))))).
  { unfold export_payload, year_field, month_field.
    now destruct (guess_year_month_field_names (form_view form)). }
  rewrite Hpay, Hfmt. split.
  - intros n v ->. simpl. apply lookup_insert_eq.
  - intros k Hk.
    assert (Hbase :
      (<[month_field := str month]>
         (<[year_field := str year]> (build_form_payload form))) !! k
      = if bool_decide (k = month_field) then Some (str month)
        else if bool_decide (k = year_field) then Some (str year)
        else build_form_payload form !! k).
    { case_bool_decide as Hm.
      - subst k. apply lookup_insert_eq.
      - rewrite lookup_insert_ne by congruence.
        case_bool_decide as Hy.
        + subst k. apply lookup_insert_eq.
        + now rewrite lookup_insert_ne by congruence. }
    destruct fmt as [[n v]|]; simpl; [|exact Hbase].
    rewrite lookup_insert_ne; [exact Hbase|].
    intros ->. now apply (Hk k v).
Qed.

Lemma sample_form_plain : plain_labels (form_view sample_form).
Proof. DownloaderSpec.plain_labels_by_test. Qed.

Lemma export_payload_fields_witness :
  plain_labels (form_view sample_form) /\
  export_payload sample_form 2006 12 !! "format" = Some "2" /\
  export_payload sample_form 2006 12 !! "month" = Some "12" /\
  export_payload sample_form 2006 12 !! "year" = Some "2006" /\
  export_payload sample_form 2006 12 !! "journal" = Some "alice".
Proof.
  split; [exact sample_form_plain|].
  destruct (export_payload_fields sample_form 2006 12 sample_form_plain)
    as (fmt & Hfmt & Hset & Hrest).
  assert (His : fmt = Some ("format", "2")).
  { assert (Hrun : force_output_format_xml (form_view sample_form) ∅
                   = (true, {[ "format" := "2" ]})) by reflexivity.
    rewrite Hfmt in Hrun. destruct fmt as [[n v]|]; [|discriminate Hrun].
    pose proof (f_equal snd Hrun) as Hmap. cbn [snd] in Hmap.
    assert (Hnv : ({[ "format" := "2" ]} : gmap string string) !! n = Some v)
      by (rewrite <- Hmap; apply lookup_insert_eq).
    apply lookup_singleton_Some in Hnv. now destruct Hnv as [<- <-]. }
  subst fmt. split; [now apply Hset|].
  assert (Hne : forall k, k <> "format" ->
            forall n v : string, Some ("format", "2") = Some (n, v) -> k <> n)
    by (intros k Hk n v [= <- _]; exact Hk).
  split; [|split].
  - rewrite (Hrest "month") by (apply Hne; discriminate). reflexivity.
  - rewrite (Hrest "year") by (apply Hne; discriminate). reflexivity.
  - rewrite (Hrest "journal") by (apply Hne; discriminate). reflexivity.
Defined.

End PayloadSpec.

(* ===================================================================== *)
(** * Recognising the exported document *)
(* ===================================================================== *)

Module XmlSpec.
Import Text Downloader Exporter.

Lemma lower_app a b : lower (a +:+ b) = lower a +:+ lower b.
Proof. induction a as [|x a IH]; [reflexivity|]. simpl. now rewrite IH. Qed.

Lemma lower_length s : String.length (lower s) = String.length s.
Proof. induction s as [|x s IH]; [reflexivity|]. simpl. now rewrite IH. Qed.

Lemma lstrip_spaces ws s :
  forall_chars isspace ws = true -> lstrip (ws +:+ s) = lstrip s.
Proof.
  induction ws as [|x ws IH]; [reflexivity|]. simpl.
  intros H. apply andb_true_iff in H as [-> H]. now apply IH.
Qed.

Lemma slice_to_prefix a b :
  forall n, (String.length a <= n)%nat ->
    slice_to n (a +:+ b) = a +:+ slice_to (n - String.length a) b.
Proof.
  induction a as [|x a IH]; intros n Hn.
  - simpl. now rewrite Nat.sub_0_r.
  - destruct n as [|n]; [simpl in Hn; lia|].
    simpl in *. rewrite IH by lia. reflexivity.
Qed.

Lemma slice_to_within a b :
  forall n, (n <= String.length a)%nat -> slice_to n (a +:+ b) = slice_to n a.
Proof.
  induction a as [|x a IH]; intros n Hn.
  - simpl in Hn. assert (n = 0%nat) as -> by lia. now destruct b.
  - destruct n as [|n]; [reflexivity|].
    simpl in *. rewrite IH by lia. reflexivity.
Qed.

Lemma forall_chars_slice_to P s :
  forall n, forall_chars P s = true -> forall_chars P (slice_to n s) = true.
Proof.
  induction s as [|x s IH]; intros n H; [now destruct n|].
  destruct n as [|n]; [reflexivity|].
  simpl in *. apply andb_true_iff in H as [-> H]. now apply IH.
Qed.

Lemma lower_ascii_angle x :
  lower_ascii x = "<"%char -> x = "<"%char.
Proof.
  destruct x as [[] [] [] [] [] [] [] []]; vm_compute; congruence.
Qed.

Lemma forall_chars_lower_angle s :
  forall_chars (other_than "<") s = true ->
  forall_chars (other_than "<") (lower s) = true.
Proof.
  induction s as [|x s IH]; [reflexivity|]. simpl.
  intros H. apply andb_true_iff in H as [Hx H]. rewrite (IH H), andb_true_r.
  unfold other_than in *. apply negb_true_iff. apply negb_true_iff in Hx.
  apply Ascii.eqb_neq. intros Hl. apply lower_ascii_angle in Hl.
  subst x. discriminate.
Qed.

Lemma contains_first_char c t s :
  forall_chars (other_than c) s = true -> contains (String c t) s = false.
Proof.
  induction s as [|x s IH]; [reflexivity|]. simpl.
  intros H. apply andb_true_iff in H as [Hx H]. rewrite (IH H), orb_false_r.
  apply CookieSpec.other_than_spec in Hx. now rewrite Ascii.eqb_sym, Hx.
Qed.

Lemma marker_shape m :
  In m markers ->
  (String.length m <= head_length)%nat /\ exists t, m = String "<" t.
Proof.
  intros Hm. split.
  - apply Nat.leb_le.
    destruct Hm as [<-|[<-|[<-|[<-|[<-|[]]]]]]; vm_compute; reflexivity.
  - destruct Hm as [<-|[<-|[<-|[<-|[<-|[]]]]]]; eexists; reflexivity.
Qed.

(** X13: a response counts as an export when its content type holds
    "xml" in any letter case, whatever its body; and also, whatever its
    content type, when its body, after any leading white space, starts
    with one of the five markers written in any letter case. *)
Theorem looks_like_xml_export_recognises :
  forall resp : Response,
    (forall ct, content_type resp = Some ct ->
       occurs_in "xml" (lower ct) -> looks_like_xml_export resp = true) /\
    (forall ws opening rest m,
       In m markers -> lower opening = m ->
       forall_chars isspace ws = true ->
       text resp = ws +:+ opening +:+ rest ->
       looks_like_xml_export resp = true).
Proof.
  intros resp. unfold looks_like_xml_export. split.
  - intros ct -> Hct. simpl. apply TextFacts.contains_spec in Hct.
    now rewrite Hct.
  - intros ws opening rest m Hm Hlow Hws Htext.
    destruct (contains "xml" (lower (default "" (content_type resp))));
      [reflexivity|].
    destruct (marker_shape m Hm) as [Hlen [t Ht]].
    rewrite Htext, lstrip_spaces by exact Hws.
    assert (Hopen : lstrip (opening +:+ rest) = opening +:+ rest).
    { destruct opening as [|x o]; [subst m; discriminate|].
      rewrite <- Hlow in Ht. simpl in Ht. injection Ht as Hx _.
      apply lower_ascii_angle in Hx. subst x. reflexivity. }
    rewrite Hopen, slice_to_prefix
      by (rewrite <- (lower_length opening), Hlow; exact Hlen).
    rewrite lower_app, Hlow.
    apply existsb_exists. exists m. split; [exact Hm|].
    apply TextFacts.contains_spec. exists EmptyString. now eexists.
Qed.

Lemma looks_like_xml_export_recognises_witness :
  In "<?xml" markers /\ lower "<?XML" = "<?xml" /\
  forall_chars isspace "  " = true /\
  looks_like_xml_export shouting_response = true.
Proof.
  assert (Hm : In "<?xml" markers) by (now left).
  split; [exact Hm|]. split; [reflexivity|]. split; [reflexivity|].
  destruct (looks_like_xml_export_recognises shouting_response) as [_ H].
  exact (H "  " "<?XML" " version='1.0'?><livejournal/>" "<?xml"
           Hm eq_refl eq_refl eq_refl).
Defined.

(** X14: only the first [head_length] (5000) characters of the body are
    searched: when the content type does not hold "xml", the body does
    not begin with white space, and its first 5000 characters hold no
    [<], the response does not count as an export, whatever follows
    them. *)
Theorem looks_like_xml_export_window :
  forall (resp : Response) (pad rest : string),
    contains "xml" (lower (default "" (content_type resp))) = false ->
    text resp = pad +:+ rest ->
    lstrip (text resp) = text resp ->
    (head_length <= String.length pad)%nat ->
    contains "<" pad = false ->
    looks_like_xml_export resp = false.
Proof.
  intros resp pad rest Hct Htext Hstrip Hlen Hpad.
  unfold looks_like_xml_export. rewrite Hct, Hstrip, Htext.
  rewrite slice_to_within by exact Hlen.
  assert (Hhead :
    forall_chars (other_than "<") (lower (slice_to head_length pad)) = true).
  { apply forall_chars_lower_angle, forall_chars_slice_to.
    now apply CookieSpec.contains_char_false. }
  unfold markers. cbn [existsb].
  now rewrite !(contains_first_char "<" _ _ Hhead).
Qed.

Lemma looks_like_xml_export_window_witness :
  contains "xml" (lower (default "" (content_type late_marker_response)))
  = false /\
  (head_length <= String.length (filler "a" head_length))%nat /\
  contains "<" (filler "a" head_length) = false /\
  looks_like_xml_export late_marker_response = false.
Proof.
  assert (Hlen : (head_length <= String.length (filler "a" head_length))%nat)
    by (apply Nat.leb_le; vm_compute; reflexivity).
  assert (Hpad : contains "<" (filler "a" head_length) = false)
    by (vm_compute; reflexivity).
  assert (Hstrip : lstrip (text late_marker_response)
                   = text late_marker_response)
    by (vm_compute; reflexivity).
  split; [reflexivity|]. split; [exact Hlen|]. split; [exact Hpad|].
  exact (looks_like_xml_export_window late_marker_response
           (filler "a" head_length) "<?xml version='1.0'?>"
           eq_refl eq_refl Hstrip Hlen Hpad).
Defined.

End XmlSpec.

(* ===================================================================== *)
(** * What a batch run leaves behind *)
(* ===================================================================== *)

Module LedgerSpec.
Import Text Batch Ledger.

Lemma append_assoc (a b c : string) : (a +:+ b) +:+ c = a +:+ (b +:+ c).
Proof.
  induction a as [|x a IH]; [reflexivity|].
  change (String x ((a +:+ b) +:+ c) = String x (a +:+ (b +:+ c))).
  now rewrite IH.
Qed.

Lemma append_empty_r (a : string) : a +:+ "" = a.
Proof.
  induction a as [|x a IH]; [reflexivity|].
  change (String x (a +:+ "") = String x a). now rewrite IH.
Qed.

(** ** The loop, month by month *)

(** The state after the loop, in terms of the months it launched the
    exporter for. *)
Lemma main_loop_summary args env months :
  forall st,
    exists new t,
      trace (snd (main_loop args env months st)) = (trace st ++ t)%list
      /\ exported t = new
      /\ paced args env t = true
      /\ ledger (snd (main_loop args env months st))
         = ledger st +:+ concat_lines (map (line_of env) (failed env new))
      /\ failures (snd (main_loop args env months st))
         = fold_left (tally env) new (failures st).
Proof.
  induction months as [|ym months IH]; intros st.
  - exists [], []. simpl. rewrite app_nil_r, append_empty_r. now repeat split.
  - simpl. destruct (decide (ym ∈ outfiles st)) as [Hin|Hnew].
    + rewrite (BatchSpec.iteration_skip args env ym st Hin).
      destruct (IH (emit (Skipping ym) st)) as (new & t & Ht & He & Hp & Hl & Hf).
      exists new, (Skipping ym :: t). simpl in *.
      rewrite Ht, <- app_assoc. now repeat split.
    + destruct (succeeded (run env ym)) eqn:Hok.
      * rewrite (BatchSpec.iteration_success args env ym st Hnew Hok).
        match goal with
        | |- context [main_loop args env months ?s] =>
            destruct (IH s) as (new & t & Ht & He & Hp & Hl & Hf)
        end.
        exists (ym :: new),
          (Exporting ym :: Pause (normal_pause_min args) (normal_pause_max args)
                             "normal" :: t).
        simpl in *. rewrite Ht, <- app_assoc. split; [reflexivity|].
        split; [now rewrite He|].
        split; [now rewrite Hok, !Z.eqb_refl|].
        unfold failed, tally in *. simpl. rewrite Hok. simpl.
        split; [exact Hl | exact Hf].
      * destruct (BatchSpec.iteration_failure args env ym st Hnew Hok)
          as (st' & Hit & Hfail & Hled & Htr & _).
        rewrite Hit. destruct (5 <=? failures st + 1).
        -- exists [ym],
             [Exporting ym;
              Pause (grumpy_pause_min args) (grumpy_pause_max args)
                (grumpy_reason (failures st + 1))].
           simpl. split; [exact Htr|]. split; [reflexivity|].
           split; [now rewrite Hok, !Z.eqb_refl|].
           unfold failed, tally. simpl. rewrite Hok. simpl.
           rewrite append_empty_r. split; [exact Hled | exact Hfail].
        -- destruct (IH st') as (new & t & Ht & He & Hp & Hl & Hf).
           exists (ym :: new),
             (Exporting ym ::
              Pause (grumpy_pause_min args) (grumpy_pause_max args)
                (grumpy_reason (failures st + 1)) :: t).
           rewrite Ht, Htr, <- app_assoc. split; [reflexivity|].
           split; [simpl; now rewrite He|].
           split; [simpl; now rewrite Hok, !Z.eqb_refl|].
           unfold failed, tally in *. simpl. rewrite Hok. simpl.
           rewrite Hl, Hled, Hf, Hfail, append_assoc. now split.
Qed.

Lemma main_summary args env existing log :
  paced args env (trace (snd (main args env existing log))) = true
  /\ ledger (snd (main args env existing log))
     = log +:+ concat_lines
                 (map (line_of env)
                    (failed env
                       (exported (trace (snd (main args env existing log))))))
  /\ failures (snd (main args env existing log))
     = fold_left (tally env)
         (exported (trace (snd (main args env existing log)))) 0.
Proof.
  unfold main.
  destruct (main_loop_summary args env
              (month_range (start_year args) (start_month args)
                 (end_year args) (end_month args))
              {| outfiles := existing; failures := 0; ledger := log;
                 trace := [] |})
    as (new & t & Ht & He & Hp & Hl & Hf).
  simpl in Ht, Hl, Hf. rewrite Ht, He. now repeat split.
Qed.

(** X15: the failure log is only appended to: after a run it is the log
    the run found, followed by one line for every month whose export
    failed, in the order of the exports, and nothing else; a month that
    was skipped or exported well adds no line. *)
Theorem ledger_is_appended :
  forall (args : Args) (env : Env) (existing : gset (Z * Z)) (log : string),
    ledger (snd (main args env existing log))
    = log +:+ concat_lines
                (map (line_of env)
                   (failed env
                      (exported (trace (snd (main args env existing log)))))).
Proof. intros. apply main_summary. Qed.

Lemma tally_snoc env l ym :
  fold_left (tally env) (l ++ [ym]) 0
  = tally env (fold_left (tally env) l 0) ym.
Proof. now rewrite fold_left_app. Qed.

Lemma trailing_failures_snoc l x :
  trailing_failures (l ++ [x])
  = if x then 0%nat else S (trailing_failures l).
Proof.
  unfold trailing_failures. rewrite rev_app_distr. simpl. now destruct x.
Qed.

Lemma tally_trailing env l :
  fold_left (tally env) l 0
  = Z.of_nat
      (trailing_failures (map (fun ym => succeeded (run env ym)) l)).
Proof.
  induction l as [|ym l IH] using rev_ind; [reflexivity|].
  rewrite tally_snoc, map_app, IH. simpl map.
  rewrite trailing_failures_snoc. unfold tally.
  destruct (succeeded (run env ym)); lia.
Qed.

(** X16: in a run whose pauses can be made, the counter the run ends
    with is the number of exports that failed since the last one that
    went well, counted over the months the exporter was launched for
    (skipped months do not count and do not reset it); the run returns 3
    exactly when that number is five, and 0 exactly when it is less. *)
Theorem abort_iff_five_trailing_failures :
  forall (args : Args) (env : Env) (existing : gset (Z * Z)) (log : string),
    can_pause args ->
    let r := main args env existing log in
    let outcomes :=
      map (fun ym => succeeded (run env ym)) (exported (trace (snd r))) in
    failures (snd r) = Z.of_nat (trailing_failures outcomes)
    /\ (fst r = 3 <-> trailing_failures outcomes = 5%nat)
    /\ (fst r = 0 <-> (trailing_failures outcomes < 5)%nat).
Proof.
  intros args env existing log _ r outcomes.
  assert (Hf : failures (snd r) = Z.of_nat (trailing_failures outcomes)).
  { unfold r, outcomes.
    destruct (main_summary args env existing log) as (_ & _ & ->).
    apply tally_trailing. }
  split; [exact Hf|].
  assert (Hc :
    (fst r = 0 /\ 0 <= failures (snd r) < 5)
    \/ (fst r = 3 /\ failures (snd r) = 5)).
  { unfold r, main. apply BatchSpec.main_loop_counter. simpl. lia. }
  rewrite Hf in Hc. split; split; intros H; lia.
Qed.

Lemma abort_iff_five_trailing_failures_witness :
  let args := default_args 2020 1 2020 12 in
  let outcomes := [false; true; false; false; false; false; false; true] in
  can_pause args /\
  fst (main args (scripted outcomes (2020, 1)) ∅ "") = 3.
Proof.
  intros args outcomes.
  split; [apply BatchSpec.default_args_can_pause|].
  apply (proj1 (proj2
           (abort_iff_five_trailing_failures args
              (scripted outcomes (2020, 1)) ∅ ""
              (BatchSpec.default_args_can_pause 2020 1 2020 12)))).
  reflexivity.
Defined.

Lemma paced_counts args env n :
  forall t, (length t <= n)%nat -> paced args env t = true ->
    length (pauses t) = length (exported t).
Proof.
  induction n as [|n IH]; intros t Hn Hp.
  - destruct t; [reflexivity | simpl in Hn; lia].
  - destruct t as [|[ym|ym|lo hi reason] t]; [reflexivity | | |discriminate].
    + simpl in *. apply IH; [lia | exact Hp].
    + destruct t as [|[ym'|ym'|lo hi reason] t]; try discriminate.
      simpl in Hn, Hp. apply andb_true_iff in Hp as [_ Hp].
      change (S (length (pauses t)) = S (length (exported t))).
      f_equal. apply IH; [lia | exact Hp].
Qed.

(** X17: in what a run whose pauses can be made does, every launch of
    the exporter is followed at once by exactly one pause, taken between
    the normal bounds when the export went well and between the grumpy
    bounds when it failed, also before the run gives up; a skipped month
    is followed by no pause.  So there are as many pauses as launches. *)
Theorem every_export_is_followed_by_a_pause :
  forall (args : Args) (env : Env) (existing : gset (Z * Z)) (log : string),
    can_pause args ->
    let t := trace (snd (main args env existing log)) in
    paced args env t = true
    /\ length (pauses t) = length (exported t).
Proof.
  intros args env existing log _ t.
  assert (Hp : paced args env t = true) by apply main_summary.
  split; [exact Hp|]. now apply (paced_counts args env (length t)).
Qed.

Lemma every_export_is_followed_by_a_pause_witness :
  let args := default_args 2020 1 2020 3 in
  can_pause args /\
  trace (snd (main args (scripted [true; false; true] (2020, 1))
                {[ (2020, 3) ]} ""))
  = [ Exporting (2020, 1); Pause 5 10 "normal";
      Exporting (2020, 2);
      Pause 30 60 "grumpy (consecutive failures: 1)";
      Skipping (2020, 3) ] /\
  length (pauses (trace (snd (main args
                                (scripted [true; false; true] (2020, 1))
                                {[ (2020, 3) ]} ""))))
  = length (exported (trace (snd (main args
                                    (scripted [true; false; true] (2020, 1))
                                    {[ (2020, 3) ]} "")))).
Proof.
  intros args.
  split; [apply BatchSpec.default_args_can_pause|].
  split; [vm_compute; reflexivity|].
  apply (every_export_is_followed_by_a_pause args
           (scripted [true; false; true] (2020, 1)) {[ (2020, 3) ]} ""
           (BatchSpec.default_args_can_pause 2020 1 2020 3)).
Defined.

(** ** Runs that launch nothing, runs that fail nowhere *)

Lemma main_loop_all_skipped args env months :
  forall st,
    (forall ym, In ym months -> ym ∈ outfiles st) ->
    main_loop args env months st
    = (0, {| outfiles := outfiles st; failures := failures st;
             ledger := ledger st;
             trace := trace st ++ map Skipping months |}).
Proof.
  induction months as [|ym months IH]; intros st H.
  - simpl. rewrite app_nil_r. now destruct st.
  - simpl. rewrite (BatchSpec.iteration_skip args env ym st)
      by (apply H; now left).
    rewrite IH by (intros ym' Hin; apply H; now right).
    simpl. now rewrite <- app_assoc.
Qed.

Lemma main_loop_clean args env months :
  forall st,
    (forall ym, In ym months ->
       ym ∈ outfiles st \/ succeeded (run env ym) = true) ->
    fst (main_loop args env months st) = 0
    /\ ledger (snd (main_loop args env months st)) = ledger st
    /\ outfiles (snd (main_loop args env months st))
       = outfiles st ∪ list_to_set months
    /\ (failures (snd (main_loop args env months st)) = failures st
        \/ failures (snd (main_loop args env months st)) = 0).
Proof.
  induction months as [|ym months IH]; intros st H.
  - simpl. split; [reflexivity|]. split; [reflexivity|].
    split; [|now left]. clear. set_unfold. intros x. tauto.
  - assert (Hrest : forall st', outfiles st ⊆ outfiles st' ->
              forall ym', In ym' months ->
                ym' ∈ outfiles st' \/ succeeded (run env ym') = true).
    { intros st' Hsub ym' Hin.
      destruct (H ym' (or_intror Hin)) as [Hex|Hok]; [left | now right].
      now apply Hsub. }
    simpl. destruct (decide (ym ∈ outfiles st)) as [Hin|Hnew].
    + rewrite (BatchSpec.iteration_skip args env ym st Hin).
      destruct (IH (emit (Skipping ym) st)) as (Hc & Hl & Ho & Hf).
      { now apply Hrest. }
      split; [exact Hc|]. split; [exact Hl|]. split; [|exact Hf].
      rewrite Ho. simpl. clear - Hin. set_unfold. intros x. split.
      * intros [Hx|Hx]; [now left | right; now right].
      * intros [Hx|[->|Hx]]; [now left | now left | now right].
    + destruct (H ym (or_introl eq_refl)) as [Hex|Hok]; [contradiction|].
      rewrite (BatchSpec.iteration_success args env ym st Hnew Hok).
      match goal with
      | |- context [main_loop args env months ?s] =>
          destruct (IH s) as (Hc & Hl & Ho & Hf)
      end.
      { apply Hrest. simpl. clear. set_unfold. intros x Hx. now right. }
      split; [exact Hc|]. split; [exact Hl|]. split.
      * rewrite Ho. simpl. clear. set_unfold. intros x. split.
        -- intros [[->|Hx]|Hx]; [right; now left | now left | right; now right].
        -- intros [Hx|[->|Hx]]; [left; now right | left; now left | now right].
      * right. destruct Hf as [Hf|Hf]; [now rewrite Hf | exact Hf].
Qed.

(** X18: when the normal pause can be made and every month of the range
    either has its file already or is exported well, the run returns 0,
    leaves the failure log as it found it, and ends with the file of
    every month of the range in place; a second run over the same range,
    whatever the exporter would answer, then launches nothing and pauses
    nowhere: it logs a skip for each month, in order, and returns 0 with
    the log untouched. *)
Theorem clean_run_then_rerun :
  forall (args : Args) (env : Env) (existing : gset (Z * Z)) (log : string),
    let months :=
      month_range (start_year args) (start_month args)
        (end_year args) (end_month args) in
    pause_bounds (normal_pause_min args) (normal_pause_max args) ->
    (forall ym, In ym months ->
       ym ∈ existing \/ succeeded (run env ym) = true) ->
    let r := main args env existing log in
    fst r = 0
    /\ ledger (snd r) = log
    /\ failures (snd r) = 0
    /\ outfiles (snd r) = existing ∪ list_to_set months
    /\ forall (env' : Env) (log' : string),
         main args env' (outfiles (snd r)) log'
         = (0, {| outfiles := outfiles (snd r); failures := 0;
                  ledger := log'; trace := map Skipping months |}).
Proof.
  intros args env existing log months _ H r.
  destruct (main_loop_clean args env months
              {| outfiles := existing; failures := 0; ledger := log;
                 trace := [] |} H) as (Hc & Hl & Ho & Hf).
  change (main_loop args env months
            {| outfiles := existing; failures := 0; ledger := log;
               trace := [] |}) with r in Hc, Hl, Ho, Hf.
  change (ledger (snd r) = log) in Hl.
  change (outfiles (snd r) = existing ∪ list_to_set months) in Ho.
  change (failures (snd r) = 0 \/ failures (snd r) = 0) in Hf.
  split; [exact Hc|]. split; [exact Hl|].
  split; [now destruct Hf|]. split; [exact Ho|].
  intros env' log'.
  change (main args env' (outfiles (snd r)) log')
    with (main_loop args env' months
            {| outfiles := outfiles (snd r); failures := 0; ledger := log';
               trace := [] |}).
  rewrite main_loop_all_skipped; [reflexivity|].
  intros ym Hin.
  change (ym ∈ outfiles (snd r)). rewrite Ho.
  apply elem_of_union_r, elem_of_list_to_set, list_elem_of_In, Hin.
Qed.

Lemma clean_run_then_rerun_witness :
  let args := default_args 2020 11 2021 2 in
  let env := scripted [true; true; true; true] (2020, 11) in
  pause_bounds (normal_pause_min args) (normal_pause_max args) /\
  (forall ym, In ym (month_range 2020 11 2021 2) ->
     ym ∈ (∅ : gset (Z * Z)) \/ succeeded (run env ym) = true) /\
  fst (main args env ∅ "") = 0 /\
  main args (scripted [] (2020, 11)) (outfiles (snd (main args env ∅ ""))) ""
  = (0, {| outfiles := outfiles (snd (main args env ∅ ""));
           failures := 0; ledger := "";
           trace := [Skipping (2020, 11); Skipping (2020, 12);
                     Skipping (2021, 1); Skipping (2021, 2)] |}).
Proof.
  intros args env.
  assert (H : forall ym, In ym (month_range 2020 11 2021 2) ->
     ym ∈ (∅ : gset (Z * Z)) \/ succeeded (run env ym) = true).
  { intros ym [<-|[<-|[<-|[<-|[]]]]]; right; reflexivity. }
  assert (Hp : pause_bounds (normal_pause_min args) (normal_pause_max args))
    by apply (BatchSpec.default_args_can_pause 2020 11 2021 2).
  split; [exact Hp|]. split; [exact H|].
  destruct (clean_run_then_rerun args env ∅ "" Hp H)
    as (Hc & _ & _ & _ & Hre).
  split; [exact Hc|]. exact (Hre (scripted [] (2020, 11)) "").
Defined.

(** ** The range of months *)

Lemma month_range_nil_iff sy sm ey em :
  month_range sy sm ey em = [] <-> tuple_le (sy, sm) (ey, em) = false.
Proof.
  assert (Hy := BatchSpec.month_range_yields sy sm ey em).
  split.
  - intros Hnil. rewrite Hnil in Hy. now inversion Hy.
  - intros Hle. inversion Hy as [y m Hs | y m l Ht | y m l Ht]; subst;
      [reflexivity | congruence | congruence].
Qed.

(** X19: a range whose end comes before its start is not an error: the
    generator yields nothing, and the run returns 0 at once, having
    launched nothing, paused nowhere and left the files, the counter and
    the failure log as they were.  In every other case the first month
    the generator yields is the start month as given, whether or not
    its number is a month of the calendar. *)
Theorem reversed_range_is_a_no_op :
  forall (args : Args) (env : Env) (existing : gset (Z * Z)) (log : string),
    let first := (start_year args, start_month args) in
    let last := (end_year args, end_month args) in
    (tuple_le first last = false ->
     month_range (start_year args) (start_month args)
       (end_year args) (end_month args) = []
     /\ main args env existing log
        = (0, {| outfiles := existing; failures := 0; ledger := log;
                 trace := [] |})) /\
    (tuple_le first last = true ->
     exists rest,
       month_range (start_year args) (start_month args)
         (end_year args) (end_month args) = first :: rest).
Proof.
  intros args env existing log first last. split.
  - intros Hle. apply month_range_nil_iff in Hle.
    split; [exact Hle|]. unfold main. now rewrite Hle.
  - intros Hle.
    assert (Hy := BatchSpec.month_range_yields (start_year args)
                    (start_month args) (end_year args) (end_month args)).
    inversion Hy as [y m Hs | y m l Ht | y m l Ht]; subst.
    + unfold first, last in Hle. congruence.
    + now exists l.
    + now exists l.
Qed.

Lemma reversed_range_is_a_no_op_witness :
  tuple_le (2021, 3) (2020, 12) = false /\
  main (default_args 2021 3 2020 12) (scripted [] (2021, 3)) ∅ "kept"
  = (0, {| outfiles := ∅; failures := 0; ledger := "kept"; trace := [] |}) /\
  exists rest, month_range 2020 13 2021 1 = (2020, 13) :: rest.
Proof.
  split; [reflexivity|].
  destruct (reversed_range_is_a_no_op (default_args 2021 3 2020 12)
              (scripted [] (2021, 3)) ∅ "kept") as [H _].
  destruct (reversed_range_is_a_no_op (default_args 2020 13 2021 1)
              (scripted [] (2020, 13)) ∅ "") as [_ H'].
  split; [exact (proj2 (H eq_refl)) | exact (H' eq_refl)].
Defined.

Lemma yields_length ey em y m l :
  yields ey em y m l ->
  1 <= m <= 12 -> 1 <= em <= 12 ->
  Z.of_nat (length l) = Z.max 0 (12 * (ey - y) + em - m + 1).
Proof.
  induction 1 as [y m Hstop | y m l Hle Hm Hy IH | y m l Hle Hm Hy IH];
    intros Hrange Hend.
  - apply BatchSpec.tuple_le_false in Hstop. simpl in *. lia.
  - rewrite Z.gtb_ltb in Hm. apply Z.ltb_ge in Hm.
    apply BatchSpec.tuple_le_true in Hle. simpl in Hle.
    simpl length. rewrite Nat2Z.inj_succ, IH by lia. lia.
  - apply Z.gtb_lt in Hm.
    apply BatchSpec.tuple_le_true in Hle. simpl in Hle.
    simpl length. rewrite Nat2Z.inj_succ, IH by lia. lia.
Qed.

(** X20: for a start month and an end month in 1..12, the number of
    months a run visits at most, the length of the range, is
    [12 * (end_year - start_year) + end_month - start_month + 1], and 0
    when that is negative: every calendar month from the start to the
    end is counted once. *)
Theorem month_range_length :
  forall sy sm ey em : Z,
    1 <= sm <= 12 -> 1 <= em <= 12 ->
    Z.of_nat (length (month_range sy sm ey em))
    = Z.max 0 (12 * (ey - sy) + em - sm + 1).
Proof.
  intros sy sm ey em Hs He.
  apply (yields_length ey em sy sm);
    [apply BatchSpec.month_range_yields | exact Hs | exact He].
Qed.

Lemma month_range_length_witness :
  1 <= 12 <= 12 /\ 1 <= 2 <= 12 /\
  Z.of_nat (length (month_range 2006 12 2024 2)) = 207.
Proof.
  assert (Hs : 1 <= 12 <= 12) by lia.
  assert (He : 1 <= 2 <= 12) by lia.
  split; [exact Hs|]. split; [exact He|].
  exact (month_range_length 2006 12 2024 2 Hs He).
Defined.

(** ** The name of the output file *)

Lemma append_inv_head (a b c : string) : a +:+ b = a +:+ c -> b = c.
Proof.
  induction a as [|x a IH]; intros H; [exact H|].
  change (String x (a +:+ b) = String x (a +:+ c)) in H.
  injection H as H. now apply IH.
Qed.

Lemma string_cons_inv x s y t : String x s = String y t -> x = y /\ s = t.
Proof. intros H. now injection H. Qed.

(** Two texts that start with digits up to a first other character agree
    on the digits and on what follows. *)
Lemma digits_split a :
  forall a' c r c' r',
    all_digits a = true -> all_digits a' = true ->
    is_digit c = false -> is_digit c' = false ->
    a +:+ String c r = a' +:+ String c' r' ->
    a = a' /\ String c r = String c' r'.
Proof.
  induction a as [|x a IH]; intros [|x' a'] c r c' r' Ha Ha' Hc Hc' H.
  - now split.
  - change (String c r = String x' (a' +:+ String c' r')) in H.
    injection H as -> _. simpl in Ha'. rewrite Hc in Ha'. discriminate.
  - change (String x (a +:+ String c r) = String c' r') in H.
    injection H as -> _. simpl in Ha. rewrite Hc' in Ha. discriminate.
  - change (String x (a +:+ String c r) = String x' (a' +:+ String c' r'))
      in H.
    injection H as -> H. simpl in Ha, Ha'.
    apply andb_true_iff in Ha as [_ Ha]. apply andb_true_iff in Ha' as [_ Ha'].
    destruct (IH a' c r c' r' Ha Ha' Hc Hc' H) as [-> Hr]. now split.
Qed.

(** A zero-padded number is a run of at least one digit, after a minus
    sign when the number is negative. *)
Lemma format_0d_shape w n :
  exists d t,
    is_digit d = true /\ all_digits t = true
    /\ format_0d w n = if n <? 0 then String "-" (String d t) else String d t.
Proof.
  unfold format_0d.
  assert (Hd := BatchSpec.to_uint_nonnil (Z.abs_N n)).
  assert (Hs : NilZero.string_of_uint (N.to_uint (Z.abs_N n))
               = NilEmpty.string_of_uint (N.to_uint (Z.abs_N n)))
    by (destruct (N.to_uint (Z.abs_N n)); [now elim Hd | reflexivity ..]).
  rewrite Hs.
  assert (Hrun : forall k, exists d t,
            is_digit d = true /\ all_digits t = true
            /\ zeros k +:+ NilEmpty.string_of_uint (N.to_uint (Z.abs_N n))
               = String d t).
  { intros k.
    destruct (zeros k +:+ NilEmpty.string_of_uint (N.to_uint (Z.abs_N n)))
      as [|d t] eqn:E; [now apply BatchSpec.padded_nonempty in E|].
    assert (Hall : all_digits (String d t) = true).
    { rewrite <- E. now rewrite BatchSpec.all_digits_app,
                         BatchSpec.all_digits_zeros, BatchSpec.all_digits_uint. }
    simpl in Hall. apply andb_true_iff in Hall as [H1 H2]. now exists d, t. }
  destruct (n <? 0).
  - destruct (Hrun (w - 1 - String.length
                      (NilEmpty.string_of_uint (N.to_uint (Z.abs_N n))))%nat)
      as (d & t & H1 & H2 & ->).
    now exists d, t.
  - destruct (Hrun (w - String.length
                      (NilEmpty.string_of_uint (N.to_uint (Z.abs_N n))))%nat)
      as (d & t & H1 & H2 & ->).
    now exists d, t.
Qed.

(** Two zero-padded numbers, each followed by a character that is not a
    digit, in two equal texts: the numbers are the same, and so is what
    follows them. *)
Lemma format_0d_split w n n' c r c' r' :
  is_digit c = false -> is_digit c' = false ->
  format_0d w n +:+ String c r = format_0d w n' +:+ String c' r' ->
  n = n' /\ String c r = String c' r'.
Proof.
  intros Hc Hc' H.
  assert (Hsame : format_0d w n = format_0d w n'
                  /\ String c r = String c' r').
  { destruct (format_0d_shape w n) as (d & t & Hd & Ht & E).
    destruct (format_0d_shape w n') as (d' & t' & Hd' & Ht' & E').
    rewrite E, E' in H |- *.
    assert (Hall : all_digits (String d t) = true)
      by (simpl; now rewrite Hd, Ht).
    assert (Hall' : all_digits (String d' t') = true)
      by (simpl; now rewrite Hd', Ht').
    destruct (n <? 0), (n' <? 0).
    - change (String "-" (String d t +:+ String c r)
              = String "-" (String d' t' +:+ String c' r')) in H.
      apply string_cons_inv in H as [_ H].
      destruct (digits_split _ _ _ _ _ _ Hall Hall' Hc Hc' H) as [Hdt Hr].
      split; [now rewrite Hdt | exact Hr].
    - change (String "-" (String d t +:+ String c r)
              = String d' (t' +:+ String c' r')) in H.
      apply string_cons_inv in H as [<- _]. discriminate.
    - change (String d (t +:+ String c r)
              = String "-" (String d' t' +:+ String c' r')) in H.
      apply string_cons_inv in H as [-> _]. discriminate.
    - destruct (digits_split _ _ _ _ _ _ Hall Hall' Hc Hc' H) as [Hdt Hr].
      split; [exact Hdt | exact Hr]. }
  destruct Hsame as [Hf Hr]. split; [|exact Hr].
  assert (Hn := BatchSpec.int_format_0d w n). rewrite Hf in Hn.
  rewrite BatchSpec.int_format_0d in Hn. now injection Hn as <-.
Qed.

(** X21: for one journal, the file the exporter writes for a year and a
    month bears the name the batch driver tests for that year and month,
    and the name of no other month: the two names are equal exactly when
    the years are equal and the months are equal, whatever integers they
    are.  So a month is skipped only on the strength of its own file. *)
Theorem output_file_names_agree :
  forall (journal : string) (year month year' month' : Z),
    Exporter.out_name journal year month = outfile_name journal year' month'
    <-> year = year' /\ month = month'.
Proof.
  intros journal year month year' month'. split.
  - unfold Exporter.out_name, outfile_name. intros H.
    apply (append_inv_head "dw_export_") in H.
    apply append_inv_head in H.
    apply (append_inv_head "_") in H.
    change (format_0d 4 year +:+ String "-" (format_0d 2 month +:+ ".xml")
            = format_0d 4 year' +:+ String "-" (format_0d 2 month' +:+ ".xml"))
      in H.
    apply format_0d_split in H as [Hy H]; [|reflexivity ..].
    apply string_cons_inv in H as [_ H].
    change (format_0d 2 month +:+ String "." "xml"
            = format_0d 2 month' +:+ String "." "xml") in H.
    apply format_0d_split in H as [Hm _]; [|reflexivity ..].
    now split.
  - now intros [-> ->].
Qed.

End LedgerSpec.

(* ===================================================================== *)
(** * One month, from the export page to the saved file *)
(* ===================================================================== *)

Module PipelineSpec.
Import Text Downloader Exporter Pipeline.

(** The form chosen among the forms with all their fields is the form
    [choose_export_form] chooses among their views. *)
Lemma scan_forms_view forms :
  scan_forms (map form_view forms)
  = option_map form_view (List.find is_export_form forms).
Proof.
  induction forms as [|f forms IH]; [reflexivity|].
  simpl. unfold is_export_form.
  destruct (year_month_select (form_view f)); [reflexivity|].
  destruct (export_text (form_view f)); [reflexivity | exact IH].
Qed.

Lemma chosen_form_view forms :
  choose_export_form (map form_view forms)
  = match chosen_form forms with
    | inl e => inl e
    | inr f => inr (form_view f)
    end.
Proof.
  destruct forms as [|first rest]; [reflexivity|].
  unfold chosen_form, choose_export_form.
  change (map form_view (first :: rest))
    with (form_view first :: map form_view rest).
  change (form_view first :: map form_view rest)
    with (map form_view (first :: rest)).
  rewrite scan_forms_view.
  now destruct (List.find is_export_form (first :: rest)).
Qed.

(** The ways through [export]. *)
Lemma export_cases lib cfg month opts run :
  let page := request_with_retries "GET" (export_url opts) cfg (world run) in
  let run1 := jitter_sleep (set_world (snd page) run) in
  let debug stage resp request_url :=
    write_debug_artifacts lib (debug_dir opts) (year opts) month stage resp
      request_url in
  (exists e,
     fst page = inl e
     /\ export lib cfg month opts run = (Raise e, set_world (snd page) run))
  \/ (exists r,
        fst page = inr r /\ login_redirect r = true
        /\ export lib cfg month opts run
           = (Return 3, debug "get_export_redirect" r (export_url opts) run1))
  \/ (exists r,
        fst page = inr r /\ login_redirect r = false /\ status_code r <> 200
        /\ export lib cfg month opts run
           = (Return 3, debug "get_export_badstatus" r (export_url opts) run1))
  \/ (exists r e,
        fst page = inr r /\ login_redirect r = false /\ status_code r = 200
        /\ chosen_form (find_all_forms lib (text r)) = inl e
        /\ export lib cfg month opts run
           = (Raise e, debug "get_export_parsefail" r (export_url opts) run1))
  \/ (exists r form,
        fst page = inr r /\ login_redirect r = false /\ status_code r = 200
        /\ chosen_form (find_all_forms lib (text r)) = inr form
        /\ let run2 := with_data (export_payload form (year opts) month) run1 in
           let answer :=
             request_with_retries "POST" (post_url lib form) cfg (world run2) in
           let run3 := jitter_sleep (set_world (snd answer) run2) in
           (exists e,
              fst answer = inl e
              /\ export lib cfg month opts run
                 = (Raise e, set_world (snd answer) run2))
           \/ (exists pr,
                 fst answer = inr pr /\ looks_like_xml_export pr = false
                 /\ export lib cfg month opts run
                    = (Return 4,
                       if print_snippet opts
                       then print (snippet pr)
                              (debug "post_export_notxml" pr
                                 (post_url lib form) run3)
                       else debug "post_export_notxml" pr
                              (post_url lib form) run3))
           \/ (exists pr,
                 fst answer = inr pr /\ looks_like_xml_export pr = true
                 /\ export lib cfg month opts run
                    = (Return 0,
                       write_text (outdir opts)
                         (out_name (journal opts) (year opts) month)
                         (text pr) run3))).
Proof.
  intros page run1 debug. unfold export. fold page.
  destruct page as [[e|r] w] eqn:Hpage; simpl fst; simpl snd.
  - left. now exists e.
  - right. fold run1.
    destruct (login_redirect r) eqn:Hlogin; [left; now exists r|].
    right.
    destruct (status_code r =? 200) eqn:Hstatus; simpl negb.
    2: { left. exists r. apply Z.eqb_neq in Hstatus. now repeat split. }
    right. apply Z.eqb_eq in Hstatus.
    destruct (chosen_form (find_all_forms lib (text r))) as [e|form] eqn:Hform.
    { left. now exists r, e. }
    right. exists r, form. repeat split; try assumption.
    cbv zeta. unfold run1.
    cbn [world with_data jitter_sleep set_world snd fst].
    destruct (request_with_retries "POST" (post_url lib form) cfg w)
      as [[e|pr] w'] eqn:Hanswer; cbn [snd fst].
    + left. now exists e.
    + right. destruct (looks_like_xml_export pr) eqn:Hxml; simpl negb.
      * right. now exists pr.
      * left. exists pr. repeat split. now destruct (print_snippet opts).
Qed.

(** ** What the pieces leave alone *)

Lemma request_with_retries_result method target cfg w :
  (sent w <= sent (snd (request_with_retries method target cfg w))
          <= sent w + Z.to_nat (max_retries cfg))%nat
  /\ (forall e, fst (request_with_retries method target cfg w) = inl e ->
        exists msg, e = RuntimeError msg)
  /\ (forall r, fst (request_with_retries method target cfg w) = inr r ->
        retry_status (status_code r) = false).
Proof.
  unfold request_with_retries.
  destruct (RetrySpec.attempts_never method target
              (range 1 (max_retries cfg + 1)) w)
    as (_ & Hsent & _ & _ & Hsome).
  rewrite DownloaderSpec.range_length in Hsent.
  replace (Z.to_nat (max_retries cfg + 1 - 1))
    with (Z.to_nat (max_retries cfg)) in Hsent by lia.
  destruct (attempts method target (range 1 (max_retries cfg + 1)) w)
    as [[r|] w'] eqn:Hrun; simpl in *.
  - split; [exact Hsent|]. split; [discriminate|].
    intros r0 H. injection H as <-. now apply Hsome.
  - split; [exact Hsent|]. split; [|discriminate].
    intros e H. injection H as <-. now eexists.
Qed.

Lemma chosen_form_error forms e :
  chosen_form forms = inl e -> exists msg, e = RuntimeError msg.
Proof.
  destruct forms as [|first rest]; unfold chosen_form.
  - intros H. injection H as <-. now eexists.
  - now destruct (List.find is_export_form (first :: rest)).
Qed.

Lemma body_name_listed stage year month resp :
  In stage stages -> In (body_name stage year month resp) (debug_names year month).
Proof.
  intros Hs. unfold debug_names. apply in_flat_map. exists stage.
  split; [exact Hs|]. unfold body_name, extension.
  destruct (contains "xml" (lower (default "" (content_type resp)))).
  - now left.
  - right. now left.
Qed.

Lemma meta_name_listed stage year month :
  In stage stages -> In (meta_name stage year month) (debug_names year month).
Proof.
  intros Hs. unfold debug_names. apply in_flat_map. exists stage.
  split; [exact Hs|]. right. right. now left.
Qed.

(** The output file is none of the debugging files: its name starts
    with another letter. *)
Lemma out_name_not_listed journal year month year' month' :
  ~ In (out_name journal year month) (debug_names year' month').
Proof.
  unfold debug_names, stages, out_name, meta_name. cbn [flat_map app].
  intros H. repeat (destruct H as [H|H]; [discriminate H|]). exact H.
Qed.

Lemma meta_name_not_body stage year month resp :
  meta_name stage year month <> body_name stage year month resp.
Proof.
  unfold meta_name, body_name. intros H.
  apply LedgerSpec.append_inv_head in H.
  apply (LedgerSpec.append_inv_head "_") in H.
  apply LedgerSpec.append_inv_head in H.
  apply (LedgerSpec.append_inv_head "-") in H.
  apply LedgerSpec.append_inv_head in H.
  discriminate H.
Qed.

Lemma write_debug_artifacts_files lib dir year month stage resp target run :
  In stage stages ->
  files (write_debug_artifacts lib dir year month stage resp target run)
    !! (dir, body_name stage year month resp) = Some (text resp)
  /\ forall key,
       (fst key <> dir \/ ~ In (snd key) (debug_names year month)) ->
       files (write_debug_artifacts lib dir year month stage resp target run)
         !! key = files run !! key.
Proof.
  intros Hs. unfold write_debug_artifacts, write_text. cbn [files]. split.
  - rewrite lookup_insert_ne, lookup_insert_eq; [reflexivity|].
    intros H. injection H as H. now apply meta_name_not_body in H.
  - intros [d n] Hkey. cbn [fst snd] in Hkey.
    rewrite !lookup_insert_ne; [reflexivity | |].
    + intros H. injection H as <- <-. destruct Hkey as [Hd|Hn];
        [now apply Hd | apply Hn; now apply body_name_listed].
    + intros H. injection H as <- <-. destruct Hkey as [Hd|Hn];
        [now apply Hd | apply Hn; now apply meta_name_listed].
Qed.

Lemma debug_keeps lib dir year month stage resp target run key :
  In stage stages ->
  (fst key <> dir \/ ~ In (snd key) (debug_names year month)) ->
  files (write_debug_artifacts lib dir year month stage resp target run) !! key
  = files run !! key.
Proof.
  intros Hs Hkey.
  now apply (write_debug_artifacts_files lib dir year month stage resp target
               run Hs).
Qed.

Lemma debug_keeps_output lib dir year month stage resp target run out_dir
    journal year' month' :
  In stage stages ->
  files (write_debug_artifacts lib dir year month stage resp target run)
    !! (out_dir, out_name journal year' month')
  = files run !! (out_dir, out_name journal year' month').
Proof.
  intros Hs. apply debug_keeps; [exact Hs|].
  right. apply out_name_not_listed.
Qed.

(** ** The properties *)

Ltac by_cases lib cfg month opts run :=
  let H := fresh "H" in
  pose proof (export_cases lib cfg month opts run) as H; cbv zeta in H;
  destruct H
    as [(e & Hpage & Heq)
       | [(r & Hpage & Hlogin & Heq)
         | [(r & Hpage & Hlogin & Hstatus & Heq)
           | [(r & e & Hpage & Hlogin & Hstatus & Hform & Heq)
             | (r & form & Hpage & Hlogin & Hstatus & Hform
                & [(e & Hanswer & Heq)
                  | [(pr & Hanswer & Hxml & Heq)
                    | (pr & Hanswer & Hxml & Heq)]])]]]];
  rewrite Heq; cbn [fst snd].

Lemma stage_listed_1 : In "get_export_redirect" stages.
Proof. now left. Qed.

Lemma stage_listed_2 : In "get_export_badstatus" stages.
Proof. right. now left. Qed.

Lemma stage_listed_3 : In "get_export_parsefail" stages.
Proof. right. right. now left. Qed.

Lemma stage_listed_4 : In "post_export_notxml" stages.
Proof. right. right. right. now left. Qed.

Lemma export_endings lib cfg month opts run :
  (forall code, fst (export lib cfg month opts run) = Return code ->
     code = 0 \/ code = 3 \/ code = 4)
  /\ (forall e, fst (export lib cfg month opts run) = Raise e ->
        exists msg, e = RuntimeError msg).
Proof.
  by_cases lib cfg month opts run; split; intros x Hx;
    try discriminate Hx; injection Hx as <-; try lia.
  - now apply (request_with_retries_result "GET" (export_url opts) cfg
                 (world run)).
  - now apply (chosen_form_error _ _ Hform).
  - eapply (request_with_retries_result "POST"). exact Hanswer.
Qed.

(** X22: the output file is written exactly when the exporter returns 0.
    Then the GET returned a page, a form was chosen on it, the POST to
    that form's address returned a response, which was recognised as an
    export and has none of the retried statuses 429, 500, 502, 503, 504;
    and the only change on disk is that the file named after the journal,
    the year and the month, in the output directory, holds the text of
    that response, verbatim; it is the file the batch driver tests for.
    With any other ending that file is left as it was. *)
Theorem export_saves_exactly_on_success :
  forall (lib : Library) (cfg : RateLimitConfig) (month : Z)
         (opts : Options) (run : Run),
    let res := export lib cfg month opts run in
    let page := request_with_retries "GET" (export_url opts) cfg (world run) in
    let out := (outdir opts, out_name (journal opts) (year opts) month) in
    (fst res = Return 0 ->
     exists r form pr,
       fst page = inr r
       /\ chosen_form (find_all_forms lib (text r)) = inr form
       /\ fst (request_with_retries "POST" (post_url lib form) cfg (snd page))
          = inr pr
       /\ files (snd res) = <[out := text pr]> (files run)
       /\ files (snd res)
            !! (outdir opts,
                Ledger.outfile_name (journal opts) (year opts) month)
          = Some (text pr)
       /\ looks_like_xml_export pr = true
       /\ ~ In (status_code pr) [429; 500; 502; 503; 504]) /\
    (fst res <> Return 0 -> files (snd res) !! out = files run !! out).
Proof.
  intros lib cfg month opts run res page out. subst res page out.
  by_cases lib cfg month opts run; (split; [intros Hz | intros Hnz]);
    try discriminate Hz; try reflexivity.
  - now rewrite debug_keeps_output by apply stage_listed_1.
  - now rewrite debug_keeps_output by apply stage_listed_2.
  - now rewrite debug_keeps_output by apply stage_listed_3.
  - destruct (print_snippet opts); cbn [files print];
      now rewrite debug_keeps_output by apply stage_listed_4.
  - exists r, form, pr. split; [exact Hpage|]. split; [exact Hform|].
    split; [exact Hanswer|]. split; [reflexivity|]. split.
    + change (Ledger.outfile_name (journal opts) (year opts) month)
        with (out_name (journal opts) (year opts) month).
      cbn [files write_text]. apply lookup_insert_eq.
    + split; [exact Hxml|].
      intros Hin. apply RetrySpec.retry_status_spec in Hin.
      assert (Hno : retry_status (status_code pr) = false).
      { eapply (request_with_retries_result "POST"). exact Hanswer. }
      congruence.
  - now elim Hnz.
Qed.

Lemma export_saves_exactly_on_success_witness :
  fst (export sample_library default_config 12 sample_options
         (fresh_run obliging_remote)) = Return 0 /\
  files (snd (export sample_library default_config 12 sample_options
                (fresh_run obliging_remote)))
  = <[("dw_exports", "dw_export_default_2006-12.xml")
      := text export_document]> ∅.
Proof.
  assert (H : fst (export sample_library default_config 12 sample_options
                     (fresh_run obliging_remote)) = Return 0)
    by (vm_compute; reflexivity).
  split; [exact H|].
  destruct (export_saves_exactly_on_success sample_library default_config 12
              sample_options (fresh_run obliging_remote)) as [Hz _].
  destruct (Hz H) as (r & form & pr & Hpage & Hform & Hpost & Hfiles & _).
  assert (Hr : r = status_response 200)
    by (vm_compute in Hpage; now injection Hpage as <-).
  subst r.
  assert (Hf : form = sample_form)
    by (cbv in Hform; now injection Hform as <-).
  subst form.
  assert (Hpr : pr = export_document)
    by (vm_compute in Hpost; now injection Hpost as <-).
  subst pr. exact Hfiles.
Defined.

(** X23: a run of the exporter touches no file but the output file and,
    in the debugging directory, the body and the meta file of one of the
    four stages for the year and the month; and whenever it returns 3 or
    4 it has saved the text of the offending response, verbatim, under
    its stage's body name there: when the code is 3, the response the
    GET returned; when it is 4, the response the POST to the chosen
    form's address returned. *)
Theorem export_touches_only_its_files :
  forall (lib : Library) (cfg : RateLimitConfig) (month : Z)
         (opts : Options) (run : Run),
    let res := export lib cfg month opts run in
    let page := request_with_retries "GET" (export_url opts) cfg (world run) in
    (forall key,
       key <> (outdir opts, out_name (journal opts) (year opts) month) ->
       (fst key <> debug_dir opts
        \/ ~ In (snd key) (debug_names (year opts) month)) ->
       files (snd res) !! key = files run !! key) /\
    (forall code,
       fst res = Return code -> code <> 0 ->
       exists stage resp,
         In stage stages
         /\ files (snd res)
              !! (debug_dir opts, body_name stage (year opts) month resp)
            = Some (text resp)
         /\ (stage = "post_export_notxml" <-> code = 4)
         /\ (code = 3 -> fst page = inr resp)
         /\ (code = 4 ->
             exists r form,
               fst page = inr r
               /\ chosen_form (find_all_forms lib (text r)) = inr form
               /\ fst (request_with_retries "POST" (post_url lib form) cfg
                         (snd page)) = inr resp)).
Proof.
  intros lib cfg month opts run res page. subst res page.
  by_cases lib cfg month opts run; split.
  all: match goal with
       | |- forall key : string * string, _ =>
           intros key Hout Hkey; try reflexivity
       | |- forall code : Z, _ =>
           intros code Hcode Hnz; try discriminate Hcode;
           injection Hcode as <-
       end.
  - now rewrite debug_keeps by (apply stage_listed_1 || exact Hkey).
  - exists "get_export_redirect", r. split; [apply stage_listed_1|].
    split; [now apply write_debug_artifacts_files, stage_listed_1|].
    split; [split; discriminate|]. split; [now intros _ | discriminate].
  - now rewrite debug_keeps by (apply stage_listed_2 || exact Hkey).
  - exists "get_export_badstatus", r. split; [apply stage_listed_2|].
    split; [now apply write_debug_artifacts_files, stage_listed_2|].
    split; [split; discriminate|]. split; [now intros _ | discriminate].
  - now rewrite debug_keeps by (apply stage_listed_3 || exact Hkey).
  - destruct (print_snippet opts); cbn [files print];
      now rewrite debug_keeps by (apply stage_listed_4 || exact Hkey).
  - exists "post_export_notxml", pr. split; [apply stage_listed_4|].
    split.
    + destruct (print_snippet opts); cbn [files print];
        now apply write_debug_artifacts_files, stage_listed_4.
    + split; [now split|]. split; [discriminate|].
      intros _. now exists r, form.
  - cbn [files write_text]. now rewrite lookup_insert_ne by congruence.
  - now elim Hnz.
Qed.

Lemma export_touches_only_its_files_witness :
  exists stage resp,
    In stage stages
    /\ files (snd (export sample_library default_config 12 sample_options
                     (fresh_run login_remote)))
         !! ("dw_debug", body_name stage 2006 12 resp)
       = Some (text resp)
    /\ fst (request_with_retries "GET" (export_url sample_options)
              default_config (world (fresh_run login_remote))) = inr resp.
Proof.
  destruct (export_touches_only_its_files sample_library default_config 12
              sample_options (fresh_run login_remote)) as [_ H].
  destruct (H 3) as (stage & resp & Hs & Hf & _ & Hget & _).
  - vm_compute. reflexivity.
  - discriminate.
  - exists stage, resp. split; [exact Hs|]. split; [exact Hf|].
    now apply Hget.
Defined.

(** X24: the exporter sends at most [2 * max_retries] requests.  It
    passes a payload to a POST call only after the GET has returned a
    response that is no login redirect, has status 200 and whose page
    has a form; the payload is then the export payload of the chosen
    form, and it is passed once.  Otherwise, in particular whenever the
    exporter returns 3, nothing is posted and the session is left as the
    GET left it. *)
Theorem export_posts_only_after_the_form :
  forall (lib : Library) (cfg : RateLimitConfig) (month : Z)
         (opts : Options) (run : Run),
    let res := export lib cfg month opts run in
    let page := request_with_retries "GET" (export_url opts) cfg (world run) in
    (sent (world run) <= sent (world (snd res))
       <= sent (world run) + 2 * Z.to_nat (max_retries cfg))%nat
    /\ ((posted (snd res) = posted run /\ world (snd res) = snd page)
        \/ exists r form,
             fst page = inr r /\ login_redirect r = false
             /\ status_code r = 200
             /\ chosen_form (find_all_forms lib (text r)) = inr form
             /\ posted (snd res)
                = (posted run ++ [export_payload form (year opts) month])%list
             /\ world (snd res)
                = snd (request_with_retries "POST" (post_url lib form) cfg
                         (snd page)))
    /\ (fst res = Return 3 ->
        posted (snd res) = posted run /\ world (snd res) = snd page).
Proof.
  intros lib cfg month opts run res page. subst res page.
  assert (Hget := request_with_retries_result "GET" (export_url opts) cfg
                    (world run)).
  destruct Hget as (Hsent & _ & _).
  assert (Hpost : forall form,
    (sent (snd (request_with_retries "GET" (export_url opts) cfg (world run)))
     <= sent (snd (request_with_retries "POST" (post_url lib form) cfg
                     (snd (request_with_retries "GET" (export_url opts) cfg
                             (world run)))))
     <= sent (snd (request_with_retries "GET" (export_url opts) cfg
                     (world run)))
        + Z.to_nat (max_retries cfg))%nat)
    by (intros form; apply request_with_retries_result).
  by_cases lib cfg month opts run.
  1-4: cbn [world posted snd fst set_world jitter_sleep
            write_debug_artifacts write_text with_data print];
       split; [lia|]; split; [left; now split|];
       intros Hc; try discriminate Hc; now split.
  all: try match goal with
           | |- context [print_snippet ?o] => destruct (print_snippet o)
           end.
  all: cbn [world posted snd fst set_world jitter_sleep
            write_debug_artifacts write_text with_data print].
  all: specialize (Hpost form); split; [lia|].
  all: split; [|intros Hc; discriminate Hc].
  all: right; exists r, form; repeat split; assumption || reflexivity.
Qed.

Lemma export_posts_only_after_the_form_witness :
  fst (export sample_library default_config 12 sample_options
         (fresh_run login_remote)) = Return 3 /\
  posted (snd (export sample_library default_config 12 sample_options
                 (fresh_run login_remote))) = [].
Proof.
  assert (H : fst (export sample_library default_config 12 sample_options
                     (fresh_run login_remote)) = Return 3)
    by (vm_compute; reflexivity).
  split; [exact H|].
  destruct (export_posts_only_after_the_form sample_library default_config 12
              sample_options (fresh_run login_remote)) as (_ & _ & H3).
  exact (proj1 (H3 H)).
Defined.

(** X25: when the delays of [jitter_sleep] can be slept, the exporter,
    once it has its session, returns no code but 0, 3 or 4.  An error
    that leaves the GET leaves the exporter, with nothing written or
    posted; a page without a form, served with status 200 and no login
    redirect, makes it raise the error that says so.  It returns 3
    exactly when the GET returned a response that is a login redirect or
    has a status other than 200; a login redirect gives 3 whatever its
    status, before the page is looked at.  It returns 4 only when the
    POST to the chosen form's address returned a response that was not
    recognised as an export. *)
Theorem export_exit_codes :
  forall (lib : Library) (cfg : RateLimitConfig) (month : Z)
         (opts : Options) (run : Run),
    sleepable (min_delay_s cfg) -> sleepable (max_delay_s cfg) ->
    let res := export lib cfg month opts run in
    let page := request_with_retries "GET" (export_url opts) cfg (world run) in
    (forall code, fst res = Return code -> code = 0 \/ code = 3 \/ code = 4)
    /\ (forall e, fst page = inl e ->
          fst res = Raise e
          /\ files (snd res) = files run /\ posted (snd res) = posted run)
    /\ (forall r, fst page = inr r ->
          login_redirect r = false -> status_code r = 200 ->
          find_all_forms lib (text r) = [] ->
          fst res
          = Raise (RuntimeError
                     "No <form> found on /export page. Are you logged in?"))
    /\ (fst res = Return 3 <->
        exists r, fst page = inr r
                  /\ (login_redirect r = true \/ status_code r <> 200))
    /\ (fst res = Return 4 ->
        exists r form pr,
          fst page = inr r
          /\ chosen_form (find_all_forms lib (text r)) = inr form
          /\ fst (request_with_retries "POST" (post_url lib form) cfg
                    (snd page)) = inr pr
          /\ looks_like_xml_export pr = false).
Proof.
  intros lib cfg month opts run _ _ res page. subst res page.
  split; [apply export_endings|].
  by_cases lib cfg month opts run.
  all: (split; [intros e' He'; rewrite Hpage in He'; try discriminate He'|]).
  all: try (injection He' as <-; now repeat split).
  all: (split; [intros r' Hr' Hlogin' Hstatus' Hforms; rewrite Hpage in Hr';
                try discriminate Hr'; injection Hr' as <-;
                try congruence|]).
  all: try (rewrite Hforms in Hform; simpl in Hform; congruence).
  all: split.
  all: try (split; [intros Hc; discriminate Hc|]).
  all: try (intros Hc; discriminate Hc).
  all: try (intros (r' & Hr' & Hwhy); rewrite Hpage in Hr';
            try discriminate Hr'; injection Hr' as <-;
            destruct Hwhy as [Hwhy|Hwhy]; congruence).
  - split; [intros _ | reflexivity]. exists r. split; [exact Hpage | now left].
  - split; [intros _ | reflexivity]. exists r. split; [exact Hpage | now right].
  - intros _. now exists r, form, pr.
Qed.

Lemma export_exit_codes_witness :
  sleepable (min_delay_s default_config) /\
  sleepable (max_delay_s default_config) /\
  fst (export sample_library default_config 12 sample_options
         (fresh_run login_remote)) = Return 3 /\
  exists r,
    fst (request_with_retries "GET" (export_url sample_options) default_config
           (world (fresh_run login_remote))) = inr r
    /\ (login_redirect r = true \/ status_code r <> 200).
Proof.
  destruct DownloaderSpec.default_config_delays as [Hmin Hmax].
  split; [exact Hmin|]. split; [exact Hmax|].
  assert (H : fst (export sample_library default_config 12 sample_options
                     (fresh_run login_remote)) = Return 3)
    by (vm_compute; reflexivity).
  split; [exact H|].
  destruct (export_exit_codes sample_library default_config 12
              sample_options (fresh_run login_remote) Hmin Hmax)
    as (_ & _ & _ & H3 & _).
  exact (proj1 H3 H).
Defined.

Lemma bootstrap_exit files_on_disk args code :
  bootstrap files_on_disk args = Exit code -> code = 2.
Proof.
  unfold bootstrap.
  destruct (negb ((1 <=? month args) && (month args <=? 12)));
    [intros H; now injection H|].
  destruct (negb (truthy (cookie_file args))
            && negb (truthy (cookie_header args)));
    [intros H; now injection H|].
  destruct (truthy (cookie_file args)); [|discriminate].
  now destruct (load_netscape_cookie_file files_on_disk
                  (default "" (cookie_file args))).
Qed.

(** X26: [main] returns 2, before any request is sent and with nothing
    written, when the month is outside 1..12 or no cookie source is
    given; an error raised while the cookie file is loaded leaves [main]
    at the same point.  Its exit code is always 0, 2, 3 or 4, and 2
    always means that nothing was done. *)
Theorem main_fails_fast :
  forall (files_on_disk : string -> option (list string)) (lib : Library)
         (args : Args) (opts : Options) (run : Run),
    ((~ 1 <= month args <= 12
      \/ (truthy (cookie_file args) = false
          /\ truthy (cookie_header args) = false)) ->
     main files_on_disk lib args opts run = (Return 2, run)) /\
    (forall e, bootstrap files_on_disk args = Raised e ->
       main files_on_disk lib args opts run = (Raise e, run)) /\
    (forall code,
       fst (main files_on_disk lib args opts run) = Return code ->
       code = 0 \/ code = 2 \/ code = 3 \/ code = 4) /\
    (fst (main files_on_disk lib args opts run) = Return 2 ->
     snd (main files_on_disk lib args opts run) = run).
Proof.
  intros files_on_disk lib args opts run. unfold main. split; [|split].
  - intros Hbad.
    assert (Hexit : bootstrap files_on_disk args = Exit 2).
    { unfold bootstrap. destruct Hbad as [Hmonth | [Hfile Hheader]].
      - assert (Hm : (1 <=? month args) && (month args <=? 12) = false).
        { apply andb_false_iff.
          destruct (Z.leb_spec 1 (month args)); [right | now left].
          apply Z.leb_gt. lia. }
        now rewrite Hm.
      - destruct (negb ((1 <=? month args) && (month args <=? 12)));
          [reflexivity|].
        now rewrite Hfile, Hheader. }
    now rewrite Hexit.
  - now intros e ->.
  - destruct (bootstrap files_on_disk args) as [code|e|cookies] eqn:Hboot.
    + apply bootstrap_exit in Hboot as ->. split; [|reflexivity].
      intros code Hc. injection Hc as <-. lia.
    + split; [discriminate | discriminate].
    + destruct (export_endings lib default_config (month args) opts run)
        as [Hcodes _].
      split.
      * intros code Hc. destruct (Hcodes code Hc) as [-> | [-> | ->]]; lia.
      * intros Hc. destruct (Hcodes 2 Hc) as [H|[H|H]]; discriminate H.
Qed.

Lemma main_fails_fast_witness :
  ~ 1 <= month {| month := 13; cookie_file := Some "cookies.txt";
                  cookie_header := None |} <= 12 /\
  main one_cookie_file sample_library
    {| month := 13; cookie_file := Some "cookies.txt"; cookie_header := None |}
    sample_options (fresh_run obliging_remote)
  = (Return 2, fresh_run obliging_remote).
Proof.
  assert (H : ~ 1 <= month {| month := 13; cookie_file := Some "cookies.txt";
                              cookie_header := None |} <= 12)
    by (simpl; lia).
  split; [exact H|].
  destruct (main_fails_fast one_cookie_file sample_library
              {| month := 13; cookie_file := Some "cookies.txt";
                 cookie_header := None |}
              sample_options (fresh_run obliging_remote)) as [Hbad _].
  apply Hbad. now left.
Defined.

End PipelineSpec.

(* ===================================================================== *)
(** * The form and its field names, at the edges *)
(* ===================================================================== *)

Module FormSpec.
Import Text Downloader.

Lemma scan_forms_member forms f : scan_forms forms = Some f -> In f forms.
Proof.
  induction forms as [|g forms IH]; [discriminate|]. simpl.
  destruct (year_month_select g); [intros H; injection H as <-; now left|].
  destruct (export_text g); [intros H; injection H as <-; now left|].
  intros H. right. now apply IH.
Qed.

(** X27: [choose_export_form] raises exactly when the page has no form
    at all, and a form it returns is always one of the forms of the
    page: a page with forms never makes it fail, whatever they hold. *)
Theorem choose_export_form_total_on_forms :
  forall forms : list FormTag,
    ((exists e, choose_export_form forms = inl e) <-> forms = []) /\
    (forall f, choose_export_form forms = inr f -> In f forms).
Proof.
  intros forms. unfold choose_export_form.
  destruct forms as [|first rest].
  - split; [split; [reflexivity | intros _; now eexists] | discriminate].
  - split.
    + split; [|discriminate].
      intros [e He]. now destruct (scan_forms (first :: rest)).
    + intros f. destruct (scan_forms (first :: rest)) as [g|] eqn:Hscan.
      * intros H. injection H as <-. now apply scan_forms_member.
      * intros H. injection H as <-. now left.
Qed.

Lemma choose_export_form_total_on_forms_witness :
  In nav_form export_page.
Proof.
  destruct (choose_export_form_total_on_forms export_page) as [_ H].
  exact (H nav_form eq_refl).
Defined.

(** X28: the field-name inference falls back on the names "year" and
    "month".  On a form whose option labels are plain, the year field is
    "year" when no select with a name has five or more four-digit
    options, and the month field is "month" when no select with a name
    has five or more options that are a numeral from 1 to 12.  Both
    defaults are returned for a form without selects, and for a form
    none of whose selects has a name, whatever their options: a select
    without a name never gives a field name. *)
Theorem guess_year_month_field_names_defaults :
  forall form : FormTag,
    (plain_labels form ->
     (forall s name, In s (form_selects form) ->
        select_name s = Some name -> name <> "" -> ~ lists_years s) ->
     fst (guess_year_month_field_names form) = "year") /\
    (plain_labels form ->
     (forall s name, In s (form_selects form) ->
        select_name s = Some name -> name <> "" -> ~ lists_months s) ->
     snd (guess_year_month_field_names form) = "month") /\
    (form_selects form = [] ->
     guess_year_month_field_names form = ("year", "month")) /\
    ((forall s, In s (form_selects form) ->
        select_name s = None \/ select_name s = Some "") ->
     guess_year_month_field_names form = ("year", "month")).
Proof.
  intros form. unfold guess_year_month_field_names.
  split; [|split; [|split]].
  - intros Hplain Hno. apply DownloaderSpec.guess_loop_year_kept.
    intros s Hs. apply (DownloaderSpec.names_year_false form); auto.
    intros name Hn Hne. now apply (Hno s name).
  - intros Hplain Hno. apply DownloaderSpec.guess_loop_month_kept.
    intros s Hs. apply (DownloaderSpec.names_month_false form); auto.
    intros name Hn Hne. now apply (Hno s name).
  - now intros ->.
  - intros Hnameless.
    rewrite (surjective_pairing (guess_loop (form_selects form) "year" "month")).
    f_equal.
    + apply DownloaderSpec.guess_loop_year_kept. intros s Hs.
      unfold names_year. now destruct (Hnameless s Hs) as [-> | ->].
    + apply DownloaderSpec.guess_loop_month_kept. intros s Hs.
      unfold names_month. now destruct (Hnameless s Hs) as [-> | ->].
Qed.

Lemma guess_year_month_field_names_defaults_witness :
  plain_labels few_years_form /\
  fst (guess_year_month_field_names few_years_form) = "year" /\
  guess_year_month_field_names nav_form = ("year", "month").
Proof.
  assert (Hplain : plain_labels few_years_form)
    by DownloaderSpec.plain_labels_by_test.
  split; [exact Hplain|].
  destruct (guess_year_month_field_names_defaults few_years_form)
    as (Hyear & _).
  destruct (guess_year_month_field_names_defaults nav_form)
    as (_ & _ & Hnone & _).
  split; [|exact (Hnone eq_refl)].
  apply (Hyear Hplain).
  intros s name [<-|[<-|[]]] Hn Hne; [|discriminate Hn].
  intros Hy. apply DownloaderSpec.yearish_spec in Hy.
  - vm_compute in Hy. now apply Hy.
  - intros o Ho. simpl in Ho.
    repeat (destruct Ho as [<-|Ho];
            [now apply DownloaderSpec.plain_label_by_test|]).
    destruct Ho.
Defined.

End FormSpec.
